(** * Meera OS memory engine: a shallow embedding of the storage layer
      (src/memory/nodes.py, src/memory/storage.py) and of the memory
      updater (src/agents/shiva.py), with the properties of the
      specification settled against it.

    Modelling conventions.
    - Python [str] is [string]; [float] is [Q] (the orderings used by the
      code are those of non-NaN floats); [datetime] is [Z] (a count of clock
      ticks); [Dict[str, Any]] and parsed JSON are [pyval].
    - Code that raises is a computation in the state-and-exception monad [M]
      over [World], the state of the two databases and of the process
      (clock, uuid supply, log).  [try ... except Exception] is [try_except].
    - Every round trip to MongoDB or ChromaDB may raise: it consumes one entry
      of [pending_faults], the environment's plan for the coming calls.
    - The similarity ranking of ChromaDB, the JSON decoder of the standard
      library, the language model and the embedding model are not part of
      the repository; they are taken through the interfaces [VectorIndex]
      and [JSONDecoder] and as fields of [ShivaAgent]. *)

From Stdlib Require Import ZArith QArith String Ascii List DecimalString DecimalNat
  DecimalFacts Sorted.
From stdpp Require Import base option list strings gmap.

Set Warnings "-register-all".
Close Scope Q_scope.
Local Open Scope string_scope.
Local Open Scope Z_scope.

(** ** Python values and exceptions *)

(** A value of type [Any]: what [json.loads] returns and what an open
    profile mapping holds.  A dict keeps its items in insertion order; the
    first binding of a key is the live one. *)
Inductive pyval : Type :=
| PNone
| PBool (b : bool)
| PInt (z : Z)
| PFloat (q : Q)
| PStr (s : string)
| PList (l : list pyval)
| PDict (d : list (string * pyval)).

(** The subclasses of [Exception] that the modelled code can meet. *)
Inductive exn : Type :=
| JSONDecodeError
| ValueError
| TypeError
| ValidationError
| ServiceError (msg : string).

Inductive result (A : Type) : Type :=
| Ok (a : A)
| Raise (e : exn).
Arguments Ok {A} a.
Arguments Raise {A} e.

(** [d.get(k)] *)
Fixpoint dict_get (k : string) (d : list (string * pyval)) : option pyval :=
  match d with
  | [] => None
  | (k', v) :: d' => if String.eqb k' k then Some v else dict_get k d'
  end.

(** [k in d] *)
Definition dict_has (k : string) (d : list (string * pyval)) : bool :=
  match dict_get k d with Some _ => true | None => false end.

(** [s[:n]] *)
Fixpoint str_prefix (n : nat) (s : string) : string :=
  match n, s with
  | S n', String c s' => String c (str_prefix n' s')
  | _, _ => EmptyString
  end.

(** [s[n:]] *)
Fixpoint str_drop (n : nat) (s : string) : string :=
  match n, s with
  | S n', String _ s' => str_drop n' s'
  | _, _ => s
  end.

(** [s.find(c)]: the lowest index of [c], or -1. *)
Fixpoint str_find (c : ascii) (s : string) : Z :=
  match s with
  | EmptyString => -1
  | String c' s' =>
      if Ascii.eqb c' c then 0
      else let i := str_find c s' in if i <? 0 then -1 else i + 1
  end.

(** [s.rfind(c)]: the highest index of [c], or -1. *)
Fixpoint str_rfind (c : ascii) (s : string) : Z :=
  match s with
  | EmptyString => -1
  | String c' s' =>
      let i := str_rfind c s' in
      if 0 <=? i then i + 1
      else if Ascii.eqb c' c then 0 else -1
  end.

(** [s[i:j]] for [0 <= i] and [0 <= j]. *)
Definition str_slice (i j : Z) (s : string) : string :=
  str_prefix (Z.to_nat (j - i)) (str_drop (Z.to_nat i) s).

(** [sep.join(l)] *)
Fixpoint str_join (sep : string) (l : list string) : string :=
  match l with
  | [] => EmptyString
  | [x] => x
  | x :: l' => x ++ sep ++ str_join sep l'
  end.

(** [str(b)] *)
Definition str_of_bool (b : bool) : string := if b then "True" else "False".

(** ** src/memory/nodes.py *)

Inductive MemoryType : Type :=
| PERSONAL_IDENTITY
| PREFERENCE
| FACTUAL
| EMOTIONAL_STATE.

(** [mt.value] *)
Definition MemoryType_value (mt : MemoryType) : string :=
  match mt with
  | PERSONAL_IDENTITY => "personal_identity"
  | PREFERENCE => "preference"
  | FACTUAL => "factual"
  | EMOTIONAL_STATE => "emotional_state"
  end.

(** [MemoryType(v)]: lookup by value; anything that is not the value of a
    member raises [ValueError]. *)
Definition MemoryType_of (v : pyval) : result MemoryType :=
  match v with
  | PStr s =>
      if String.eqb s "personal_identity" then Ok PERSONAL_IDENTITY
      else if String.eqb s "preference" then Ok PREFERENCE
      else if String.eqb s "factual" then Ok FACTUAL
      else if String.eqb s "emotional_state" then Ok EMOTIONAL_STATE
      else Raise ValueError
  | _ => Raise ValueError
  end.

Record MemoryNode : Type := {
  memory_id : string;
  user_id : string;
  content : string;
  memory_type : MemoryType;
  timestamp : Z;
  tags : list string;
  recency_value : Q;
  source : string;
  embedding : option (list Q);
  conversation_context : option string;
  system_prompt_snippet : option string;
  is_hive_mind : bool
}.

Record UserIdentity : Type := {
  identity_user_id : string;
  name : option string;
  age : option Z;
  gender : option string;
  origin : option string;
  current_context : option string;
  primary_role : option string;
  personal_identity : list (string * pyval);
  professional_identity : list (string * pyval);
  created_at : Z;
  updated_at : Z
}.

(** The effect of [d["updated_at"] = t] on the dumped identity. *)
Definition set_updated_at (t : Z) (i : UserIdentity) : UserIdentity :=
  {| identity_user_id := identity_user_id i;
     name := name i; age := age i; gender := gender i; origin := origin i;
     current_context := current_context i; primary_role := primary_role i;
     personal_identity := personal_identity i;
     professional_identity := professional_identity i;
     created_at := created_at i;
     updated_at := t |}.

(** ** The two databases and the process state *)

(** The metadata projection stored next to a vector: every value is a
    string. *)
Record ChromaMetadata : Type := {
  md_user_id : string;
  md_memory_type : string;
  md_timestamp : string;
  md_is_hive_mind : string;
  md_tags : string
}.

Record ChromaEntry : Type := {
  ce_embedding : list Q;
  ce_metadata : ChromaMetadata;
  ce_document : string
}.

(** [metadata[key]] *)
Definition metadata_get (key : string) (md : ChromaMetadata) : option string :=
  if String.eqb key "user_id" then Some (md_user_id md)
  else if String.eqb key "memory_type" then Some (md_memory_type md)
  else if String.eqb key "timestamp" then Some (md_timestamp md)
  else if String.eqb key "is_hive_mind" then Some (md_is_hive_mind md)
  else if String.eqb key "tags" then Some (md_tags md)
  else None.

(** A ChromaDB [where] filter: [{key: value}], [{"$and": [...]}] or
    [{"$or": [...]}]. *)
Inductive Where : Type :=
| WEq (key value : string)
| WAnd (cs : list Where)
| WOr (cs : list Where).

Fixpoint where_matches (md : ChromaMetadata) (c : Where) : bool :=
  match c with
  | WEq key value =>
      match metadata_get key md with
      | Some v => String.eqb v value
      | None => false
      end
  | WAnd cs => forallb (where_matches md) cs
  | WOr cs => existsb (where_matches md) cs
  end.

Inductive LogLevel : Type := DEBUG | INFO | WARNING | ERROR.

Record World : Type := {
  (** MongoDB, memory collection: the documents in natural order, keyed by
      [_id], which [save_memory] sets to the memory id. *)
  memory_collection : list MemoryNode;
  (** MongoDB, identity collection, keyed by [_id] = user id. *)
  identity_collection : gmap string UserIdentity;
  (** ChromaDB collection, keyed by id. *)
  chroma_collection : gmap string ChromaEntry;
  (** The fate of the coming database round trips: [Some e] makes the call
      raise [e]; once the plan is used up every call succeeds. *)
  pending_faults : list (option exn);
  (** What [datetime.utcnow()] returns. *)
  clock : Z;
  (** The number of ids [uuid.uuid4()] has handed out. *)
  uuid_count : nat;
  (** The events emitted through the logger, oldest first. *)
  log : list (LogLevel * string)
}.

Definition M (A : Type) : Type := World -> result A * World.

Definition ret {A} (a : A) : M A := fun w => (Ok a, w).

Definition raise {A} (e : exn) : M A := fun w => (Raise e, w).

Definition bind {A B} (m : M A) (k : A -> M B) : M B :=
  fun w =>
    match m w with
    | (Ok a, w') => k a w'
    | (Raise e, w') => (Raise e, w')
    end.

(** [try: body / except Exception as e: handler(e)] *)
Definition try_except {A} (body : M A) (handler : exn -> M A) : M A :=
  fun w =>
    match body w with
    | (Ok a, w') => (Ok a, w')
    | (Raise e, w') => handler e w'
    end.

(** A computation that cannot touch the state. *)
Definition lift {A} (r : result A) : M A := fun w => (r, w).

Declare Scope py_scope.
Delimit Scope py_scope with py.
Notation "x <- m ;; k" := (bind m (fun x => k))
  (at level 100, m at next level, right associativity) : py_scope.
Notation "m ;;; k" := (bind m (fun _ => k))
  (at level 100, right associativity) : py_scope.
Local Open Scope py_scope.

Definition with_memory_collection (l : list MemoryNode) (w : World) : World :=
  {| memory_collection := l;
     identity_collection := identity_collection w;
     chroma_collection := chroma_collection w;
     pending_faults := pending_faults w;
     clock := clock w; uuid_count := uuid_count w; log := log w |}.

Definition with_identity_collection (m : gmap string UserIdentity) (w : World) : World :=
  {| memory_collection := memory_collection w;
     identity_collection := m;
     chroma_collection := chroma_collection w;
     pending_faults := pending_faults w;
     clock := clock w; uuid_count := uuid_count w; log := log w |}.

Definition with_chroma_collection (m : gmap string ChromaEntry) (w : World) : World :=
  {| memory_collection := memory_collection w;
     identity_collection := identity_collection w;
     chroma_collection := m;
     pending_faults := pending_faults w;
     clock := clock w; uuid_count := uuid_count w; log := log w |}.

Definition with_pending_faults (fs : list (option exn)) (w : World) : World :=
  {| memory_collection := memory_collection w;
     identity_collection := identity_collection w;
     chroma_collection := chroma_collection w;
     pending_faults := fs;
     clock := clock w; uuid_count := uuid_count w; log := log w |}.

Definition with_clock (t : Z) (w : World) : World :=
  {| memory_collection := memory_collection w;
     identity_collection := identity_collection w;
     chroma_collection := chroma_collection w;
     pending_faults := pending_faults w;
     clock := t; uuid_count := uuid_count w; log := log w |}.

Definition with_uuid_count (n : nat) (w : World) : World :=
  {| memory_collection := memory_collection w;
     identity_collection := identity_collection w;
     chroma_collection := chroma_collection w;
     pending_faults := pending_faults w;
     clock := clock w; uuid_count := n; log := log w |}.

Definition with_log (l : list (LogLevel * string)) (w : World) : World :=
  {| memory_collection := memory_collection w;
     identity_collection := identity_collection w;
     chroma_collection := chroma_collection w;
     pending_faults := pending_faults w;
     clock := clock w; uuid_count := uuid_count w; log := l |}.

(** [logger.<level>(event, ...)] *)
Definition logger (lvl : LogLevel) (event : string) : M unit :=
  fun w => (Ok tt, with_log (log w ++ [(lvl, event)]) w).

(** [datetime.utcnow()] *)
Definition utcnow : M Z := fun w => (Ok (clock w), w).

(** The text of the [n]-th id. *)
Definition uuid_text (n : nat) : string :=
  "uuid-" ++ NilZero.string_of_uint (Nat.to_uint n).

(** [str(uuid.uuid4())]: an id never handed out before. *)
Definition uuid4 : M string :=
  fun w => (Ok (uuid_text (uuid_count w)), with_uuid_count (S (uuid_count w)) w).

(** [dt.isoformat()]: the text of a timestamp, here its tick count in
    decimal digits; nothing in the code reads it back. *)
Definition isoformat (t : Z) : string := NilZero.string_of_int (Z.to_int t).

(** One round trip to a database: raises when the plan says so. *)
Definition round_trip : M unit :=
  fun w =>
    match pending_faults w with
    | [] => (Ok tt, w)
    | None :: fs => (Ok tt, with_pending_faults fs w)
    | Some e :: fs => (Raise e, with_pending_faults fs w)
    end.

(** The document list after [replace_one({"_id": d.memory_id}, d,
    upsert=True)]: the first document with that id is replaced where it
    stands, and [d] is appended when there is none. *)
Fixpoint replace_one_upsert (d : MemoryNode) (docs : list MemoryNode) : list MemoryNode :=
  match docs with
  | [] => [d]
  | x :: docs' =>
      if String.eqb (memory_id x) (memory_id d) then d :: docs'
      else x :: replace_one_upsert d docs'
  end.

Definition mongo_replace_memory (d : MemoryNode) : M unit :=
  round_trip ;;;
  fun w => (Ok tt, with_memory_collection (replace_one_upsert d (memory_collection w)) w).

Definition mongo_replace_identity (i : UserIdentity) : M unit :=
  round_trip ;;;
  fun w => (Ok tt, with_identity_collection
                     (<[identity_user_id i := i]> (identity_collection w)) w).

Definition mongo_find_one_identity (uid : string) : M (option UserIdentity) :=
  round_trip ;;;
  fun w => (Ok (identity_collection w !! uid), w).

(** [memory_collection.find(filter)], read to the end. *)
Definition mongo_find (filter_ : MemoryNode -> bool) : M (list MemoryNode) :=
  round_trip ;;;
  fun w => (Ok (List.filter filter_ (memory_collection w)), w).

Definition chroma_upsert (id : string) (e : ChromaEntry) : M unit :=
  round_trip ;;;
  fun w => (Ok tt, with_chroma_collection (<[id := e]> (chroma_collection w)) w).

(** The nearest-neighbour search of the vector index, as far as the
    repository relies on it: out of the candidates that passed the metadata
    filter it returns at most [n] ids. *)
Class VectorIndex : Type := {
  nearest : list Q -> nat -> list (string * ChromaEntry) -> list string;
  nearest_candidates : forall q n es i,
    In i (nearest q n es) -> In i (map fst es);
  nearest_bound : forall q n es, (length (nearest q n es) <= n)%nat
}.

(** The candidates of a query: the entries whose metadata pass the filter. *)
Definition chroma_candidates (c : Where) (m : gmap string ChromaEntry)
  : list (string * ChromaEntry) :=
  List.filter (fun ie => where_matches (ce_metadata (snd ie)) c) (map_to_list m).

(** [chroma_collection.query(query_embeddings=[q], n_results=n, where=c)["ids"][0]] *)
Definition chroma_query `{VectorIndex} (q : list Q) (n : nat) (c : Where) : M (list string) :=
  round_trip ;;;
  fun w => (Ok (nearest q n (chroma_candidates c (chroma_collection w))), w).

(** ** src/memory/storage.py *)

(** Truth value of an optional string: [None] and the empty string are false. *)
Definition truthy_str (s : option string) : bool :=
  match s with
  | Some (String _ _) => true
  | _ => false
  end.

(** Truth value of an optional list: [None] and the empty list are false. *)
Definition truthy_list {A} (l : option (list A)) : bool :=
  match l with
  | Some (_ :: _) => true
  | _ => false
  end.

(** The metadata [save_memory] stores next to the vector. *)
Definition metadata_of (memory : MemoryNode) : ChromaMetadata :=
  {| md_user_id := user_id memory;
     md_memory_type := MemoryType_value (memory_type memory);
     md_timestamp := isoformat (timestamp memory);
     md_is_hive_mind := str_of_bool (is_hive_mind memory);
     md_tags := str_join "," (tags memory) |}.

(** The index entry of a record whose embedding is [v]. *)
Definition index_entry_of (memory : MemoryNode) (v : list Q) : ChromaEntry :=
  {| ce_embedding := v;
     ce_metadata := metadata_of memory;
     ce_document := content memory |}.

Definition save_memory_body (memory : MemoryNode) : M string :=
  mongo_replace_memory memory ;;;
  (match embedding memory with
   | Some (x :: v) =>
       chroma_upsert (memory_id memory) (index_entry_of memory (x :: v))
   | _ => ret tt
   end) ;;;
  logger INFO "Memory saved" ;;;
  ret (memory_id memory).

(** [MemoryStorage.save_memory]: the handler logs and re-raises. *)
Definition save_memory (memory : MemoryNode) : M string :=
  try_except (save_memory_body memory)
    (fun e => logger ERROR "Failed to save memory" ;;; raise e).

(** [MemoryStorage.get_user_identity] *)
Definition get_user_identity (uid : string) : M (option UserIdentity) :=
  try_except (mongo_find_one_identity uid)
    (fun e => logger ERROR "Failed to get user identity" ;;; ret None).

(** [MemoryStorage.update_user_identity] *)
Definition update_user_identity (identity : UserIdentity) : M bool :=
  try_except
    (now <- utcnow ;;
     mongo_replace_identity (set_updated_at now identity) ;;;
     logger INFO "User identity updated" ;;;
     ret true)
    (fun e => logger ERROR "Failed to update user identity" ;;; ret false).

(** The first step of the filter: the scope. *)
Definition scope_where (uid : option string) (hive : bool) : Where :=
  if truthy_str uid && negb hive then
    WAnd [WEq "is_hive_mind" (str_of_bool hive);
          WEq "user_id" (default EmptyString uid)]
  else WEq "is_hive_mind" (str_of_bool hive).

(** Adding one condition: appended to an [$and] list when the clause is
    one, otherwise the clause and the condition are wrapped in a new one. *)
Definition where_and (c extra : Where) : Where :=
  match c with
  | WAnd cs => WAnd (cs ++ [extra])
  | _ => WAnd [c; extra]
  end.

(** The second step: the memory types, when some are given. *)
Definition types_where (c : Where) (memory_types : option (list MemoryType)) : Where :=
  match memory_types with
  | Some (mt :: mts) =>
      match MemoryType_value <$> (mt :: mts) with
      | [v] => where_and c (WEq "memory_type" v)
      | vs => where_and c (WOr (WEq "memory_type" <$> vs))
      end
  | _ => c
  end.

Definition build_where (uid : option string) (hive : bool)
    (memory_types : option (list MemoryType)) : Where :=
  types_where (scope_where uid hive) memory_types.

(** Insertion of [x] into a list sorted by descending key, before the
    elements of equal key. *)
Fixpoint insert_desc {A K} (leb : K -> K -> bool) (key : A -> K) (x : A) (l : list A) : list A :=
  match l with
  | [] => [x]
  | y :: l' =>
      if leb (key y) (key x) then x :: y :: l'
      else y :: insert_desc leb key x l'
  end.

(** [l.sort(key=key, reverse=True)]: descending, and stable. *)
Definition sort_desc {A K} (leb : K -> K -> bool) (key : A -> K) (l : list A) : list A :=
  foldr (insert_desc leb key) [] l.

(** [{"_id": {"$in": ids}}] *)
Definition id_in (ids : list string) (d : MemoryNode) : bool :=
  existsb (String.eqb (memory_id d)) ids.

Definition search_memories_body `{VectorIndex} (query_embedding : list Q)
    (uid : option string) (hive : bool) (limit : nat)
    (memory_types : option (list MemoryType)) : M (list MemoryNode) :=
  let where_clause := build_where uid hive memory_types in
  memory_ids <- chroma_query query_embedding limit where_clause ;;
  match memory_ids with
  | [] => ret []
  | _ =>
      memory_docs <- mongo_find (id_in memory_ids) ;;
      let memories := sort_desc Qle_bool recency_value memory_docs in
      logger INFO "Memories retrieved" ;;;
      ret memories
  end.

(** [MemoryStorage.search_memories]; [limit] is a count. *)
Definition search_memories `{VectorIndex} (query_embedding : list Q)
    (uid : option string) (hive : bool) (limit : nat)
    (memory_types : option (list MemoryType)) : M (list MemoryNode) :=
  try_except (search_memories_body query_embedding uid hive limit memory_types)
    (fun e => logger ERROR "Failed to search memories" ;;; ret []).

(** The MongoDB query of [get_recent_memories]. *)
Definition recent_query (uid : option string) (hive : bool) (d : MemoryNode) : bool :=
  Bool.eqb (is_hive_mind d) hive &&
  (if truthy_str uid && negb hive
   then String.eqb (user_id d) (default EmptyString uid)
   else true).

(** [cursor.limit(n)]: 0 is no limit. *)
Definition mongo_limit {A} (n : nat) (l : list A) : list A :=
  match n with
  | O => l
  | _ => firstn n l
  end.

(** [MemoryStorage.get_recent_memories] *)
Definition get_recent_memories (uid : option string) (hive : bool) (limit : nat)
  : M (list MemoryNode) :=
  try_except
    (memory_docs <- mongo_find (recent_query uid hive) ;;
     ret (mongo_limit limit (sort_desc Z.leb timestamp memory_docs)))
    (fun e => logger ERROR "Failed to get recent memories" ;;; ret []).

(** The scope a call asks for, read off the test [user_id and not
    is_hive_mind] that both queries branch on: the shared pool when the flag
    is set, the personal space of an owner when the flag is off and an owner
    id is given, and neither when the flag is off and no owner id is given. *)
Inductive Scope : Type :=
| Personal (owner_id : string)
| Shared.

Definition scope_of_call (uid : option string) (hive : bool) : option Scope :=
  if hive then Some Shared
  else if truthy_str uid then Some (Personal (default EmptyString uid))
  else None.

(** The memory types a filter lets through. *)
Definition types_match (memory_types : option (list MemoryType)) (md : ChromaMetadata) : bool :=
  match memory_types with
  | Some (mt :: mts) =>
      existsb (fun t => String.eqb (md_memory_type md) (MemoryType_value t)) (mt :: mts)
  | _ => true
  end.

(** The next database round trip goes through. *)
Definition next_call_succeeds (w : World) : Prop :=
  match pending_faults w with
  | Some _ :: _ => False
  | _ => True
  end.

(** The states of the two collections that saving records under ids not
    used before leads to, whatever the fate of each write, and whatever
    happens to the rest of the world meanwhile. *)
Inductive built_by_saves : World -> Prop :=
| built_empty w :
    memory_collection w = [] -> chroma_collection w = ∅ -> built_by_saves w
| built_save w memory :
    built_by_saves w ->
    ~ In (memory_id memory) (map memory_id (memory_collection w)) ->
    built_by_saves (snd (save_memory memory w))
| built_elsewhere w w' :
    built_by_saves w ->
    memory_collection w' = memory_collection w ->
    chroma_collection w' = chroma_collection w ->
    built_by_saves w'.

(** The documents under the ids [ids], by descending recency: what
    [search_memories] makes of the ids the index returned. *)
Definition hydrate (ids : list string) (docs : list MemoryNode) : list MemoryNode :=
  sort_desc Qle_bool recency_value (List.filter (id_in ids) docs).

(** The fault plan makes one of the two round trips of a search raise. *)
Definition search_faulted (w : World) : bool :=
  match pending_faults w with
  | Some _ :: _ => true
  | None :: Some _ :: _ => true
  | _ => false
  end.

(** Every index entry describes the document stored under its id. *)
Definition index_consistent (w : World) : Prop :=
  forall i e,
    chroma_collection w !! i = Some e ->
    In i (map memory_id (memory_collection w)) /\
    forall d, In d (memory_collection w) -> memory_id d = i ->
              ce_metadata e = metadata_of d.

(** ** src/agents/shiva.py *)

(** [json.loads], from the standard library: the decoded value, or
    [JSONDecodeError] (or another exception). *)
Class JSONDecoder : Type := {
  json_loads : string -> result pyval
}.

(** The methods of the storage object the agent is constructed with. *)
Record MemoryStorage : Type := {
  st_save_memory : MemoryNode -> M string;
  st_update_user_identity : UserIdentity -> M bool
}.

(** The storage of src/memory/storage.py. *)
Definition mongo_chroma_storage : MemoryStorage :=
  {| st_save_memory := save_memory;
     st_update_user_identity := update_user_identity |}.

Record ShivaAgent : Type := {
  memory_storage : MemoryStorage;
  (** The language model behind [extraction_llm.invoke], prompt to response
      text; [None] when extraction is disabled. *)
  extraction_llm : option (string -> result string);
  (** [embeddings.embed_query]; [None] when embedding is disabled. *)
  embeddings : option (pyval -> result (list Q));
  memory_types : list string
}.

(** The conversation dict Brahma hands over, as far as Shiva reads it; an
    absent key reads as the empty string. *)
Record Conversation : Type := {
  system_prompt : string;
  user_message : string;
  assistant_response : string
}.

(** A memory signal: a dict with the keys [content], [memory_type] and
    [tags], the last one holding a list. *)
Record Signal : Type := {
  sig_content : pyval;
  sig_memory_type : pyval;
  sig_tags : list pyval
}.

Definition nl : string := String (ascii_of_nat 10) EmptyString.
Definition dq : string := String (ascii_of_nat 34) EmptyString.

(** The text of the exchange, as the fallback signal and the audit snippet
    carry it. *)
Definition exchange_text (conversation : Conversation) : string :=
  "User: " ++ user_message conversation ++ nl ++
  "Assistant: " ++ assistant_response conversation.

(** The signal returned when extraction is disabled. *)
Definition raw_trace_signal (conversation : Conversation) : Signal :=
  {| sig_content := PStr (exchange_text conversation);
     sig_memory_type := PStr (MemoryType_value FACTUAL);
     sig_tags := [] |}.

(** The signal returned when extraction raised. *)
Definition failure_signal (conversation : Conversation) : Signal :=
  {| sig_content :=
       PStr ("Conversation about: " ++ str_prefix 100 (user_message conversation));
     sig_memory_type := PStr (MemoryType_value FACTUAL);
     sig_tags := [] |}.

Definition extraction_prompt (types : list string) (conversation : Conversation) : string :=
  "Analyze the following conversation and extract important memory signals that should be remembered for future interactions." ++ nl ++
  nl ++
  "User Message: " ++ user_message conversation ++ nl ++
  nl ++
  "Assistant Response: " ++ assistant_response conversation ++ nl ++
  nl ++
  "Extract 1-3 key memory signals. For each signal, provide:" ++ nl ++
  "1. A concise summary (1-2 sentences)" ++ nl ++
  "2. Memory type: one of " ++ str_join ", " types ++ nl ++
  "3. Relevant tags (comma-separated)" ++ nl ++
  nl ++
  "Format as JSON array:" ++ nl ++
  "[" ++ nl ++
  "  {" ++ nl ++
  "    " ++ dq ++ "content" ++ dq ++ ": " ++ dq ++ "memory summary" ++ dq ++ "," ++ nl ++
  "    " ++ dq ++ "memory_type" ++ dq ++ ": " ++ dq ++ "memory_type" ++ dq ++ "," ++ nl ++
  "    " ++ dq ++ "tags" ++ dq ++ ": [" ++ dq ++ "tag1" ++ dq ++ ", " ++ dq ++ "tag2" ++ dq ++ "]" ++ nl ++
  "  }" ++ nl ++
  "]" ++ nl ++
  nl ++
  "Only extract memories that are:" ++ nl ++
  "- About the user's identity, preferences, or important facts" ++ nl ++
  "- Emotionally significant" ++ nl ++
  "- Relevant for future conversations" ++ nl ++
  "- Not already obvious from the conversation" ++ nl ++
  nl ++
  "JSON:".

(** [try: body / except C: handler], for the exception class picked by [cls];
    any other exception passes through. *)
Definition try_except_on {A} (cls : exn -> bool) (body : M A) (handler : exn -> M A) : M A :=
  fun w =>
    match body w with
    | (Ok a, w') => (Ok a, w')
    | (Raise e, w') => if cls e then handler e w' else (Raise e, w')
    end.

Definition is_JSONDecodeError (e : exn) : bool :=
  match e with JSONDecodeError => true | _ => false end.

Definition is_ValueError (e : exn) : bool :=
  match e with ValueError => true | _ => false end.

(** The candidate JSON text of a response: from the first opening bracket
    to the last closing one, when the latter comes after the former. *)
Definition located_array (response_text : string) : option string :=
  let start_idx := str_find "[" response_text in
  let end_idx := str_rfind "]" response_text + 1 in
  if (0 <=? start_idx) && (start_idx <? end_idx) then
    Some (str_slice start_idx end_idx response_text)
  else None.

(** The inner [try] of [_extract_memory_signals]: the decoded array, and the
    empty list when none is located or the text does not decode. *)
Definition parse_signals `{JSONDecoder} (response_text : string) : M pyval :=
  try_except_on is_JSONDecodeError
    (match located_array response_text with
     | Some json_str => lift (json_loads json_str)
     | None => ret (PList [])
     end)
    (fun e => logger WARNING "Failed to parse memory signals JSON" ;;; ret (PList [])).

(** The characters of a string, each as a string of length one. *)
Fixpoint str_chars (s : string) : list pyval :=
  match s with
  | EmptyString => []
  | String c s' => PStr (String c EmptyString) :: str_chars s'
  end.

(** What [for x in v] runs through. *)
Definition py_iter (v : pyval) : result (list pyval) :=
  match v with
  | PList l => Ok l
  | PDict d => Ok (PStr <$> map fst d)
  | PStr s => Ok (str_chars s)
  | _ => Raise TypeError
  end.

(** One round of the validation loop: [None] when the signal is dropped. *)
Definition validate_signal (signal : pyval) : option Signal :=
  match signal with
  | PDict d =>
      if dict_has "content" d then
        Some {| sig_content := default (PStr EmptyString) (dict_get "content" d);
                sig_memory_type :=
                  default (PStr (MemoryType_value FACTUAL)) (dict_get "memory_type" d);
                sig_tags :=
                  match dict_get "tags" d with
                  | Some (PList l) => l
                  | _ => []
                  end |}
      else None
  | _ => None
  end.

Fixpoint validate_signals (signals : list pyval) : list Signal :=
  match signals with
  | [] => []
  | signal :: rest =>
      match validate_signal signal with
      | Some v => v :: validate_signals rest
      | None => validate_signals rest
      end
  end.

(** [ShivaAgent._extract_memory_signals] *)
Definition _extract_memory_signals `{JSONDecoder} (self : ShivaAgent)
    (conversation : Conversation) (user_identity : option UserIdentity)
  : M (list Signal) :=
  match extraction_llm self with
  | None => ret [raw_trace_signal conversation]
  | Some invoke =>
      try_except
        (response_text <- lift (invoke (extraction_prompt (memory_types self) conversation)) ;;
         signals <- parse_signals response_text ;;
         items <- lift (py_iter signals) ;;
         let validated_signals := validate_signals items in
         logger DEBUG "Memory signals extracted" ;;;
         ret validated_signals)
        (fun e =>
           logger ERROR "Failed to extract memory signals" ;;;
           ret [failure_signal conversation])
  end.

(** Validation of a [str] field. *)
Definition validate_str (v : pyval) : result string :=
  match v with
  | PStr s => Ok s
  | _ => Raise ValidationError
  end.

(** Validation of a [List[str]] field. *)
Fixpoint validate_str_list (l : list pyval) : result (list string) :=
  match l with
  | [] => Ok []
  | v :: l' =>
      match validate_str v, validate_str_list l' with
      | Ok s, Ok r => Ok (s :: r)
      | _, _ => Raise ValidationError
      end
  end.

(** [ShivaAgent._create_memory_node] *)
Definition _create_memory_node (self : ShivaAgent) (uid : string)
    (signal : Signal) (conversation : Conversation) : M (option MemoryNode) :=
  try_except
    (emb <- match embeddings self with
            | Some embed_query =>
                try_except
                  (v <- lift (embed_query (sig_content signal)) ;; ret (Some v))
                  (fun e => logger WARNING "Failed to generate embedding" ;;; ret None)
            | None => ret None
            end ;;
     mt <- try_except_on is_ValueError
             (lift (MemoryType_of (sig_memory_type signal)))
             (fun e => ret FACTUAL) ;;
     id <- uuid4 ;;
     now <- utcnow ;;
     text <- lift (validate_str (sig_content signal)) ;;
     tag_list <- lift (validate_str_list (sig_tags signal)) ;;
     ret (Some {| memory_id := id;
                  user_id := uid;
                  content := text;
                  memory_type := mt;
                  timestamp := now;
                  tags := tag_list;
                  recency_value := 1%Q;
                  source := "conversation";
                  embedding := emb;
                  conversation_context := Some (exchange_text conversation);
                  system_prompt_snippet :=
                    Some (str_prefix 500 (system_prompt conversation));
                  is_hive_mind := false |}))
    (fun e => logger ERROR "Failed to create memory node" ;;; ret None).

(** The loop of [process] over the signals, from the ids collected so far. *)
Fixpoint save_signals (self : ShivaAgent) (uid : string) (conversation : Conversation)
    (signals : list Signal) (memory_ids : list string) : M (list string) :=
  match signals with
  | [] => ret memory_ids
  | signal :: rest =>
      memory_node <- _create_memory_node self uid signal conversation ;;
      match memory_node with
      | Some node =>
          id <- st_save_memory (memory_storage self) node ;;
          save_signals self uid conversation rest (memory_ids ++ [id])
      | None => save_signals self uid conversation rest memory_ids
      end
  end.

Definition process_body `{JSONDecoder} (self : ShivaAgent) (uid : string)
    (full_conversation : Conversation) (user_identity : option UserIdentity)
  : M (list string) :=
  memory_signals <- _extract_memory_signals self full_conversation user_identity ;;
  memory_ids <- save_signals self uid full_conversation memory_signals [] ;;
  (match user_identity with
   | Some identity =>
       st_update_user_identity (memory_storage self) identity ;;; ret tt
   | None => ret tt
   end) ;;;
  logger INFO "Shiva processing completed" ;;;
  ret memory_ids.

(** [ShivaAgent.process] *)
Definition process `{JSONDecoder} (self : ShivaAgent) (uid : string)
    (full_conversation : Conversation) (user_identity : option UserIdentity)
  : M (list string) :=
  logger INFO "Shiva processing started" ;;;
  try_except (process_body self uid full_conversation user_identity)
    (fun e => logger ERROR "Failed to process memory update" ;;; ret []).

(** [ShivaAgent.create_hive_mind_memory] *)
Definition create_hive_mind_memory (self : ShivaAgent) (uid : string)
    (text : string) (mt : MemoryType) (tag_list : option (list string))
  : M (option string) :=
  try_except
    (emb <- match embeddings self with
            | Some embed_query => v <- lift (embed_query (PStr text)) ;; ret (Some v)
            | None => ret None
            end ;;
     id <- uuid4 ;;
     now <- utcnow ;;
     let memory_node :=
       {| memory_id := id;
          user_id := uid;
          content := text;
          memory_type := mt;
          timestamp := now;
          tags := default [] tag_list;
          recency_value := 1%Q;
          source := "hive_mind";
          embedding := emb;
          conversation_context := None;
          system_prompt_snippet := None;
          is_hive_mind := true |} in
     saved_id <- st_save_memory (memory_storage self) memory_node ;;
     logger INFO "Hive mind memory created" ;;;
     ret (Some saved_id))
    (fun e => logger ERROR "Failed to create hive mind memory" ;;; ret None).

(** ** The states the program reaches *)

(** Starting with both collections empty, the agent, working on the storage
    of storage.py, processes exchanges and creates shared memories, identities
    are written, and between the calls the environment moves the clock and
    plans the faults to come. *)
Inductive reachable `{JSONDecoder} : World -> Prop :=
| reach_start w :
    memory_collection w = [] -> chroma_collection w = ∅ -> reachable w
| reach_process self uid conversation identity w :
    memory_storage self = mongo_chroma_storage ->
    reachable w ->
    reachable (snd (process self uid conversation identity w))
| reach_create_hive_mind_memory self uid text mt tag_list w :
    memory_storage self = mongo_chroma_storage ->
    reachable w ->
    reachable (snd (create_hive_mind_memory self uid text mt tag_list w))
| reach_update_user_identity identity w :
    reachable w ->
    reachable (snd (update_user_identity identity w))
| reach_environment t fs w :
    reachable w ->
    reachable (with_pending_faults fs (with_clock t w)).

(** [w'] has the documents and the index entries of [w], and has handed out
    at least as many ids. *)
Definition same_stores (w w' : World) : Prop :=
  memory_collection w' = memory_collection w /\
  chroma_collection w' = chroma_collection w /\
  (uuid_count w <= uuid_count w')%nat.

(** A computation that writes to neither collection, whatever its outcome. *)
Definition keeps_stores {A} (m : M A) : Prop :=
  forall w, same_stores w (snd (m w)).

(** Every stored document has an id that [uuid4] handed out. *)
Definition ids_issued (w : World) : Prop :=
  forall d, In d (memory_collection w) ->
    exists k, (k < uuid_count w)%nat /\ memory_id d = uuid_text k.

(** The stores are built by saves under fresh ids, and all ids were issued. *)
Definition well_built (w : World) : Prop :=
  built_by_saves w /\ ids_issued w.

(** A computation that keeps the stores well built, whatever its outcome. *)
Definition keeps_well_built {A} (m : M A) : Prop :=
  forall w, well_built w -> well_built (snd (m w)).

(** ** Instances of the outside interfaces, for running the code *)

(** An exact cosine index: the candidates by descending cosine similarity
    to the query, cut at [n].  Similarities are compared without square
    roots; a vector of norm zero counts as orthogonal to the query. *)

Fixpoint dot (a b : list Q) : Q :=
  match a, b with
  | x :: a', y :: b' => (x * y + dot a' b')%Q
  | _, _ => 0%Q
  end.

(** The sign and the square of the cosine of the angle between [q] and [a],
    up to the norm of [q]: the pair [(dot q a, dot a a)]. *)
Definition cosine_parts (q a : list Q) : Q * Q :=
  if Qeq_bool (dot a a) 0 then (0%Q, 1%Q) else (dot q a, dot a a).

(** [cos (q, a) <= cos (q, b)] *)
Definition cosine_leb (q a b : list Q) : bool :=
  let '(x, na) := cosine_parts q a in
  let '(y, nb) := cosine_parts q b in
  let lhs := (x * x * nb)%Q in
  let rhs := (y * y * na)%Q in
  match Qle_bool 0 x, Qle_bool 0 y with
  | true, true => Qle_bool lhs rhs
  | false, false => Qle_bool rhs lhs
  | false, true => true
  | true, false => false
  end.

Definition cosine_nearest (q : list Q) (n : nat) (es : list (string * ChromaEntry))
  : list string :=
  map fst (firstn n (sort_desc (cosine_leb q) (fun ie => ce_embedding (snd ie)) es)).

#[export] Instance cosine_index : VectorIndex.
Proof.
  refine {| nearest := cosine_nearest |}.
  - intros q n es i Hi. unfold cosine_nearest in Hi.
    apply in_map_iff in Hi as [ie [<- Hin]]. apply in_map.
    assert (Hs : In ie (sort_desc (cosine_leb q) (fun ie => ce_embedding (snd ie)) es)).
    { rewrite <- (firstn_skipn n). apply in_or_app. now left. }
    clear Hin. revert ie Hs. intros ie Hin. revert ie Hin.
    induction es as [|e es IH]; simpl; intros ie Hin; [assumption|].
    set (s := sort_desc _ _ es) in *. clearbody s.
    induction s as [|y s IHs]; simpl in Hin.
    + destruct Hin as [->|[]]. now left.
    + destruct (cosine_leb _ _ _); simpl in Hin.
      * destruct Hin as [->|Hin]; [now left|]. right. apply IH. exact Hin.
      * destruct Hin as [->|Hin].
        -- right. apply IH. now left.
        -- apply IHs; [|exact Hin]. intros ie' Hin'. apply IH. now right.
  - intros q n es. unfold cosine_nearest.
    rewrite length_map, length_firstn. apply Nat.le_min_l.
Defined.

(** A decoder for the JSON texts made of arrays, objects, numbers, the three
    literals and strings without [\u] escapes, on which it agrees with
    [json.loads]. *)

Definition is_ws (c : ascii) : bool :=
  let n := nat_of_ascii c in
  Nat.eqb n 32 || Nat.eqb n 9 || Nat.eqb n 10 || Nat.eqb n 13.

Fixpoint skip_ws (s : string) : string :=
  match s with
  | String c r => if is_ws c then skip_ws r else s
  | EmptyString => s
  end.

Definition unescape (c : ascii) : option ascii :=
  let n := nat_of_ascii c in
  if Nat.eqb n 110 then Some (ascii_of_nat 10)
  else if Nat.eqb n 116 then Some (ascii_of_nat 9)
  else if Nat.eqb n 114 then Some (ascii_of_nat 13)
  else if Nat.eqb n 98 then Some (ascii_of_nat 8)
  else if Nat.eqb n 102 then Some (ascii_of_nat 12)
  else if Nat.eqb n 47 || Nat.eqb n 92 || Nat.eqb n 34 then Some c
  else None.

(** The rest of a string literal, after its opening quote: the decoded
    characters and what follows the closing quote. *)
Fixpoint scan_string (s : string) : option (string * string) :=
  match s with
  | EmptyString => None
  | String c r =>
      let n := nat_of_ascii c in
      if Nat.eqb n 34 then Some (EmptyString, r)
      else if Nat.eqb n 92 then
        match r with
        | String e r' =>
            match unescape e, scan_string r' with
            | Some c', Some (t, rest) => Some (String c' t, rest)
            | _, _ => None
            end
        | EmptyString => None
        end
      else if Nat.ltb n 32 then None
      else
        match scan_string r with
        | Some (t, rest) => Some (String c t, rest)
        | None => None
        end
  end.

Definition digit_of (c : ascii) : option Z :=
  let n := nat_of_ascii c in
  if Nat.leb 48 n && Nat.leb n 57 then Some (Z.of_nat (n - 48)) else None.

(** The digits at the head of [s], read from the value [acc]: the value,
    the number of digits read and what follows them. *)
Fixpoint scan_digits (acc : Z) (k : nat) (s : string) : Z * nat * string :=
  match s with
  | String c r =>
      match digit_of c with
      | Some d => scan_digits (10 * acc + d) (S k) r
      | None => (acc, k, s)
      end
  | EmptyString => (acc, k, s)
  end.

(** The integer part: a lone zero, or digits not starting with one. *)
Definition scan_int (s : string) : option (Z * string) :=
  match s with
  | String c r =>
      match digit_of c with
      | Some 0 => Some (0, r)
      | Some d => let '(z, _, rest) := scan_digits d 1 r in Some (z, rest)
      | None => None
      end
  | EmptyString => None
  end.

(** A fraction: a point and at least one digit. *)
Definition scan_frac (s : string) : option (Q * string) :=
  match s with
  | String c r =>
      if Nat.eqb (nat_of_ascii c) 46 then
        match scan_digits 0 0 r with
        | (_, O, _) => None
        | (z, k, rest) => Some ((inject_Z z / inject_Z (10 ^ Z.of_nat k))%Q, rest)
        end
      else None
  | EmptyString => None
  end.

(** An exponent: [e] or [E], an optional sign and at least one digit. *)
Definition scan_exp (s : string) : option (Z * string) :=
  match s with
  | String c r =>
      let n := nat_of_ascii c in
      if Nat.eqb n 101 || Nat.eqb n 69 then
        let '(sign, r') :=
          match r with
          | String c' r1 =>
              if Nat.eqb (nat_of_ascii c') 45 then (-1, r1)
              else if Nat.eqb (nat_of_ascii c') 43 then (1, r1)
              else (1, r)
          | EmptyString => (1, r)
          end in
        match scan_digits 0 0 r' with
        | (_, O, _) => None
        | (z, _, rest) => Some (sign * z, rest)
        end
      else None
  | EmptyString => None
  end.

(** A number token without its sign: an [int] when it has neither fraction
    nor exponent, a [float] otherwise. *)
Definition scan_number (negative : bool) (s : string) : option (pyval * string) :=
  match scan_int s with
  | Some (z, r) =>
      let sign := if negative then -1 else 1 in
      match scan_frac r with
      | Some (f, r1) =>
          match scan_exp r1 with
          | Some (e, r2) =>
              Some (PFloat (inject_Z sign * (inject_Z z + f) * Qpower 10 e)%Q, r2)
          | None => Some (PFloat (inject_Z sign * (inject_Z z + f))%Q, r1)
          end
      | None =>
          match scan_exp r with
          | Some (e, r2) => Some (PFloat (inject_Z (sign * z) * Qpower 10 e)%Q, r2)
          | None => Some (PInt (sign * z), r)
          end
      end
  | None => None
  end.

(** [d[k] = v] *)
Fixpoint dict_set (k : string) (v : pyval) (d : list (string * pyval)) : list (string * pyval) :=
  match d with
  | [] => [(k, v)]
  | (k', v') :: d' =>
      if String.eqb k' k then (k, v) :: d' else (k', v') :: dict_set k v d'
  end.

(** [lit] at the head of [s]: what follows it. *)
Fixpoint strip_prefix (lit s : string) : option string :=
  match lit, s with
  | EmptyString, _ => Some s
  | String a lit', String b s' => if Ascii.eqb a b then strip_prefix lit' s' else None
  | _, _ => None
  end.

Fixpoint parse_value (fuel : nat) (s : string) {struct fuel} : option (pyval * string) :=
  match fuel with
  | O => None
  | S fuel' =>
      match skip_ws s with
      | EmptyString => None
      | String c r =>
          let n := nat_of_ascii c in
          if Nat.eqb n 91 then
            match skip_ws r with
            | String c' r' =>
                if Nat.eqb (nat_of_ascii c') 93 then Some (PList [], r')
                else parse_elements fuel' r []
            | EmptyString => None
            end
          else if Nat.eqb n 123 then
            match skip_ws r with
            | String c' r' =>
                if Nat.eqb (nat_of_ascii c') 125 then Some (PDict [], r')
                else parse_members fuel' r []
            | EmptyString => None
            end
          else if Nat.eqb n 34 then
            match scan_string r with
            | Some (t, rest) => Some (PStr t, rest)
            | None => None
            end
          else if Nat.eqb n 45 then scan_number true r
          else
            match scan_number false (String c r) with
            | Some number => Some number
            | None =>
                match strip_prefix "null" (String c r) with
                | Some rest => Some (PNone, rest)
                | None =>
                    match strip_prefix "true" (String c r) with
                    | Some rest => Some (PBool true, rest)
                    | None =>
                        match strip_prefix "false" (String c r) with
                        | Some rest => Some (PBool false, rest)
                        | None => None
                        end
                    end
                end
            end
      end
  end
with parse_elements (fuel : nat) (s : string) (acc : list pyval) {struct fuel}
  : option (pyval * string) :=
  match fuel with
  | O => None
  | S fuel' =>
      match parse_value fuel' s with
      | Some (v, r) =>
          match skip_ws r with
          | String c r' =>
              let n := nat_of_ascii c in
              if Nat.eqb n 44 then parse_elements fuel' r' (acc ++ [v])
              else if Nat.eqb n 93 then Some (PList (acc ++ [v]), r')
              else None
          | EmptyString => None
          end
      | None => None
      end
  end
with parse_members (fuel : nat) (s : string) (acc : list (string * pyval)) {struct fuel}
  : option (pyval * string) :=
  match fuel with
  | O => None
  | S fuel' =>
      match skip_ws s with
      | String q r =>
          if Nat.eqb (nat_of_ascii q) 34 then
            match scan_string r with
            | Some (k, r1) =>
                match skip_ws r1 with
                | String colon r2 =>
                    if Nat.eqb (nat_of_ascii colon) 58 then
                      match parse_value fuel' r2 with
                      | Some (v, r3) =>
                          match skip_ws r3 with
                          | String c r4 =>
                              let n := nat_of_ascii c in
                              if Nat.eqb n 44 then parse_members fuel' r4 (dict_set k v acc)
                              else if Nat.eqb n 125 then Some (PDict (dict_set k v acc), r4)
                              else None
                          | EmptyString => None
                          end
                      | None => None
                      end
                    else None
                | EmptyString => None
                end
            | None => None
            end
          else None
      | EmptyString => None
      end
  end.

Definition decode_json (s : string) : result pyval :=
  match parse_value (2 * String.length s + 2) s with
  | Some (v, rest) =>
      match skip_ws rest with
      | EmptyString => Ok v
      | _ => Raise JSONDecodeError
      end
  | None => Raise JSONDecodeError
  end.

#[export] Instance json_decoder : JSONDecoder := {| json_loads := decode_json |}.

(** The same candidates as [cosine_index], returned least similar first. *)
Definition reversed_cosine_index : VectorIndex.
Proof.
  refine {| nearest := fun q n es => rev (cosine_nearest q n es) |}.
  - intros q n es i Hi. apply in_rev in Hi.
    exact (@nearest_candidates cosine_index q n es i Hi).
  - intros q n es. rewrite length_rev.
    exact (@nearest_bound cosine_index q n es).
Defined.

(** ** Scenarios *)

Definition empty_world : World :=
  {| memory_collection := [];
     identity_collection := ∅;
     chroma_collection := ∅;
     pending_faults := [];
     clock := 1700000000;
     uuid_count := 0;
     log := [] |}.

Definition alice_note : MemoryNode :=
  {| memory_id := "m-alice";
     user_id := "alice";
     content := "Alice moved to Bangalore for a new job.";
     memory_type := PERSONAL_IDENTITY;
     timestamp := 1700000001;
     tags := ["location"; "work"];
     recency_value := (1 # 2)%Q;
     source := "conversation";
     embedding := Some [1%Q; 0%Q];
     conversation_context := None;
     system_prompt_snippet := None;
     is_hive_mind := false |}.

Definition bob_note : MemoryNode :=
  {| memory_id := "m-bob";
     user_id := "bob";
     content := "Bob prefers tea over coffee.";
     memory_type := PREFERENCE;
     timestamp := 1700000002;
     tags := [];
     recency_value := 1%Q;
     source := "conversation";
     embedding := Some [(9 # 10)%Q; (1 # 10)%Q];
     conversation_context := None;
     system_prompt_snippet := None;
     is_hive_mind := false |}.

Definition shared_insight : MemoryNode :=
  {| memory_id := "m-hive";
     user_id := "alice";
     content := "Insight: reflection improves decision quality.";
     memory_type := FACTUAL;
     timestamp := 1700000003;
     tags := ["wisdom"];
     recency_value := 1%Q;
     source := "hive_mind";
     embedding := Some [0%Q; 1%Q];
     conversation_context := None;
     system_prompt_snippet := None;
     is_hive_mind := true |}.

(** The three records saved one after the other, every write going through. *)
Definition two_users_world : World :=
  snd (save_memory shared_insight
         (snd (save_memory bob_note (snd (save_memory alice_note empty_world))))).

(** A world in which the document store answers and the vector index is
    down at the next call. *)
Definition chroma_down_world : World :=
  with_pending_faults [None; Some (ServiceError "vector index unreachable")] empty_world.

Definition bangalore_conversation : Conversation :=
  {| system_prompt := "You are Meera.";
     user_message := "I just moved to Bangalore for a new job.";
     assistant_response := "Congratulations on the move!" |}.

Definition configured_types : list string :=
  ["personal_identity"; "preference"; "factual"; "emotional_state"].

(** A storage whose writes always fail. *)
Definition failing_storage : MemoryStorage :=
  {| st_save_memory := fun _ => raise (ServiceError "document store unreachable");
     st_update_user_identity := fun _ => raise (ServiceError "document store unreachable") |}.

(** Extraction and embedding disabled. *)
Definition plain_agent (storage : MemoryStorage) : ShivaAgent :=
  {| memory_storage := storage;
     extraction_llm := None;
     embeddings := None;
     memory_types := configured_types |}.

(** Extraction enabled, the model answering [response] to every prompt. *)
Definition agent_answering (response : string) : ShivaAgent :=
  {| memory_storage := mongo_chroma_storage;
     extraction_llm := Some (fun _ => Ok response);
     embeddings := None;
     memory_types := configured_types |}.

(** Embedding enabled, the service failing at every call. *)
Definition agent_embedding_down : ShivaAgent :=
  {| memory_storage := mongo_chroma_storage;
     extraction_llm := None;
     embeddings := Some (fun _ => Raise (ServiceError "embedding service unreachable"));
     memory_types := configured_types |}.

(** Extraction disabled, embedding enabled: the stand-in for the embedding
    model places a text by its length. *)
Definition agent_embedding : ShivaAgent :=
  {| memory_storage := mongo_chroma_storage;
     extraction_llm := None;
     embeddings :=
       Some (fun v =>
               match v with
               | PStr s => Ok [inject_Z (Z.of_nat (String.length s)); 1%Q]
               | _ => Raise TypeError
               end);
     memory_types := configured_types |}.

Definition tea_conversation : Conversation :=
  {| system_prompt := "You are Meera.";
     user_message := "I prefer tea over coffee.";
     assistant_response := "Noted." |}.

(** Two users talk to the agent, then an insight is shared. *)
Definition chat_world : World :=
  snd (create_hive_mind_memory agent_embedding "alice"
         "Insight: reflection improves decision quality." FACTUAL (Some ["wisdom"])
         (snd (process agent_embedding "bob" tea_conversation None
                 (snd (process agent_embedding "alice" bangalore_conversation None
                         empty_world))))).

(** A model response holding one signal, of empty content. *)
Definition empty_content_response : string :=
  "[{" ++ dq ++ "content" ++ dq ++ ": " ++ dq ++ dq ++ ", " ++
  dq ++ "memory_type" ++ dq ++ ": " ++ dq ++ "mood" ++ dq ++ "}]".

Definition alice_identity : UserIdentity :=
  {| identity_user_id := "alice";
     name := Some "Alice";
     age := Some 31;
     gender := None;
     origin := Some "Pune";
     current_context := None;
     primary_role := Some "engineer";
     personal_identity := [("languages", PList [PStr "Marathi"; PStr "English"])];
     professional_identity := [("team", PDict [("size", PInt 4)])];
     created_at := 1690000000;
     updated_at := 5 |}.

(** ** src/agents/brahma.py *)

(** The messages handed to the chat model. *)
Inductive Message : Type :=
| SystemMessage (text : string)
| HumanMessage (text : string)
| AIMessage (text : string).

Record BrahmaInterface : Type := {
  (** The chat model behind [llm.invoke], messages to response text. *)
  llm : list Message -> result string
}.

(** [msg.get(k)] on a prior turn, a dict from [str] to [str]. *)
Fixpoint turn_get (k : string) (msg : list (string * string)) : option string :=
  match msg with
  | [] => None
  | (k', v) :: msg' => if String.eqb k' k then Some v else turn_get k msg'
  end.

(** The loop over the prior turns: a turn of role [user] or [assistant]
    gives a message, any other turn is passed over. *)
Fixpoint history_messages (conversation_history : list (list (string * string)))
  : list Message :=
  match conversation_history with
  | [] => []
  | msg :: rest =>
      let role := turn_get "role" msg in
      let text := default EmptyString (turn_get "content" msg) in
      match role with
      | Some r =>
          if String.eqb r "user" then HumanMessage text :: history_messages rest
          else if String.eqb r "assistant" then AIMessage text :: history_messages rest
          else history_messages rest
      | None => history_messages rest
      end
  end.

(** The message list of a call: the system prompt, the prior turns, the
    message of the user. *)
Definition build_messages (prompt message : string)
    (conversation_history : option (list (list (string * string)))) : list Message :=
  [SystemMessage prompt] ++
  (if truthy_list conversation_history
   then history_messages (default [] conversation_history)
   else []) ++
  [HumanMessage message].

(** What [generate_response] returns: the response text and the full
    conversation, whose prior turns are kept next to the part Shiva reads. *)
Record BrahmaResult : Type := {
  response : string;
  full_conversation : Conversation;
  conversation_history : list (list (string * string))
}.

(** [BrahmaInterface.generate_response]: the handler logs and re-raises. *)
Definition generate_response (self : BrahmaInterface) (prompt message : string)
    (history : option (list (list (string * string)))) : M BrahmaResult :=
  logger INFO "Brahma generating response" ;;;
  try_except
    (let messages := build_messages prompt message history in
     response_text <- lift (llm self messages) ;;
     logger INFO "Brahma response generated" ;;;
     ret {| response := response_text;
            full_conversation :=
              {| system_prompt := prompt;
                 user_message := message;
                 assistant_response := response_text |};
            conversation_history := default [] history |})
    (fun e => logger ERROR "Failed to generate response" ;;; raise e).

(** ** src/agents/vishnu.py *)

(** The methods of the retriever the agent is constructed with. *)
Record MemoryRetriever : Type := {
  mr_get_user_identity : string -> M (option UserIdentity);
  mr_retrieve_personal_memories : string -> string -> M (list MemoryNode);
  mr_retrieve_hive_mind_memories : string -> M (list MemoryNode)
}.

Record VishnuAgent : Type := {
  memory_retriever : MemoryRetriever;
  (** [prompt_builder.build_system_prompt], of src/prompts/templates.py. *)
  build_system_prompt :
    UserIdentity -> list MemoryNode -> list MemoryNode -> string -> M string;
  (** The language model behind [intent_llm.invoke]; [None] when intent
      detection is disabled. *)
  intent_llm : option (string -> result string);
  (** The [identity_update] switch of the configuration. *)
  identity_update : bool
}.

(** The characters [str.strip()] removes, among the code points below 256:
    9 to 13, 28 to 32, 133 and 160. *)
Definition is_space (c : ascii) : bool :=
  let n := nat_of_ascii c in
  (Nat.leb 9 n && Nat.leb n 13) || (Nat.leb 28 n && Nat.leb n 32) ||
  Nat.eqb n 133 || Nat.eqb n 160.

(** [s.lstrip()] *)
Fixpoint str_lstrip (s : string) : string :=
  match s with
  | String c s' => if is_space c then str_lstrip s' else s
  | EmptyString => s
  end.

(** [s.rstrip()] *)
Fixpoint str_rstrip (s : string) : string :=
  match s with
  | String c s' =>
      match str_rstrip s' with
      | EmptyString => if is_space c then EmptyString else String c EmptyString
      | r => String c r
      end
  | EmptyString => EmptyString
  end.

(** [s.strip()] *)
Definition str_strip (s : string) : string := str_rstrip (str_lstrip s).

Definition intent_prompt (message : string) : string :=
  "Analyze the following user message and identify the primary intent in one short phrase (e.g., " ++
  dq ++ "question about consciousness" ++ dq ++ ", " ++
  dq ++ "emotional support" ++ dq ++ ", " ++
  dq ++ "technical inquiry" ++ dq ++ ", " ++
  dq ++ "philosophical discussion" ++ dq ++ ")." ++ nl ++
  nl ++
  "User message: " ++ message ++ nl ++
  nl ++
  "Intent:".

(** [VishnuAgent._detect_intent] *)
Definition _detect_intent (self : VishnuAgent) (message : string) : M (option string) :=
  match intent_llm self with
  | None => ret None
  | Some invoke =>
      try_except
        (response_text <- lift (invoke (intent_prompt message)) ;;
         let intent := str_strip response_text in
         logger DEBUG "Intent detected" ;;;
         ret (Some intent))
        (fun e =>
           logger WARNING "Failed to detect intent, continuing without intent" ;;;
           ret None)
  end.

(** [UserIdentity(user_id=uid)]: every other field at its default, the two
    dates filled in by [datetime.utcnow]. *)
Definition new_identity (uid : string) : M UserIdentity :=
  created <- utcnow ;;
  updated <- utcnow ;;
  ret {| identity_user_id := uid;
         name := None; age := None; gender := None; origin := None;
         current_context := None; primary_role := None;
         personal_identity := []; professional_identity := [];
         created_at := created; updated_at := updated |}.

(** [VishnuAgent._get_or_create_identity] *)
Definition _get_or_create_identity (self : VishnuAgent) (uid : string) : M UserIdentity :=
  found <- mr_get_user_identity (memory_retriever self) uid ;;
  match found with
  | Some identity => ret identity
  | None =>
      identity <- new_identity uid ;;
      logger INFO "New user identity created" ;;;
      ret identity
  end.

(** [VishnuAgent._update_identity] *)
Definition _update_identity (self : VishnuAgent) (identity : UserIdentity)
    (message : string) (intent : option string) : M UserIdentity :=
  if negb (identity_update self) then ret identity
  else now <- utcnow ;; ret (set_updated_at now identity).

(** What [VishnuAgent.process] returns. *)
Record VishnuResult : Type := {
  vr_system_prompt : string;
  vr_user_identity : UserIdentity;
  vr_personal_memories : list MemoryNode;
  vr_hive_mind_memories : list MemoryNode;
  vr_intent : option string;
  vr_user_message : string
}.

(** [VishnuAgent.process] *)
Definition vishnu_process (self : VishnuAgent) (uid message : string) : M VishnuResult :=
  logger INFO "Vishnu processing started" ;;;
  intent <- match intent_llm self with
            | Some _ => _detect_intent self message
            | None => ret None
            end ;;
  found <- _get_or_create_identity self uid ;;
  identity <- _update_identity self found message intent ;;
  personal_memories <-
    mr_retrieve_personal_memories (memory_retriever self) uid message ;;
  hive_mind_memories <- mr_retrieve_hive_mind_memories (memory_retriever self) message ;;
  prompt <- build_system_prompt self identity personal_memories hive_mind_memories
              message ;;
  logger INFO "Vishnu processing completed" ;;;
  ret {| vr_system_prompt := prompt;
         vr_user_identity := identity;
         vr_personal_memories := personal_memories;
         vr_hive_mind_memories := hive_mind_memories;
         vr_intent := intent;
         vr_user_message := message |}.

(** ** Further scenarios *)

Definition carol_note : MemoryNode :=
  {| memory_id := "m-carol";
     user_id := "carol";
     content := "Carol is learning the sitar.";
     memory_type := FACTUAL;
     timestamp := 1700000004;
     tags := ["music"];
     recency_value := 1%Q;
     source := "conversation";
     embedding := None;
     conversation_context := None;
     system_prompt_snippet := None;
     is_hive_mind := false |}.

(** The profile of Alice is stored and the document store is down at the
    next call. *)
Definition outage_world : World :=
  with_pending_faults [Some (ServiceError "document store unreachable")]
    (with_identity_collection {[ "alice" := alice_identity ]} empty_world).

(** The profile of Alice is stored and the databases answer. *)
Definition profile_world : World :=
  with_identity_collection {[ "alice" := alice_identity ]} empty_world.

(** A model response holding two signals. *)
Definition two_signals_response : string :=
  "Here you go: [{" ++ dq ++ "content" ++ dq ++ ": " ++ dq ++ "Lives in Bangalore" ++ dq ++ ", " ++
  dq ++ "memory_type" ++ dq ++ ": " ++ dq ++ "personal_identity" ++ dq ++ ", " ++
  dq ++ "tags" ++ dq ++ ": [" ++ dq ++ "city" ++ dq ++ "]}, {" ++
  dq ++ "content" ++ dq ++ ": " ++ dq ++ "Started a new job" ++ dq ++ "}]".

(** ** Notions used by the further properties *)

(** The next [n] database round trips go through. *)
Definition no_faults (n : nat) (w : World) : Prop :=
  Forall (fun f => f = None) (firstn n (pending_faults w)).

(** The number of round trips of a save: one, and one more when the record
    has an embedding. *)
Definition save_round_trips (memory : MemoryNode) : nat :=
  if truthy_list (embedding memory) then 2%nat else 1%nat.

(** [{"_id": {"$ne": i}}] *)
Definition id_other (i : string) (d : MemoryNode) : bool :=
  negb (String.eqb (memory_id d) i).

(** The last character of a string. *)
Fixpoint str_last (s : string) : option ascii :=
  match s with
  | EmptyString => None
  | String c EmptyString => Some c
  | String _ s' => str_last s'
  end.

(** [c in s] *)
Fixpoint str_has (c : ascii) (s : string) : bool :=
  match s with
  | EmptyString => false
  | String c' s' => Ascii.eqb c' c || str_has c s'
  end.

(** A retriever over the storage, searching with no query vector. *)
Definition plain_retriever : MemoryRetriever :=
  {| mr_get_user_identity := get_user_identity;
     mr_retrieve_personal_memories := fun uid _ => get_recent_memories (Some uid) false 5;
     mr_retrieve_hive_mind_memories := fun _ => get_recent_memories None true 5 |}.

(** An agent whose intent model is out of quota. *)
Definition vishnu_without_quota : VishnuAgent :=
  {| memory_retriever := plain_retriever;
     build_system_prompt := fun _ _ _ query => ret ("You are Meera." ++ nl ++ query);
     intent_llm := Some (fun _ => Raise (ServiceError "quota exceeded"));
     identity_update := true |}.

(** Two identities agree on every field but [updated_at]. *)
Definition same_but_updated_at (i j : UserIdentity) : Prop :=
  identity_user_id i = identity_user_id j /\
  name i = name j /\
  age i = age j /\
  gender i = gender j /\
  origin i = origin j /\
  current_context i = current_context j /\
  primary_role i = primary_role j /\
  personal_identity i = personal_identity j /\
  professional_identity i = professional_identity j /\
  created_at i = created_at j.

(** The message a prior turn stands for: a turn of the user or of the
    assistant gives a message with its content, the empty text when it has
    none; any other turn gives no message. *)
Definition turn_message (msg : list (string * string)) : option Message :=
  let text := default EmptyString (turn_get "content" msg) in
  if bool_decide (turn_get "role" msg = Some "user") then Some (HumanMessage text)
  else if bool_decide (turn_get "role" msg = Some "assistant") then Some (AIMessage text)
  else None.

Definition is_system_message (m : Message) : bool :=
  match m with SystemMessage _ => true | _ => false end.

(** [w'] differs from [w] in the log and the uuid supply at most. *)
Definition same_backends (w w' : World) : Prop :=
  memory_collection w' = memory_collection w /\
  chroma_collection w' = chroma_collection w /\
  identity_collection w' = identity_collection w /\
  pending_faults w' = pending_faults w /\
  clock w' = clock w /\
  (uuid_count w <= uuid_count w')%nat.

(** A computation that makes no round trip to a database. *)
Definition quiet {A} (m : M A) : Prop :=
  forall w, same_backends w (snd (m w)).

(** The ids [ids] are distinct ids the supply has handed out, each the id
    of a stored personal document of the user [uid]. *)
Definition stored_ids (uid : string) (ids : list string) (w : World) : Prop :=
  List.NoDup ids /\
  forall id, In id ids ->
    (exists k, (k < uuid_count w)%nat /\ id = uuid_text k) /\
    (exists d, In d (memory_collection w) /\ memory_id d = id /\
               user_id d = uid /\ is_hive_mind d = false).

(** * Properties *)

(** ** Sorting by descending key *)

Section SortDesc.
Context {A K : Type} (leb : K -> K -> bool) (key : A -> K).

Lemma insert_desc_In (x y : A) (l : list A) :
  In y (insert_desc leb key x l) <-> y = x \/ In y l.
Proof.
  induction l as [|z l IH]; simpl.
  - intuition.
  - destruct (leb (key z) (key x)); simpl; [intuition|].
    rewrite IH. intuition.
Qed.

Lemma sort_desc_In (y : A) (l : list A) :
  In y (sort_desc leb key l) <-> In y l.
Proof.
  induction l as [|x l IH]; simpl; [reflexivity|].
  rewrite insert_desc_In, IH. intuition.
Qed.

Variable R : K -> K -> Prop.
Hypothesis leb_holds : forall a b, leb a b = true -> R a b.
Hypothesis leb_fails : forall a b, leb a b = false -> R b a.
Hypothesis R_trans : forall a b c, R a b -> R b c -> R a c.

Lemma insert_desc_sorted (x : A) (l : list A) :
  StronglySorted (fun a b => R (key b) (key a)) l ->
  StronglySorted (fun a b => R (key b) (key a)) (insert_desc leb key x l).
Proof.
  induction 1 as [|z l Hl IH Hz]; simpl.
  - repeat constructor.
  - destruct (leb (key z) (key x)) eqn:E.
    + constructor; [now constructor|].
      constructor; [now apply leb_holds|].
      rewrite List.Forall_forall in *. intros b Hb.
      apply R_trans with (key z); [now apply Hz | now apply leb_holds].
    + constructor; [exact IH|].
      rewrite List.Forall_forall in *. intros b Hb.
      apply insert_desc_In in Hb as [->|Hb]; [now apply leb_fails | now apply Hz].
Qed.

Lemma sort_desc_sorted (l : list A) :
  StronglySorted (fun a b => R (key b) (key a)) (sort_desc leb key l).
Proof.
  induction l as [|x l IH]; simpl; [constructor|].
  now apply insert_desc_sorted.
Qed.
End SortDesc.

Lemma recency_sorted (l : list MemoryNode) :
  StronglySorted (fun a b => (recency_value b <= recency_value a)%Q)
    (sort_desc Qle_bool recency_value l).
Proof.
  apply sort_desc_sorted with (R := Qle).
  - intros a b. apply Qle_bool_iff.
  - intros a b E. apply Qlt_le_weak, Qnot_le_lt.
    intros Hle. apply Qle_bool_iff in Hle. congruence.
  - intros a b c. apply Qle_trans.
Qed.

(** ** The document list under [replace_one] *)

Lemma replace_one_upsert_In (d : MemoryNode) (docs : list MemoryNode) :
  In d (replace_one_upsert d docs).
Proof.
  induction docs as [|x docs IH]; simpl; [now left|].
  destruct (String.eqb _ _); simpl; auto.
Qed.

Lemma replace_one_upsert_inv (d x : MemoryNode) (docs : list MemoryNode) :
  In x (replace_one_upsert d docs) -> x = d \/ In x docs.
Proof.
  induction docs as [|y docs IH]; simpl.
  - intuition.
  - destruct (String.eqb _ _); simpl; intuition.
Qed.

Lemma replace_one_upsert_ids (d : MemoryNode) (docs : list MemoryNode) (i : string) :
  In i (map memory_id docs) -> In i (map memory_id (replace_one_upsert d docs)).
Proof.
  induction docs as [|y docs IH]; simpl; [intuition|].
  destruct (String.eqb (memory_id y) (memory_id d)) eqn:E; simpl.
  - apply String.eqb_eq in E. rewrite E. intuition.
  - intuition.
Qed.

(** ** Running the storage operations *)

Ltac run :=
  unfold try_except, try_except_on, bind, ret, raise, lift, logger, utcnow, uuid4,
    round_trip; cbn.

(** The two collections after a save: nothing written, or the document
    written and the index entry written or not. *)
Lemma save_memory_collections (memory : MemoryNode) (w : World) :
  let w' := snd (save_memory memory w) in
  (memory_collection w' = memory_collection w /\
   chroma_collection w' = chroma_collection w) \/
  (memory_collection w' = replace_one_upsert memory (memory_collection w) /\
   (chroma_collection w' = chroma_collection w \/
    exists v, embedding memory = Some v /\
      chroma_collection w' =
        <[memory_id memory := index_entry_of memory v]> (chroma_collection w))).
Proof.
  unfold save_memory, save_memory_body, mongo_replace_memory, chroma_upsert. run.
  destruct (pending_faults w) as [|[e|] fs] eqn:E; cbn; auto.
  - destruct (embedding memory) as [[|x v]|]; cbn; rewrite ?E; cbn; eauto 8.
  - destruct (embedding memory) as [[|x v]|]; cbn; auto.
    destruct fs as [|[e|] fs]; cbn; eauto 8.
Qed.

Lemma hydrate_nil (docs : list MemoryNode) : hydrate [] docs = [].
Proof.
  unfold hydrate. induction docs as [|d docs IH]; [reflexivity | exact IH].
Qed.

(** The value [search_memories] returns, in closed form. *)
Lemma search_memories_result `{VectorIndex} (q : list Q) (uid : option string)
    (hive : bool) (limit : nat) (types : option (list MemoryType)) (w : World) :
  fst (search_memories q uid hive limit types w) =
  Ok (if search_faulted w then []
      else hydrate
             (nearest q limit
                (chroma_candidates (build_where uid hive types) (chroma_collection w)))
             (memory_collection w)).
Proof.
  unfold search_memories, search_memories_body, chroma_query, mongo_find,
    search_faulted. run.
  destruct (pending_faults w) as [|[e|] fs] eqn:E; cbn; auto.
  - destruct (nearest q limit _) as [|i ids]; cbn; rewrite ?E; cbn.
    + now rewrite hydrate_nil.
    + reflexivity.
  - destruct (nearest q limit _) as [|i ids]; cbn.
    + rewrite hydrate_nil. now destruct fs as [|[e|] fs].
    + destruct fs as [|[e|] fs]; reflexivity.
Qed.

Lemma get_recent_memories_result (uid : option string) (hive : bool) (limit : nat)
    (w : World) :
  fst (get_recent_memories uid hive limit w) =
  Ok (match pending_faults w with
      | Some _ :: _ => []
      | _ => mongo_limit limit
               (sort_desc Z.leb timestamp
                  (List.filter (recent_query uid hive) (memory_collection w)))
      end).
Proof.
  unfold get_recent_memories, mongo_find. run.
  destruct (pending_faults w) as [|[e|] fs]; reflexivity.
Qed.

Lemma id_in_spec (ids : list string) (d : MemoryNode) :
  id_in ids d = true <-> In (memory_id d) ids.
Proof.
  unfold id_in. rewrite existsb_exists. split.
  - intros [i [Hi E]]. apply String.eqb_eq in E. now subst.
  - intros Hi. exists (memory_id d). split; [exact Hi | apply String.eqb_refl].
Qed.

Lemma hydrate_In (ids : list string) (docs : list MemoryNode) (r : MemoryNode) :
  In r (hydrate ids docs) <-> In r docs /\ In (memory_id r) ids.
Proof.
  unfold hydrate. rewrite sort_desc_In, filter_In, id_in_spec. reflexivity.
Qed.

(** The hydrated list depends on the ids as a set only. *)
Lemma hydrate_ext (ids ids' : list string) (docs : list MemoryNode) :
  (forall i, In i ids <-> In i ids') -> hydrate ids docs = hydrate ids' docs.
Proof.
  intros Hsame. unfold hydrate. f_equal. apply filter_ext. intros d.
  destruct (id_in ids d) eqn:E, (id_in ids' d) eqn:E'; try reflexivity.
  - apply id_in_spec, Hsame, id_in_spec in E. congruence.
  - apply id_in_spec, Hsame, id_in_spec in E'. congruence.
Qed.

(** A [try] whose handler logs and returns a value never raises. *)
Lemma try_except_total {A} (body : M A) (lvl : LogLevel) (event : string) (a : A)
    (w : World) :
  exists r w', try_except body (fun e => logger lvl event ;;; ret a) w = (Ok r, w').
Proof.
  run. destruct (body w) as [[r|e] w']; eauto.
Qed.

(** ** save_memory *)

(** C1 (as amended): when the document write of [save_memory] goes through
    and the vector upsert that follows raises, [save_memory] logs the failure
    and raises the same error to its caller instead of returning the id; the
    document stays written and the vector index is left as it was. *)
Theorem save_memory_reraises_vector_failure
    (memory : MemoryNode) (w : World) (x : Q) (v : list Q) (e : exn)
    (fs : list (option exn)) :
  embedding memory = Some (x :: v) ->
  pending_faults w = None :: Some e :: fs ->
  exists w',
    save_memory memory w = (Raise e, w') /\
    memory_collection w' = replace_one_upsert memory (memory_collection w) /\
    In memory (memory_collection w') /\
    chroma_collection w' = chroma_collection w /\
    log w' = (log w ++ [(ERROR, "Failed to save memory")])%list.
Proof.
  intros Hemb Hplan.
  unfold save_memory, save_memory_body, mongo_replace_memory, chroma_upsert. run.
  rewrite Hplan, Hemb. cbn.
  eexists. split; [reflexivity|]. cbn.
  repeat split. apply replace_one_upsert_In.
Qed.

Lemma save_memory_reraises_vector_failure_witness :
  exists w',
    save_memory alice_note chroma_down_world
      = (Raise (ServiceError "vector index unreachable"), w') /\
    memory_collection w'
      = replace_one_upsert alice_note (memory_collection chroma_down_world) /\
    In alice_note (memory_collection w') /\
    chroma_collection w' = chroma_collection chroma_down_world /\
    log w' = (log chroma_down_world ++ [(ERROR, "Failed to save memory")])%list.
Proof.
  exact (save_memory_reraises_vector_failure alice_note chroma_down_world
           1%Q [0%Q] (ServiceError "vector index unreachable") []
           eq_refl eq_refl).
Defined.

(** C1, as stated, fails: the record has an embedding, the document write
    succeeds, the vector upsert fails, and [save_memory] raises instead of
    returning the id. *)
Lemma save_memory_vector_failure_counterexample :
  fst (save_memory alice_note chroma_down_world)
    = Raise (ServiceError "vector index unreachable") /\
  memory_collection (snd (save_memory alice_note chroma_down_world)) = [alice_note].
Proof.
  split; reflexivity.
Qed.

(** ** search_memories *)

(** C5: [search_memories] never raises, and whenever its body raises, in
    particular when the vector query or the document lookup fails, it
    returns the empty list. *)
Theorem search_memories_fails_soft `{VectorIndex}
    (q : list Q) (uid : option string) (hive : bool) (limit : nat)
    (types : option (list MemoryType)) (w : World) :
  (exists l w', search_memories q uid hive limit types w = (Ok l, w')) /\
  (forall e w1,
     search_memories_body q uid hive limit types w = (Raise e, w1) ->
     search_memories q uid hive limit types w
       = (Ok [], with_log (log w1 ++ [(ERROR, "Failed to search memories")]) w1)) /\
  (forall e fs,
     pending_faults w = Some e :: fs ->
     fst (search_memories_body q uid hive limit types w) = Raise e /\
     fst (search_memories q uid hive limit types w) = Ok []) /\
  (forall e fs,
     pending_faults w = None :: Some e :: fs ->
     fst (search_memories q uid hive limit types w) = Ok []).
Proof.
  split; [apply try_except_total|].
  split.
  { intros e w1 Hbody. unfold search_memories. run. now rewrite Hbody. }
  split.
  - intros e fs Hplan. split.
    + unfold search_memories_body, chroma_query. run. now rewrite Hplan.
    + rewrite search_memories_result. unfold search_faulted. now rewrite Hplan.
  - intros e fs Hplan.
    rewrite search_memories_result. unfold search_faulted. now rewrite Hplan.
Qed.

Lemma insert_desc_perm {A K} (leb : K -> K -> bool) (key : A -> K) (x : A)
    (l : list A) :
  Permutation (insert_desc leb key x l) (x :: l).
Proof.
  induction l as [|y l IH]; cbn; [reflexivity|].
  destruct (leb (key y) (key x)); [reflexivity|].
  rewrite IH. apply perm_swap.
Qed.

Lemma sort_desc_perm {A K} (leb : K -> K -> bool) (key : A -> K) (l : list A) :
  Permutation (sort_desc leb key l) l.
Proof.
  induction l as [|x l IH]; [reflexivity|].
  change (sort_desc leb key (x :: l))
    with (insert_desc leb key x (sort_desc leb key l)).
  rewrite insert_desc_perm. now constructor.
Qed.

(** C6: the list [search_memories] returns consists of the documents of the
    document store whose ids the vector index returned, all of them and no
    other (the empty list when a round trip fails), in descending order of
    [recency_value]; the order in which the index ranked the ids plays no
    part: two indexes that return the same ids, in whatever order, lead to
    the same result. *)
Theorem search_memories_order_is_recency (I1 I2 : VectorIndex)
    (q : list Q) (uid : option string) (hive : bool) (limit : nat)
    (types : option (list MemoryType)) (w : World) :
  (forall es i, In i (@nearest I1 q limit es) <-> In i (@nearest I2 q limit es)) ->
  fst (@search_memories I1 q uid hive limit types w)
    = fst (@search_memories I2 q uid hive limit types w) /\
  exists l w',
    @search_memories I1 q uid hive limit types w = (Ok l, w') /\
    StronglySorted (fun a b => (recency_value b <= recency_value a)%Q) l /\
    (forall r, In r l ->
       In r (memory_collection w) /\
       In (memory_id r)
          (@nearest I1 q limit
             (chroma_candidates (build_where uid hive types) (chroma_collection w)))) /\
    (search_faulted w = false ->
     Permutation l
       (List.filter
          (id_in (@nearest I1 q limit
                    (chroma_candidates (build_where uid hive types)
                       (chroma_collection w))))
          (memory_collection w))) /\
    (search_faulted w = false ->
     forall r,
       In r (memory_collection w) ->
       In (memory_id r)
          (@nearest I1 q limit
             (chroma_candidates (build_where uid hive types) (chroma_collection w))) ->
       In r l) /\
    (search_faulted w = true -> l = []).
Proof.
  intros Hsame. split.
  - rewrite !search_memories_result.
    destruct (search_faulted w); [reflexivity|].
    f_equal. apply hydrate_ext. intros i. apply Hsame.
  - destruct (@try_except_total _
                (@search_memories_body I1 q uid hive limit types)
                ERROR "Failed to search memories" [] w) as [l [w' Hrun]].
    exists l, w'. split; [exact Hrun|].
    pose proof (@search_memories_result I1 q uid hive limit types w) as Hres.
    unfold search_memories in Hres at 1. rewrite Hrun in Hres. cbn in Hres.
    injection Hres as ->.
    destruct (search_faulted w).
    + split; [constructor|]. split; [intros r []|].
      split; [discriminate|]. split; [discriminate | reflexivity].
    + split; [apply recency_sorted|].
      split; [intros r Hr; now apply hydrate_In in Hr|].
      split; [intros _; apply sort_desc_perm|].
      split; [|discriminate].
      intros _ r Hdoc Hid. apply hydrate_In. now split.
Qed.

Lemma search_memories_order_is_recency_witness :
  @nearest cosine_index [1%Q; 0%Q] 3
    (chroma_candidates (build_where None false None)
       (chroma_collection two_users_world))
    = rev (@nearest reversed_cosine_index [1%Q; 0%Q] 3
             (chroma_candidates (build_where None false None)
                (chroma_collection two_users_world))) /\
  fst (@search_memories cosine_index [1%Q; 0%Q] None false 3 None two_users_world)
    = Ok [bob_note; alice_note] /\
  fst (@search_memories cosine_index [1%Q; 0%Q] None false 3 None two_users_world)
    = fst (@search_memories reversed_cosine_index [1%Q; 0%Q] None false 3 None
             two_users_world) /\
  exists l w',
    @search_memories cosine_index [1%Q; 0%Q] None false 3 None two_users_world
      = (Ok l, w') /\
    StronglySorted (fun a b => (recency_value b <= recency_value a)%Q) l /\
    Permutation l
      (List.filter
         (id_in (@nearest cosine_index [1%Q; 0%Q] 3
                   (chroma_candidates (build_where None false None)
                      (chroma_collection two_users_world))))
         (memory_collection two_users_world)).
Proof.
  split; [reflexivity|]. split; [reflexivity|].
  destruct (search_memories_order_is_recency cosine_index reversed_cosine_index
              [1%Q; 0%Q] None false 3 None two_users_world)
    as [Hsame [l [w' [Hrun [Hsorted [_ [Hperm _]]]]]]].
  - intros es i. cbn. apply in_rev.
  - split; [exact Hsame|]. exists l, w'. split; [exact Hrun|].
    split; [exact Hsorted | exact (Hperm eq_refl)].
Defined.

(** ** update_user_identity *)

Lemma set_updated_at_twice (t t' : Z) (i : UserIdentity) :
  set_updated_at t (set_updated_at t' i) = set_updated_at t i.
Proof. reflexivity. Qed.

Lemma update_user_identity_run (identity : UserIdentity) (w : World) :
  next_call_succeeds w ->
  fst (update_user_identity identity w) = Ok true /\
  identity_collection (snd (update_user_identity identity w))
    = <[identity_user_id identity := set_updated_at (clock w) identity]>
        (identity_collection w).
Proof.
  unfold next_call_succeeds, update_user_identity, mongo_replace_identity. run.
  destruct (pending_faults w) as [|[e|] fs]; cbn; intros Hnext; [auto | tauto | auto].
Qed.

Lemma set_updated_at_fields (t : Z) (i : UserIdentity) :
  updated_at (set_updated_at t i) = t /\ same_but_updated_at (set_updated_at t i) i.
Proof. unfold same_but_updated_at. cbn. repeat split. Qed.

(** C7: an accepted [update_user_identity] stores, under the user id of the
    identity, a profile whose [updated_at] is the current time, whatever
    value the caller supplied, and whose every other field is as supplied;
    doing it again with the same content gives a stored profile that differs
    from the first one in [updated_at] only, and no other profile is
    touched. *)
Theorem update_user_identity_idempotent
    (identity identity' : UserIdentity) (w : World) (t : Z) :
  next_call_succeeds w ->
  same_but_updated_at identity' identity ->
  let r1 := update_user_identity identity w in
  let w1 := with_clock t (snd r1) in
  let r2 := update_user_identity identity' w1 in
  next_call_succeeds w1 ->
  fst r1 = Ok true /\ fst r2 = Ok true /\
  exists stored1 stored2,
    identity_collection (snd r1) !! identity_user_id identity = Some stored1 /\
    identity_collection (snd r2) !! identity_user_id identity = Some stored2 /\
    updated_at stored1 = clock w /\
    updated_at stored2 = t /\
    same_but_updated_at stored1 identity /\
    same_but_updated_at stored2 identity' /\
    same_but_updated_at stored2 stored1 /\
    forall u, u <> identity_user_id identity ->
      identity_collection (snd r2) !! u = identity_collection w !! u.
Proof.
  intros Hnext Hsame r1 w1 r2 Hnext1.
  assert (Hid : identity_user_id identity' = identity_user_id identity)
    by exact (proj1 Hsame).
  destruct (update_user_identity_run identity w Hnext) as [Hr1 Hc1].
  destruct (update_user_identity_run identity' w1 Hnext1) as [Hr2 Hc2].
  fold r1 in Hr1, Hc1. fold r2 in Hr2, Hc2.
  assert (Hc : identity_collection (snd r2)
               = <[identity_user_id identity := set_updated_at t identity']>
                   (<[identity_user_id identity := set_updated_at (clock w) identity]>
                      (identity_collection w))).
  { rewrite Hc2. subst w1. cbn. rewrite Hc1, Hid. reflexivity. }
  split; [exact Hr1|]. split; [exact Hr2|].
  exists (set_updated_at (clock w) identity), (set_updated_at t identity').
  split; [rewrite Hc1; apply lookup_insert_eq|].
  split; [rewrite Hc; apply lookup_insert_eq|].
  split; [reflexivity|]. split; [reflexivity|].
  split; [apply set_updated_at_fields|].
  split; [apply set_updated_at_fields|].
  split.
  - unfold same_but_updated_at in *. cbn. exact Hsame.
  - intros u Hu. rewrite Hc. now rewrite !lookup_insert_ne.
Qed.

Lemma update_user_identity_idempotent_witness :
  updated_at alice_identity = 5 /\
  fst (update_user_identity alice_identity empty_world) = Ok true /\
  exists stored1 stored2,
    identity_collection (snd (update_user_identity alice_identity empty_world))
      !! "alice" = Some stored1 /\
    identity_collection
      (snd (update_user_identity (set_updated_at 77 alice_identity)
              (with_clock 1700000900
                 (snd (update_user_identity alice_identity empty_world)))))
      !! "alice" = Some stored2 /\
    updated_at stored1 = 1700000000 /\
    updated_at stored2 = 1700000900 /\
    name stored2 = Some "Alice" /\
    created_at stored2 = 1690000000 /\
    same_but_updated_at stored2 stored1.
Proof.
  split; [reflexivity|].
  pose proof (update_user_identity_idempotent alice_identity
                (set_updated_at 77 alice_identity) empty_world 1700000900
                I (proj2 (set_updated_at_fields 77 alice_identity)) I) as Hrun.
  cbv zeta in Hrun.
  destruct Hrun as [Hr1 [_ [stored1 [stored2 [H1 [H2 [Ht1 [Ht2 [_ [Hs2 [Hs21 _]]]]]]]]]]].
  split; [exact Hr1|]. exists stored1, stored2.
  split; [exact H1|]. split; [exact H2|]. split; [exact Ht1|]. split; [exact Ht2|].
  unfold same_but_updated_at in Hs2. cbn in Hs2.
  split; [exact (proj1 (proj2 Hs2))|].
  split; [exact (proj2 (proj2 (proj2 (proj2 (proj2 (proj2 (proj2 (proj2 (proj2 Hs2)))))))))|].
  exact Hs21.
Defined.

(** ** Scopes and filters *)

Lemma str_of_bool_eqb (a b : bool) :
  String.eqb (str_of_bool a) (str_of_bool b) = Bool.eqb a b.
Proof. destruct a, b; reflexivity. Qed.

Lemma where_and_matches (md : ChromaMetadata) (c extra : Where) :
  where_matches md (where_and c extra)
  = where_matches md c && where_matches md extra.
Proof.
  destruct c as [k v|cs|cs]; cbn.
  - now rewrite andb_true_r.
  - rewrite forallb_app. cbn. now rewrite andb_true_r.
  - now rewrite andb_true_r.
Qed.

Lemma where_or_types (md : ChromaMetadata) (ts : list MemoryType) :
  existsb (where_matches md) (WEq "memory_type" <$> (MemoryType_value <$> ts))
  = existsb (fun t => String.eqb (md_memory_type md) (MemoryType_value t)) ts.
Proof.
  induction ts as [|t ts IH]; cbn; [reflexivity|]. now rewrite IH.
Qed.

(** The filter of a search is the scope filter and, when memory types are
    given, their disjunction. *)
Lemma build_where_matches (md : ChromaMetadata) (uid : option string) (hive : bool)
    (types : option (list MemoryType)) :
  where_matches md (build_where uid hive types)
  = where_matches md (scope_where uid hive) && types_match types md.
Proof.
  unfold build_where, types_where, types_match.
  destruct types as [[|mt [|mt' mts]]|]; try now rewrite andb_true_r.
  - cbn [fmap list_fmap]. rewrite where_and_matches. cbn.
    now rewrite orb_false_r.
  - cbn [fmap list_fmap]. rewrite where_and_matches. f_equal.
    change (existsb (where_matches md)
              (WEq "memory_type" <$> (MemoryType_value <$> (mt :: mt' :: mts)))
            = existsb (fun t => String.eqb (md_memory_type md) (MemoryType_value t))
                (mt :: mt' :: mts)).
    apply where_or_types.
Qed.

Lemma scope_where_matches (md : ChromaMetadata) (uid : option string) (hive : bool) :
  where_matches md (scope_where uid hive)
  = String.eqb (md_is_hive_mind md) (str_of_bool hive) &&
    (if truthy_str uid && negb hive
     then String.eqb (md_user_id md) (default EmptyString uid)
     else true).
Proof.
  unfold scope_where. destruct (truthy_str uid && negb hive); cbn.
  - now rewrite andb_true_r.
  - now rewrite andb_true_r.
Qed.

(** What passing the filter of a call says about the record an entry
    describes. *)
Lemma filter_respects_scope (r : MemoryNode) (uid : option string) (hive : bool)
    (types : option (list MemoryType)) :
  where_matches (metadata_of r) (build_where uid hive types) = true ->
  is_hive_mind r = hive /\
  (truthy_str uid && negb hive = true -> user_id r = default EmptyString uid).
Proof.
  rewrite build_where_matches, scope_where_matches. cbn.
  rewrite str_of_bool_eqb. intros Hm.
  apply andb_prop in Hm as [Hm _]. apply andb_prop in Hm as [Hh Hu].
  split.
  - now apply Bool.eqb_prop.
  - intros Hp. rewrite Hp in Hu. now apply String.eqb_eq.
Qed.

Lemma recent_query_scope (r : MemoryNode) (uid : option string) (hive : bool) :
  recent_query uid hive r = true ->
  is_hive_mind r = hive /\
  (truthy_str uid && negb hive = true -> user_id r = default EmptyString uid).
Proof.
  unfold recent_query. intros Hq. apply andb_prop in Hq as [Hh Hu]. split.
  - now apply Bool.eqb_prop.
  - intros Hp. rewrite Hp in Hu. now apply String.eqb_eq.
Qed.

Lemma mongo_limit_In {A} (n : nat) (l : list A) (x : A) :
  In x (mongo_limit n l) -> In x l.
Proof.
  destruct n as [|n]; [trivial|]. cbn [mongo_limit]. intros Hx.
  rewrite <- (firstn_skipn (S n) l). apply in_or_app. now left.
Qed.

Lemma mongo_limit_all {A} (n : nat) (l : list A) :
  n = 0%nat \/ (length l <= n)%nat -> mongo_limit n l = l.
Proof.
  intros [->|Hn]; [reflexivity|].
  destruct n as [|n]; [reflexivity|]. cbn [mongo_limit]. now apply firstn_all2.
Qed.

Lemma insert_desc_length {A K} (leb : K -> K -> bool) (key : A -> K) (x : A)
    (l : list A) :
  length (insert_desc leb key x l) = S (length l).
Proof.
  induction l as [|y l IH]; cbn; [reflexivity|].
  destruct (leb (key y) (key x)); cbn; [reflexivity | now rewrite IH].
Qed.

Lemma sort_desc_length {A K} (leb : K -> K -> bool) (key : A -> K) (l : list A) :
  length (sort_desc leb key l) = length l.
Proof.
  induction l as [|x l IH]; [reflexivity|].
  change (sort_desc leb key (x :: l))
    with (insert_desc leb key x (sort_desc leb key l)).
  rewrite insert_desc_length, IH. reflexivity.
Qed.

(** ** The index describes the documents *)

Lemma candidates_spec (c : Where) (m : gmap string ChromaEntry) (i : string) :
  In i (map fst (chroma_candidates c m)) <->
  exists e, m !! i = Some e /\ where_matches (ce_metadata e) c = true.
Proof.
  unfold chroma_candidates. rewrite in_map_iff. split.
  - intros [[i' e] [Hi Hin]]. cbn in Hi. subst i'.
    apply filter_In in Hin as [Hin Hm]. exists e. split; [|exact Hm].
    apply elem_of_map_to_list, list_elem_of_In. exact Hin.
  - intros [e [Hl Hm]]. exists (i, e). split; [reflexivity|].
    apply filter_In. split; [|exact Hm].
    apply list_elem_of_In, elem_of_map_to_list. exact Hl.
Qed.

Lemma built_index_consistent (w : World) : built_by_saves w -> index_consistent w.
Proof.
  induction 1 as [w Hm Hc | w memory Hb IH Hfresh | w w' Hb IH Hm Hc].
  - intros i e Hl. rewrite Hc in Hl. now rewrite lookup_empty in Hl.
  - pose proof (save_memory_collections memory w) as Hs. cbv zeta in Hs.
    destruct Hs as [[Hm Hc] | [Hm Hc]]; intros i e Hl.
    + rewrite Hm. rewrite Hc in Hl. exact (IH i e Hl).
    + rewrite Hm.
      assert (Hold : chroma_collection w !! i = Some e ->
                In i (map memory_id (replace_one_upsert memory (memory_collection w))) /\
                forall d, In d (replace_one_upsert memory (memory_collection w)) ->
                          memory_id d = i -> ce_metadata e = metadata_of d).
      { intros Hl'. destruct (IH i e Hl') as [Hi Hd]. split.
        - now apply replace_one_upsert_ids.
        - intros d Hin Hid.
          apply replace_one_upsert_inv in Hin as [->|Hin]; [|now apply Hd].
          exfalso. apply Hfresh. now rewrite Hid. }
      destruct Hc as [Hc | [v [Hv Hc]]].
      * rewrite Hc in Hl. now apply Hold.
      * rewrite Hc in Hl. rewrite lookup_insert in Hl.
        destruct (decide (memory_id memory = i)) as [Heq|Hne]; [|now apply Hold].
        injection Hl as <-. subst i. split.
        -- apply in_map, replace_one_upsert_In.
        -- intros d Hin Hid.
           apply replace_one_upsert_inv in Hin as [->|Hin]; [reflexivity|].
           exfalso. apply Hfresh. rewrite <- Hid. now apply in_map.
  - intros i e Hl. rewrite Hm. rewrite Hc in Hl. exact (IH i e Hl).
Qed.

(** Under a consistent index, what a search returns lies in the scope its
    arguments select. *)
Lemma search_memories_in_scope `{VectorIndex} (q : list Q) (uid : option string)
    (hive : bool) (limit : nat) (types : option (list MemoryType)) (w : World)
    (found : list MemoryNode) (r : MemoryNode) :
  index_consistent w ->
  fst (search_memories q uid hive limit types w) = Ok found ->
  In r found ->
  is_hive_mind r = hive /\
  (truthy_str uid && negb hive = true -> user_id r = default EmptyString uid).
Proof.
  intros Hcons Hrun Hr. rewrite search_memories_result in Hrun.
  injection Hrun as <-.
  destruct (search_faulted w); [destruct Hr|].
  apply hydrate_In in Hr as [Hdoc Hid].
  apply nearest_candidates, candidates_spec in Hid as [e [Hl Hm]].
  destruct (Hcons _ _ Hl) as [_ Hmeta].
  rewrite (Hmeta r Hdoc eq_refl) in Hm.
  now apply filter_respects_scope in Hm.
Qed.

Lemma get_recent_memories_in_scope (uid : option string) (hive : bool) (limit : nat)
    (w : World) (found : list MemoryNode) (r : MemoryNode) :
  fst (get_recent_memories uid hive limit w) = Ok found ->
  In r found ->
  is_hive_mind r = hive /\
  (truthy_str uid && negb hive = true -> user_id r = default EmptyString uid).
Proof.
  intros Hrun Hr. rewrite get_recent_memories_result in Hrun.
  injection Hrun as <-.
  assert (Hin : In r (sort_desc Z.leb timestamp
                        (List.filter (recent_query uid hive) (memory_collection w)))).
  { destruct (pending_faults w) as [|[e|] fs]; try (now apply mongo_limit_In in Hr).
    destruct Hr. }
  apply sort_desc_In, filter_In in Hin as [_ Hq].
  now apply recent_query_scope.
Qed.

(** With the document store answering and no effective limit,
    [get_recent_memories] returns every document its query selects. *)
Lemma get_recent_memories_complete (uid : option string) (hive : bool) (limit : nat)
    (w : World) (r : MemoryNode) :
  next_call_succeeds w ->
  limit = 0%nat \/ (length (memory_collection w) <= limit)%nat ->
  In r (memory_collection w) ->
  recent_query uid hive r = true ->
  exists found w',
    get_recent_memories uid hive limit w = (Ok found, w') /\ In r found.
Proof.
  intros Hnext Hlimit Hdoc Hq.
  destruct (try_except_total
              (memory_docs <- mongo_find (recent_query uid hive) ;;
               ret (mongo_limit limit (sort_desc Z.leb timestamp memory_docs)))
              ERROR "Failed to get recent memories" [] w) as [found [w' Hrun]].
  exists found, w'. split; [exact Hrun|].
  pose proof (get_recent_memories_result uid hive limit w) as Hres.
  unfold get_recent_memories in Hres at 1. rewrite Hrun in Hres. cbn in Hres.
  injection Hres as ->.
  unfold next_call_succeeds in Hnext.
  assert (Hall : mongo_limit limit
                   (sort_desc Z.leb timestamp
                      (List.filter (recent_query uid hive) (memory_collection w)))
                 = sort_desc Z.leb timestamp
                     (List.filter (recent_query uid hive) (memory_collection w))).
  { apply mongo_limit_all. destruct Hlimit as [->|Hlen]; [now left | right].
    rewrite sort_desc_length.
    etransitivity; [apply filter_length_le | exact Hlen]. }
  destruct (pending_faults w) as [|[e|] fs]; try contradiction;
    rewrite Hall; apply sort_desc_In, filter_In; now split.
Qed.

(** ** The stores the program builds *)

Lemma same_stores_refl (w : World) : same_stores w w.
Proof. unfold same_stores. auto. Qed.

Lemma same_stores_trans (w1 w2 w3 : World) :
  same_stores w1 w2 -> same_stores w2 w3 -> same_stores w1 w3.
Proof.
  unfold same_stores. intros [Hm [Hc Hu]] [Hm' [Hc' Hu']].
  repeat split; [congruence | congruence | now transitivity (uuid_count w2)].
Qed.

Section KeepsStores.
Context {A B : Type}.

Lemma keeps_ret (a : A) : keeps_stores (ret a).
Proof. intros w. apply same_stores_refl. Qed.

Lemma keeps_raise (e : exn) : keeps_stores (@raise A e).
Proof. intros w. apply same_stores_refl. Qed.

Lemma keeps_lift (r : result A) : keeps_stores (lift r).
Proof. intros w. apply same_stores_refl. Qed.

Lemma keeps_bind (m : M A) (k : A -> M B) :
  keeps_stores m -> (forall a, keeps_stores (k a)) -> keeps_stores (bind m k).
Proof.
  intros Hm Hk w. unfold bind. specialize (Hm w).
  destruct (m w) as [[a|e] w1]; cbn in *; [|exact Hm].
  eapply same_stores_trans; [exact Hm | apply Hk].
Qed.

Lemma keeps_try_except (body : M A) (handler : exn -> M A) :
  keeps_stores body -> (forall e, keeps_stores (handler e)) ->
  keeps_stores (try_except body handler).
Proof.
  intros Hb Hh w. unfold try_except. specialize (Hb w).
  destruct (body w) as [[a|e] w1]; cbn in *; [exact Hb|].
  eapply same_stores_trans; [exact Hb | apply Hh].
Qed.

Lemma keeps_try_except_on (cls : exn -> bool) (body : M A) (handler : exn -> M A) :
  keeps_stores body -> (forall e, keeps_stores (handler e)) ->
  keeps_stores (try_except_on cls body handler).
Proof.
  intros Hb Hh w. unfold try_except_on. specialize (Hb w).
  destruct (body w) as [[a|e] w1]; cbn in *; [exact Hb|].
  destruct (cls e); cbn; [|exact Hb].
  eapply same_stores_trans; [exact Hb | apply Hh].
Qed.
End KeepsStores.

Lemma keeps_logger (lvl : LogLevel) (event : string) : keeps_stores (logger lvl event).
Proof. intros w. unfold same_stores. cbn. auto. Qed.

Lemma keeps_utcnow : keeps_stores utcnow.
Proof. intros w. apply same_stores_refl. Qed.

Lemma keeps_uuid4 : keeps_stores uuid4.
Proof. intros w. unfold same_stores. cbn. auto. Qed.

Lemma keeps_round_trip : keeps_stores round_trip.
Proof.
  intros w. unfold round_trip.
  destruct (pending_faults w) as [|[e|] fs]; unfold same_stores; cbn; auto.
Qed.

Create HintDb keeps.

#[local] Hint Resolve keeps_ret keeps_raise keeps_lift keeps_logger keeps_utcnow
  keeps_uuid4 keeps_round_trip : keeps.

(** Decomposition of a computation along its binds, handlers and cases. *)
Ltac keeps :=
  repeat first
    [ apply keeps_bind; [|intros ?]
    | apply keeps_try_except_on; [|intros ?]
    | apply keeps_try_except; [|intros ?]
    | match goal with
      | |- keeps_stores (match ?x with _ => _ end) => destruct x
      end
    | solve [auto with keeps] ].

Lemma keeps_update_user_identity (identity : UserIdentity) :
  keeps_stores (update_user_identity identity).
Proof.
  unfold update_user_identity, mongo_replace_identity. keeps.
Qed.

Lemma keeps_extract_memory_signals `{JSONDecoder} (self : ShivaAgent)
    (conversation : Conversation) (user_identity : option UserIdentity) :
  keeps_stores (_extract_memory_signals self conversation user_identity).
Proof.
  unfold _extract_memory_signals, parse_signals. keeps.
Qed.

Lemma keeps_create_memory_node (self : ShivaAgent) (uid : string) (signal : Signal)
    (conversation : Conversation) :
  keeps_stores (_create_memory_node self uid signal conversation).
Proof.
  unfold _create_memory_node. keeps.
Qed.

(** The id of a record made from a signal is the next id of the supply. *)
Lemma create_memory_node_id (self : ShivaAgent) (uid : string) (signal : Signal)
    (conversation : Conversation) (w w' : World) (node : MemoryNode) :
  _create_memory_node self uid signal conversation w = (Ok (Some node), w') ->
  memory_id node = uuid_text (uuid_count w) /\ (uuid_count w < uuid_count w')%nat.
Proof.
  unfold _create_memory_node. run.
  set (first := match embeddings self with Some _ => _ | None => _ end).
  assert (Hcount : uuid_count (snd (first w)) = uuid_count w).
  { subst first. destruct (embeddings self) as [embed_query|]; [|reflexivity].
    destruct (embed_query (sig_content signal)); reflexivity. }
  destruct (first w) as [[emb|e] w1]; cbn in Hcount |- *; [|discriminate].
  assert (Htype : MemoryType_of (sig_memory_type signal) = Raise ValueError \/
                  exists mt, MemoryType_of (sig_memory_type signal) = Ok mt).
  { unfold MemoryType_of. destruct (sig_memory_type signal); auto.
    repeat (destruct (String.eqb _ _); eauto). }
  destruct (sig_content signal) as [| | | |text| |];
    try (destruct Htype as [-> | [mt ->]]; cbn; discriminate).
  destruct (validate_str_list (sig_tags signal)) as [tag_list|e];
    [|destruct Htype as [-> | [mt ->]]; cbn; discriminate].
  destruct Htype as [-> | [mt ->]]; cbn; intros [= <- <-]; cbn;
    rewrite Hcount; auto.
Qed.

Lemma to_uint_nonnil (n : nat) : Nat.to_uint n <> Decimal.Nil.
Proof.
  rewrite <- (DecimalNat.Unsigned.of_to n), DecimalNat.Unsigned.to_of.
  apply DecimalFacts.unorm_nonnil.
Qed.

Lemma uuid_text_inj (n k : nat) : uuid_text n = uuid_text k -> n = k.
Proof.
  unfold uuid_text. cbn. intros [= Heq].
  change (NilZero.string_of_uint (Nat.to_uint n)
          = NilZero.string_of_uint (Nat.to_uint k)) in Heq.
  assert (Hparse : Some (Nat.to_uint n) = Some (Nat.to_uint k)).
  { rewrite <- (NilZero.usu (Nat.to_uint n) (to_uint_nonnil n)), Heq.
    apply NilZero.usu, to_uint_nonnil. }
  injection Hparse as Hd.
  rewrite <- (DecimalNat.Unsigned.of_to n), Hd. apply DecimalNat.Unsigned.of_to.
Qed.

Lemma save_memory_uuid_count (memory : MemoryNode) (w : World) :
  uuid_count (snd (save_memory memory w)) = uuid_count w.
Proof.
  unfold save_memory, save_memory_body, mongo_replace_memory, chroma_upsert. run.
  destruct (pending_faults w) as [|[e|] fs] eqn:E; cbn; auto.
  - destruct (embedding memory) as [[|x v]|]; cbn; rewrite ?E; cbn; auto.
  - destruct (embedding memory) as [[|x v]|]; cbn; auto.
    destruct fs as [|[e|] fs]; cbn; auto.
Qed.

Lemma save_memory_documents (memory d : MemoryNode) (w : World) :
  In d (memory_collection (snd (save_memory memory w))) ->
  d = memory \/ In d (memory_collection w).
Proof.
  pose proof (save_memory_collections memory w) as Hs. cbv zeta in Hs.
  destruct Hs as [[-> _] | [-> _]]; [auto | apply replace_one_upsert_inv].
Qed.

Lemma well_built_same_stores (w w' : World) :
  well_built w -> same_stores w w' -> well_built w'.
Proof.
  intros [Hb Hi] [Hm [Hc Hu]]. split.
  - now apply built_elsewhere with w.
  - intros d Hd. rewrite Hm in Hd. destruct (Hi d Hd) as [k [Hk Hid]].
    exists k. split; [|exact Hid]. eapply Nat.lt_le_trans; eauto.
Qed.

Lemma keeps_stores_well_built {A} (m : M A) : keeps_stores m -> keeps_well_built m.
Proof.
  intros Hm w Hw. eapply well_built_same_stores; [exact Hw | apply Hm].
Qed.

Lemma keeps_well_built_bind {A B} (m : M A) (k : A -> M B) :
  keeps_well_built m -> (forall a, keeps_well_built (k a)) ->
  keeps_well_built (bind m k).
Proof.
  intros Hm Hk w Hw. unfold bind. specialize (Hm w Hw).
  destruct (m w) as [[a|e] w1]; cbn in *; [now apply Hk | exact Hm].
Qed.

Lemma keeps_well_built_try_except {A} (body : M A) (handler : exn -> M A) :
  keeps_well_built body -> (forall e, keeps_well_built (handler e)) ->
  keeps_well_built (try_except body handler).
Proof.
  intros Hb Hh w Hw. unfold try_except. specialize (Hb w Hw).
  destruct (body w) as [[a|e] w1]; cbn in *; [exact Hb | now apply Hh].
Qed.

(** Saving a record under the id just issued keeps the stores well built. *)
Lemma well_built_save_issued (node : MemoryNode) (n : nat) (w : World) :
  built_by_saves w ->
  (forall d, In d (memory_collection w) ->
     exists k, (k < n)%nat /\ memory_id d = uuid_text k) ->
  memory_id node = uuid_text n ->
  (n < uuid_count w)%nat ->
  well_built (snd (save_memory node w)).
Proof.
  intros Hb Hbelow Hid Hn. split.
  - apply built_save; [exact Hb|].
    intros Hin. apply in_map_iff in Hin as [d [Hd Hin]].
    destruct (Hbelow d Hin) as [k [Hk Hdk]].
    rewrite Hid, Hdk in Hd. apply uuid_text_inj in Hd. subst k.
    exact (Nat.lt_irrefl n Hk).
  - intros d Hd. rewrite save_memory_uuid_count.
    apply save_memory_documents in Hd as [->|Hd].
    + exists n. auto.
    + destruct (Hbelow d Hd) as [k [Hk Hdk]]. exists k. split; [|exact Hdk].
      now transitivity n.
Qed.

Lemma keeps_well_built_save_signals (self : ShivaAgent) (uid : string)
    (conversation : Conversation) (signals : list Signal) (ids : list string) :
  memory_storage self = mongo_chroma_storage ->
  keeps_well_built (save_signals self uid conversation signals ids).
Proof.
  intros Hstorage. revert ids.
  induction signals as [|signal rest IH]; intros ids w Hw; cbn [save_signals].
  - exact Hw.
  - unfold bind at 1.
    pose proof (keeps_create_memory_node self uid signal conversation w) as Hkeeps.
    destruct (_create_memory_node self uid signal conversation w)
      as [[[node|]|e] w1] eqn:Hmade; cbn in Hkeeps.
    + destruct (create_memory_node_id _ _ _ _ _ _ _ Hmade) as [Hid Hcount].
      assert (Hw2 : well_built (snd (save_memory node w1))).
      { destruct Hw as [Hb Hi]. destruct Hkeeps as [Hm [Hc Hu]].
        apply well_built_save_issued with (n := uuid_count w).
        - now apply built_elsewhere with w.
        - intros d Hd. rewrite Hm in Hd. exact (Hi d Hd).
        - exact Hid.
        - exact Hcount. }
      rewrite Hstorage. cbn [st_save_memory mongo_chroma_storage].
      unfold bind at 1.
      destruct (save_memory node w1) as [[id|e] w2]; cbn in Hw2 |- *.
      * now apply IH.
      * exact Hw2.
    + apply IH. now apply well_built_same_stores with w.
    + cbn. now apply well_built_same_stores with w.
Qed.

Lemma keeps_well_built_process `{JSONDecoder} (self : ShivaAgent) (uid : string)
    (conversation : Conversation) (user_identity : option UserIdentity) :
  memory_storage self = mongo_chroma_storage ->
  keeps_well_built (process self uid conversation user_identity).
Proof.
  intros Hstorage. unfold process, process_body.
  apply keeps_well_built_bind; [apply keeps_stores_well_built, keeps_logger|].
  intros _. apply keeps_well_built_try_except.
  - apply keeps_well_built_bind;
      [apply keeps_stores_well_built, keeps_extract_memory_signals|].
    intros signals. apply keeps_well_built_bind;
      [now apply keeps_well_built_save_signals|].
    intros ids. apply keeps_stores_well_built.
    rewrite Hstorage. cbn [st_update_user_identity mongo_chroma_storage].
    keeps.
  - intros e. apply keeps_stores_well_built. keeps.
Qed.

Lemma keeps_well_built_create_hive_mind_memory (self : ShivaAgent) (uid text : string)
    (mt : MemoryType) (tag_list : option (list string)) :
  memory_storage self = mongo_chroma_storage ->
  keeps_well_built (create_hive_mind_memory self uid text mt tag_list).
Proof.
  intros Hstorage w Hw. unfold create_hive_mind_memory.
  rewrite Hstorage. cbn [st_save_memory mongo_chroma_storage]. run.
  assert (Hlog : forall lvl event w0,
            well_built w0 -> well_built (with_log (log w0 ++ [(lvl, event)]) w0)).
  { intros lvl event w0 Hw0. apply well_built_same_stores with w0; [exact Hw0|].
    apply (keeps_logger lvl event w0). }
  assert (Hsave : forall emb,
            well_built
              (snd (save_memory
                      {| memory_id := uuid_text (uuid_count w);
                         user_id := uid;
                         content := text;
                         memory_type := mt;
                         timestamp := clock w;
                         tags := default [] tag_list;
                         recency_value := 1%Q;
                         source := "hive_mind";
                         embedding := emb;
                         conversation_context := None;
                         system_prompt_snippet := None;
                         is_hive_mind := true |}
                      (with_uuid_count (S (uuid_count w)) w)))).
  { intros emb. destruct Hw as [Hb Hi].
    apply well_built_save_issued with (n := uuid_count w).
    - now apply built_elsewhere with w.
    - exact Hi.
    - reflexivity.
    - cbn. apply Nat.lt_succ_diag_r. }
  destruct (embeddings self) as [embed_query|].
  - destruct (embed_query (PStr text)) as [v|e]; cbn; [|now apply Hlog].
    specialize (Hsave (Some v)).
    destruct (save_memory _ _) as [[id|e] w2]; cbn in *; now apply Hlog.
  - cbn. specialize (Hsave None).
    destruct (save_memory _ _) as [[id|e] w2]; cbn in *; now apply Hlog.
Qed.

(** Every state the program reaches has its stores built by saves under
    fresh ids. *)
Lemma reachable_well_built `{JSONDecoder} (w : World) : reachable w -> well_built w.
Proof.
  induction 1 as [w Hm Hc | self uid conversation identity w Hs _ IH
                 | self uid text mt tag_list w Hs _ IH | identity w _ IH
                 | t fs w _ IH].
  - split; [now apply built_empty|]. intros d Hd. rewrite Hm in Hd. destruct Hd.
  - now apply keeps_well_built_process.
  - now apply keeps_well_built_create_hive_mind_memory.
  - exact (keeps_stores_well_built _ (keeps_update_user_identity identity) w IH).
  - apply well_built_same_stores with w; [exact IH|].
    unfold same_stores. cbn. auto.
Qed.

Lemma reachable_built `{JSONDecoder} (w : World) : reachable w -> built_by_saves w.
Proof. intros Hw. exact (proj1 (reachable_well_built w Hw)). Qed.

(** ** Scope isolation *)

Lemma scope_of_call_personal (uid : option string) (hive : bool) (B : string) :
  scope_of_call uid hive = Some (Personal B) ->
  hive = false /\ truthy_str uid = true /\ default EmptyString uid = B.
Proof.
  unfold scope_of_call. destruct hive; [discriminate|].
  destruct (truthy_str uid); [|discriminate].
  intros [= <-]. auto.
Qed.

Lemma scope_of_call_shared (uid : option string) (hive : bool) :
  scope_of_call uid hive = Some Shared -> hive = true.
Proof.
  unfold scope_of_call. destruct hive; [reflexivity|].
  destruct (truthy_str uid); discriminate.
Qed.

(** C4: a personal record of owner A is returned neither by a recent query
    nor, in a store built by saving records under ids not used before (as
    every state the program reaches is, [reachable_built]), by a search
    scoped to the personal space of another owner B, nor by one scoped to
    the shared pool; and a stored shared record passes the filter of every
    search of the shared pool that admits its memory type, and is returned
    by the recent query of the shared pool, whatever owner id the call
    carries, when the document store answers and the limit does not cut the
    list. *)
Theorem scope_isolation `{VectorIndex} (w : World) (r : MemoryNode) (q : list Q)
    (uid : option string) (hive : bool) (limit : nat)
    (types : option (list MemoryType)) :
  (is_hive_mind r = false ->
   forall found,
     fst (get_recent_memories uid hive limit w) = Ok found \/
     (built_by_saves w /\
      fst (search_memories q uid hive limit types w) = Ok found) ->
     (forall B, scope_of_call uid hive = Some (Personal B) ->
                B <> user_id r -> ~ In r found) /\
     (scope_of_call uid hive = Some Shared -> ~ In r found)) /\
  (is_hive_mind r = true ->
   scope_of_call uid hive = Some Shared ->
   (forall v,
      chroma_collection w !! memory_id r = Some (index_entry_of r v) ->
      types_match types (metadata_of r) = true ->
      In (memory_id r)
         (map fst (chroma_candidates (build_where uid hive types)
                     (chroma_collection w)))) /\
   (In r (memory_collection w) ->
    next_call_succeeds w ->
    limit = 0%nat \/ (length (memory_collection w) <= limit)%nat ->
    exists found w',
      get_recent_memories uid hive limit w = (Ok found, w') /\ In r found)).
Proof.
  split.
  - intros Hpersonal found Hrun.
    assert (Hscope : In r found ->
              is_hive_mind r = hive /\
              (truthy_str uid && negb hive = true ->
               user_id r = default EmptyString uid)).
    { intros Hr. destruct Hrun as [Hrun | [Hbuilt Hrun]].
      - eapply get_recent_memories_in_scope; eauto.
      - eapply search_memories_in_scope; eauto using built_index_consistent. }
    split.
    + intros B HB Hne Hr.
      apply scope_of_call_personal in HB as [-> [Huid <-]].
      destruct (Hscope Hr) as [_ Hu]. apply Hne. symmetry. apply Hu.
      now rewrite Huid.
    + intros HS Hr. apply scope_of_call_shared in HS as ->.
      destruct (Hscope Hr) as [Hh _]. congruence.
  - intros Hshared HS. apply scope_of_call_shared in HS as ->. split.
    + intros v Hentry Htypes. apply candidates_spec.
      exists (index_entry_of r v). split; [exact Hentry|].
      rewrite build_where_matches, scope_where_matches. cbn.
      rewrite Hshared, Htypes. cbn. now rewrite andb_false_r.
    + intros Hdoc Hnext Hlimit.
      apply get_recent_memories_complete; try assumption.
      unfold recent_query. rewrite Hshared. cbn. now rewrite andb_false_r.
Qed.

Lemma chat_world_reachable : reachable chat_world.
Proof.
  unfold chat_world.
  apply reach_create_hive_mind_memory; [reflexivity|].
  apply reach_process; [reflexivity|].
  apply reach_process; [reflexivity|].
  now apply reach_start.
Qed.

Lemma scope_isolation_witness :
  reachable chat_world /\
  map (fun d => (memory_id d, user_id d, is_hive_mind d)) (memory_collection chat_world)
    = [("uuid-0", "alice", false); ("uuid-1", "bob", false); ("uuid-2", "alice", true)] /\
  (forall r found,
     user_id r = "alice" ->
     is_hive_mind r = false ->
     fst (get_recent_memories (Some "bob") false 3 chat_world) = Ok found \/
     fst (search_memories [1%Q; 0%Q] (Some "bob") false 3 None chat_world) = Ok found ->
     ~ In r found) /\
  (forall r,
     In r (memory_collection chat_world) ->
     is_hive_mind r = true ->
     exists found w',
       get_recent_memories (Some "bob") true 3 chat_world = (Ok found, w') /\
       In r found).
Proof.
  split; [exact chat_world_reachable|]. split; [reflexivity|]. split.
  - intros r found Hr Hp Hrun.
    refine (proj1 (proj1 (scope_isolation chat_world r [1%Q; 0%Q]
                            (Some "bob") false 3 None)
                     Hp found _) "bob" eq_refl _).
    + destruct Hrun as [Hrun|Hrun]; [now left | right].
      split; [exact (reachable_built _ chat_world_reachable) | exact Hrun].
    + rewrite Hr. discriminate.
  - intros r Hdoc Hs.
    refine (proj2 (proj2 (scope_isolation chat_world r [1%Q; 0%Q]
                            (Some "bob") true 3 None)
                     Hs eq_refl) Hdoc _ _).
    + vm_compute. exact I.
    + right. vm_compute. auto.
Defined.

(** C10: when the hive-mind flag is off and no owner id is supplied (it is
    absent or empty), the call selects neither scope: the filter of the
    search keeps the flag (and the memory types, when given) only, the recent
    query keeps the flag only, so the personal records of every owner are
    candidates of the search and are returned by the recent query. *)
Theorem ownerless_query_spans_owners `{VectorIndex} (uid : option string)
    (limit : nat) (types : option (list MemoryType)) (w : World) (r : MemoryNode) :
  truthy_str uid = false ->
  scope_of_call uid false = None /\
  scope_where uid false = WEq "is_hive_mind" "False" /\
  (forall md,
     where_matches md (build_where uid false types)
     = String.eqb (md_is_hive_mind md) "False" && types_match types md) /\
  (forall d, recent_query uid false d = negb (is_hive_mind d)) /\
  (is_hive_mind r = false ->
   (forall v,
      chroma_collection w !! memory_id r = Some (index_entry_of r v) ->
      types_match types (metadata_of r) = true ->
      In (memory_id r)
         (map fst (chroma_candidates (build_where uid false types)
                     (chroma_collection w)))) /\
   (In r (memory_collection w) ->
    next_call_succeeds w ->
    limit = 0%nat \/ (length (memory_collection w) <= limit)%nat ->
    exists found w',
      get_recent_memories uid false limit w = (Ok found, w') /\ In r found)).
Proof.
  intros Huid.
  assert (Hmatch : forall md,
            where_matches md (build_where uid false types)
            = String.eqb (md_is_hive_mind md) "False" && types_match types md).
  { intros md. rewrite build_where_matches, scope_where_matches, Huid. cbn.
    now rewrite andb_true_r. }
  assert (Hquery : forall d, recent_query uid false d = negb (is_hive_mind d)).
  { intros d. unfold recent_query. rewrite Huid. cbn.
    rewrite andb_true_r. now destruct (is_hive_mind d). }
  split; [unfold scope_of_call; now rewrite Huid|].
  split; [unfold scope_where; now rewrite Huid|].
  split; [exact Hmatch|]. split; [exact Hquery|].
  intros Hpersonal. split.
  - intros v Hentry Htypes. apply candidates_spec.
    exists (index_entry_of r v). split; [exact Hentry|].
    rewrite Hmatch. cbn. rewrite Hpersonal, Htypes. reflexivity.
  - intros Hdoc Hnext Hlimit.
    apply get_recent_memories_complete; try assumption.
    rewrite Hquery, Hpersonal. reflexivity.
Qed.

Lemma ownerless_query_spans_owners_witness :
  fst (search_memories [1%Q; 0%Q] (Some EmptyString) false 3 None two_users_world)
    = Ok [bob_note; alice_note] /\
  fst (get_recent_memories (Some EmptyString) false 3 two_users_world)
    = Ok [bob_note; alice_note] /\
  exists found w',
    get_recent_memories (Some EmptyString) false 3 two_users_world = (Ok found, w') /\
    In alice_note found.
Proof.
  split; [reflexivity|]. split; [reflexivity|].
  refine (proj2 (proj2 (proj2 (proj2 (proj2
            (ownerless_query_spans_owners (Some EmptyString) 3 None
               two_users_world alice_note eq_refl)))) eq_refl) _ I _).
  - vm_compute. auto.
  - right. vm_compute. auto.
Defined.

(** ** Signal extraction *)

(** C2 (as amended): when extraction is enabled and the response of the
    model holds no bracketed text, or holds one that the decoder rejects
    with a JSON decode error, [_extract_memory_signals] returns the empty
    list of signals, without a fallback signal; when the decoder fails with
    any other error it returns the one signal of the failure handler, whose
    content is [Conversation about: ] and the first 100 characters of the
    user text, without the reply.  In neither case is the result the
    raw-trace signal carrying user text and reply, which is what a call
    returns when extraction is disabled; the stores are left as they
    were. *)
Theorem extract_unparseable_gives_no_signal `{JSONDecoder}
    (self : ShivaAgent) (conversation : Conversation)
    (user_identity : option UserIdentity) (invoke : string -> result string)
    (response_text : string) (w : World) :
  extraction_llm self = Some invoke ->
  invoke (extraction_prompt (memory_types self) conversation) = Ok response_text ->
  (located_array response_text = None \/
   exists json_str e,
     located_array response_text = Some json_str /\
     json_loads json_str = Raise e) ->
  (exists signals w',
     _extract_memory_signals self conversation user_identity w = (Ok signals, w') /\
     memory_collection w' = memory_collection w /\
     chroma_collection w' = chroma_collection w /\
     (located_array response_text = None -> signals = []) /\
     (forall json_str,
        located_array response_text = Some json_str ->
        json_loads json_str = Raise JSONDecodeError ->
        signals = []) /\
     (forall json_str e,
        located_array response_text = Some json_str ->
        json_loads json_str = Raise e ->
        e <> JSONDecodeError ->
        signals
        = [{| sig_content :=
                PStr ("Conversation about: "
                      ++ str_prefix 100 (user_message conversation));
              sig_memory_type := PStr "factual";
              sig_tags := [] |}]) /\
     signals <> [raw_trace_signal conversation]) /\
  (forall disabled w0,
     extraction_llm disabled = None ->
     _extract_memory_signals disabled conversation user_identity w0
       = (Ok [{| sig_content :=
                   PStr ("User: " ++ user_message conversation ++ nl ++
                         "Assistant: " ++ assistant_response conversation);
                 sig_memory_type := PStr "factual";
                 sig_tags := [] |}], w0) /\
     _extract_memory_signals disabled conversation user_identity w0
       = (Ok [raw_trace_signal conversation], w0)).
Proof.
  intros Hllm Hresp Hparse. split.
  - unfold _extract_memory_signals, parse_signals. rewrite Hllm. run. rewrite Hresp.
    destruct Hparse as [Hnone | [json_str [e [Hsome Hdec]]]].
    + rewrite Hnone. cbn. eexists _, _. split; [reflexivity|]. cbn.
      repeat split; try discriminate.
    + rewrite Hsome. cbn. rewrite Hdec. cbn.
      destruct e; cbn; (eexists _, _; split; [reflexivity|]); cbn;
        (split; [reflexivity|]); (split; [reflexivity|]);
        (split; [discriminate|]);
        (split; [intros j Hj Hd; injection Hj as <-; rewrite Hdec in Hd;
                 first [reflexivity | discriminate Hd] |]);
        (split; [intros j e' Hj Hd Hne; injection Hj as <-; rewrite Hdec in Hd;
                 injection Hd as <-; first [reflexivity | now contradiction Hne] |]);
        discriminate.
  - intros disabled w0 Hnone. unfold _extract_memory_signals. rewrite Hnone.
    split; reflexivity.
Qed.

Lemma extract_unparseable_gives_no_signal_witness :
  located_array "Noted: [not json]" = Some "[not json]" /\
  json_loads "[not json]" = Raise JSONDecodeError /\
  exists w',
    _extract_memory_signals (agent_answering "Noted: [not json]")
      bangalore_conversation None empty_world = (Ok [], w') /\
    memory_collection w' = memory_collection empty_world /\
    chroma_collection w' = chroma_collection empty_world.
Proof.
  split; [reflexivity|]. split; [reflexivity|].
  destruct (extract_unparseable_gives_no_signal
              (agent_answering "Noted: [not json]")
              bangalore_conversation None (fun _ => Ok "Noted: [not json]")
              "Noted: [not json]" empty_world eq_refl eq_refl)
    as [[signals [w' [Hrun [Hdocs [Hindex [_ [Hempty _]]]]]]] _].
  - right. exists "[not json]", JSONDecodeError. split; reflexivity.
  - exists w'. rewrite <- (Hempty "[not json]" eq_refl eq_refl).
    split; [exact Hrun|]. split; [exact Hdocs | exact Hindex].
Defined.

(** C2, as stated, fails: the model answers with a text that holds no array,
    and the extraction returns no signal at all instead of one fallback
    signal carrying the user text and the reply. *)
Lemma extract_unparseable_counterexample :
  located_array "Nothing to remember here." = None /\
  fst (_extract_memory_signals (agent_answering "Nothing to remember here.")
         bangalore_conversation None empty_world) = Ok [].
Proof.
  split; reflexivity.
Qed.

(** ** The update stage *)

Lemma create_memory_node_total (self : ShivaAgent) (uid : string) (signal : Signal)
    (conversation : Conversation) (w : World) :
  exists made w', _create_memory_node self uid signal conversation w = (Ok made, w').
Proof.
  unfold _create_memory_node. apply try_except_total.
Qed.

(** With a storage whose [save_memory] always raises, the loop over the
    signals raises or ends with the ids it started from. *)
Lemma save_signals_failing (self : ShivaAgent) (uid : string)
    (conversation : Conversation) (signals : list Signal) (ids : list string)
    (w : World) :
  (forall node w0, exists e w1,
     st_save_memory (memory_storage self) node w0 = (Raise e, w1)) ->
  (exists e w', save_signals self uid conversation signals ids w = (Raise e, w')) \/
  (exists w', save_signals self uid conversation signals ids w = (Ok ids, w')).
Proof.
  intros Hfail. revert w.
  induction signals as [|signal rest IH]; intros w; cbn [save_signals].
  - right. exists w. reflexivity.
  - unfold bind.
    destruct (create_memory_node_total self uid signal conversation w)
      as [made [w1 Hmade]].
    rewrite Hmade. destruct made as [node|].
    + left. destruct (Hfail node w1) as [e [w2 Hsave]]. rewrite Hsave. eauto.
    + apply IH.
Qed.

(** C3: [process] never raises; and when the update stage fails, in
    particular when every call to the storage's [save_memory] raises,
    it returns the empty list of memory ids. *)
Theorem process_isolates_memory_failures `{JSONDecoder}
    (self : ShivaAgent) (uid : string) (full_conversation : Conversation)
    (user_identity : option UserIdentity) (w : World) :
  (exists ids w', process self uid full_conversation user_identity w = (Ok ids, w')) /\
  ((exists e w1,
      process_body self uid full_conversation user_identity
        (snd (logger INFO "Shiva processing started" w)) = (Raise e, w1)) \/
   (forall node w0, exists e w1,
      st_save_memory (memory_storage self) node w0 = (Raise e, w1)) ->
   exists w', process self uid full_conversation user_identity w = (Ok [], w')).
Proof.
  split.
  - unfold process. unfold bind at 1. cbn [logger].
    apply try_except_total.
  - intros Hfails.
    assert (Hbody : forall w0,
              (exists e w1, process_body self uid full_conversation user_identity w0
                            = (Raise e, w1)) ->
              exists w', try_except
                           (process_body self uid full_conversation user_identity)
                           (fun e => logger ERROR "Failed to process memory update" ;;;
                                     ret []) w0 = (Ok [], w')).
    { intros w0 [e [w1 Hraise]]. unfold try_except at 1. rewrite Hraise.
      run. eauto. }
    unfold process. unfold bind at 1. cbn [logger].
    destruct Hfails as [Hraise | Hsave]; [now apply Hbody|].
    set (w0 := with_log _ w).
    destruct (process_body self uid full_conversation user_identity w0)
      as [[ids|e] w1] eqn:Hrun; [|apply Hbody; eauto].
    unfold try_except at 1. rewrite Hrun. exists w1. repeat f_equal.
    unfold process_body in Hrun. unfold bind at 1 in Hrun.
    destruct (_extract_memory_signals self full_conversation user_identity w0)
      as [[signals|e] w2]; [|discriminate].
    unfold bind at 1 in Hrun.
    destruct (save_signals_failing self uid full_conversation signals [] w2 Hsave)
      as [[e [w3 Hloop]] | [w3 Hloop]]; rewrite Hloop in Hrun; [discriminate|].
    unfold bind at 1 in Hrun.
    destruct user_identity as [identity|].
    + unfold bind at 1 in Hrun.
      destruct (st_update_user_identity (memory_storage self) identity w3)
        as [[b|e] w4]; [|discriminate].
      cbn in Hrun. now injection Hrun as <- _.
    + cbn in Hrun. now injection Hrun as <- _.
Qed.

Lemma process_isolates_memory_failures_witness :
  exists w',
    process (plain_agent failing_storage) "u1" bangalore_conversation
      (Some alice_identity) empty_world = (Ok [], w').
Proof.
  apply (process_isolates_memory_failures (plain_agent failing_storage) "u1"
           bangalore_conversation (Some alice_identity) empty_world).
  right. intros node w0.
  exists (ServiceError "document store unreachable"), w0. reflexivity.
Defined.

(** ** Validation of signals and the records made from them *)

Lemma validate_str_list_spec (l : list pyval) (r : list string) :
  validate_str_list l = Ok r -> l = map PStr r.
Proof.
  revert r. induction l as [|v l IH]; intros r; cbn.
  - now intros [= <-].
  - destruct v; cbn; try discriminate.
    destruct (validate_str_list l) as [r'|e]; [|discriminate].
    intros [= <-]. cbn. now rewrite (IH r' eq_refl).
Qed.

(** What [_create_memory_node] returns when it returns a record. *)
Lemma create_memory_node_made (self : ShivaAgent) (uid : string) (signal : Signal)
    (conversation : Conversation) (w w' : World) (node : MemoryNode) :
  _create_memory_node self uid signal conversation w = (Ok (Some node), w') ->
  sig_content signal = PStr (content node) /\
  sig_tags signal = map PStr (tags node) /\
  memory_type node
    = match MemoryType_of (sig_memory_type signal) with
      | Ok mt => mt
      | Raise _ => FACTUAL
      end /\
  user_id node = uid /\
  is_hive_mind node = false.
Proof.
  unfold _create_memory_node. run.
  set (first := match embeddings self with Some _ => _ | None => _ end).
  destruct (first w) as [[emb|e] w1]; cbn; [|discriminate].
  assert (Htype : MemoryType_of (sig_memory_type signal) = Raise ValueError \/
                  exists mt, MemoryType_of (sig_memory_type signal) = Ok mt).
  { unfold MemoryType_of. destruct (sig_memory_type signal); auto.
    repeat (destruct (String.eqb _ _); eauto). }
  destruct (sig_content signal) as [| | | |text| |] eqn:Hcontent;
    try (destruct Htype as [-> | [mt ->]]; cbn; discriminate).
  destruct (validate_str_list (sig_tags signal)) as [tag_list|e] eqn:Htags;
    [|destruct Htype as [-> | [mt ->]]; cbn; discriminate].
  apply validate_str_list_spec in Htags.
  destruct Htype as [-> | [mt ->]]; cbn; intros [= <- _]; cbn; auto.
Qed.

(** C8 (as amended): validation drops a parsed signal exactly when it is not
    an object or has no [content] key, so that an empty content is accepted;
    it keeps the content as it is, sets an absent memory type to [factual]
    and replaces tags that are not a list by the empty list; and a record
    made from a signal carries the content of the signal, possibly empty,
    the memory type the signal names, or [FACTUAL] when it names none of the
    four, and belongs to the personal space of the user. *)
Theorem signal_validation_requires_content_key
    (self : ShivaAgent) (uid : string) (conversation : Conversation)
    (parsed : pyval) (signal : Signal) (w : World) :
  (validate_signal parsed = None <->
   forall d, parsed = PDict d -> dict_has "content" d = false) /\
  (forall d, parsed = PDict d -> dict_has "content" d = true ->
     exists c,
       dict_get "content" d = Some c /\
       validate_signal parsed
       = Some {| sig_content := c;
                 sig_memory_type :=
                   match dict_get "memory_type" d with
                   | Some t => t
                   | None => PStr "factual"
                   end;
                 sig_tags :=
                   match dict_get "tags" d with
                   | Some (PList l) => l
                   | _ => []
                   end |}) /\
  (exists made w',
     _create_memory_node self uid signal conversation w = (Ok made, w') /\
     forall node, made = Some node ->
       sig_content signal = PStr (content node) /\
       sig_tags signal = map PStr (tags node) /\
       memory_type node
         = match MemoryType_of (sig_memory_type signal) with
           | Ok mt => mt
           | Raise _ => FACTUAL
           end /\
       user_id node = uid /\
       is_hive_mind node = false).
Proof.
  split; [|split].
  - unfold validate_signal. destruct parsed as [| | | | | |d]; try (split; [discriminate|reflexivity]).
    destruct (dict_has "content" d) eqn:Hhas; split.
    + discriminate.
    + intros Hall. specialize (Hall d eq_refl). congruence.
    + intros _ d' [= <-]. exact Hhas.
    + reflexivity.
  - intros d -> Hhas. unfold validate_signal. rewrite Hhas.
    unfold dict_has in Hhas.
    destruct (dict_get "content" d) as [c|]; [|discriminate].
    exists c. split; [reflexivity|].
    cbn. destruct (dict_get "memory_type" d); reflexivity.
  - destruct (create_memory_node_total self uid signal conversation w)
      as [made [w' Hrun]].
    exists made, w'. split; [exact Hrun|].
    intros node ->. eapply create_memory_node_made. exact Hrun.
Qed.

(** C8, as stated, fails: a signal whose content is the empty string passes
    validation, and the record made from it and saved has empty content. *)
Lemma empty_content_signal_counterexample :
  validate_signal (PDict [("content", PStr EmptyString)])
    = Some {| sig_content := PStr EmptyString;
              sig_memory_type := PStr "factual";
              sig_tags := [] |} /\
  located_array empty_content_response = Some empty_content_response /\
  json_loads empty_content_response
    = Ok (PList [PDict [("content", PStr EmptyString); ("memory_type", PStr "mood")]]) /\
  fst (process (agent_answering empty_content_response) "u1"
         bangalore_conversation None empty_world) = Ok ["uuid-0"] /\
  map (fun d => (memory_id d, content d, memory_type d))
    (memory_collection
       (snd (process (agent_answering empty_content_response) "u1"
               bangalore_conversation None empty_world)))
    = [("uuid-0", EmptyString, FACTUAL)].
Proof.
  repeat split; reflexivity.
Qed.

(** ** Embedding failures *)

(** C9 (the code at the failing input): when embedding is enabled and the
    embedding service raises, [create_hive_mind_memory] returns [None]
    without saving anything: the only effect is a log entry; on the same
    agent [_create_memory_node] makes the record, with no embedding. *)
Theorem create_hive_mind_memory_embedding_failure
    (self : ShivaAgent) (uid text : string) (mt : MemoryType)
    (tag_list : option (list string)) (embed_query : pyval -> result (list Q))
    (e : exn) (w : World) :
  embeddings self = Some embed_query ->
  embed_query (PStr text) = Raise e ->
  create_hive_mind_memory self uid text mt tag_list w
    = (Ok None, with_log (log w ++ [(ERROR, "Failed to create hive mind memory")]) w) /\
  forall conversation,
    exists node w',
      _create_memory_node self uid
        {| sig_content := PStr text;
           sig_memory_type := PStr (MemoryType_value mt);
           sig_tags := map PStr (default [] tag_list) |} conversation w
        = (Ok (Some node), w') /\
      content node = text /\
      embedding node = None.
Proof.
  intros Hemb Hraise. split.
  - unfold create_hive_mind_memory. rewrite Hemb. run. now rewrite Hraise.
  - intros conversation. unfold _create_memory_node. rewrite Hemb. run.
    rewrite Hraise. cbn.
    assert (Htags : validate_str_list (map PStr (default [] tag_list))
                    = Ok (default [] tag_list)).
    { induction (default [] tag_list) as [|t l IH]; cbn; [reflexivity|].
      now rewrite IH. }
    rewrite Htags. destruct mt; cbn; eauto.
Qed.

Lemma create_hive_mind_memory_embedding_failure_witness :
  create_hive_mind_memory agent_embedding_down "u1"
    "Insight: reflection improves decision quality." FACTUAL (Some ["wisdom"])
    empty_world
  = (Ok None,
     with_log (log empty_world ++ [(ERROR, "Failed to create hive mind memory")])
       empty_world) /\
  memory_collection
    (snd (create_hive_mind_memory agent_embedding_down "u1"
            "Insight: reflection improves decision quality." FACTUAL (Some ["wisdom"])
            empty_world)) = [].
Proof.
  split; [|reflexivity].
  exact (proj1 (create_hive_mind_memory_embedding_failure agent_embedding_down "u1"
                  "Insight: reflection improves decision quality." FACTUAL
                  (Some ["wisdom"])
                  (fun _ => Raise (ServiceError "embedding service unreachable"))
                  (ServiceError "embedding service unreachable") empty_world
                  eq_refl eq_refl)).
Defined.

(** * Further properties of the code *)

(** ** save_memory: what a save writes *)

Lemma no_faults_cons (n : nat) (w : World) (fs : list (option exn)) :
  pending_faults w = None :: fs ->
  no_faults (S n) w -> Forall (fun f => f = None) (firstn n fs).
Proof.
  unfold no_faults. intros ->. cbn. now inversion 1.
Qed.

Lemma no_faults_head (n : nat) (w : World) (e : exn) (fs : list (option exn)) :
  pending_faults w = Some e :: fs -> ~ no_faults (S n) w.
Proof.
  unfold no_faults. intros ->. cbn. inversion 1. discriminate.
Qed.

Lemma replace_one_upsert_nodup (d : MemoryNode) (docs : list MemoryNode) :
  List.NoDup (map memory_id docs) -> List.NoDup (map memory_id (replace_one_upsert d docs)).
Proof.
  induction docs as [|x docs IH]; cbn; intros Hnd.
  - repeat constructor. intros [].
  - inversion Hnd as [|i l Hx Hrest]; subst.
    destruct (String.eqb (memory_id x) (memory_id d)) eqn:E; cbn.
    + apply String.eqb_eq in E. rewrite <- E. now constructor.
    + constructor; [|now apply IH].
      intros Hin. apply in_map_iff in Hin as [y [Hy Hin]].
      apply replace_one_upsert_inv in Hin as [->|Hin].
      * rewrite Hy in E. now rewrite String.eqb_refl in E.
      * apply Hx. rewrite <- Hy. now apply in_map.
Qed.

Lemma filter_id_absent (i : string) (docs : list MemoryNode) :
  ~ In i (map memory_id docs) -> List.filter (id_in [i]) docs = [].
Proof.
  induction docs as [|x docs IH]; cbn; intros Hout; [reflexivity|].
  destruct (String.eqb (memory_id x) i) eqn:E; cbn.
  - apply String.eqb_eq in E. exfalso. apply Hout. now left.
  - apply IH. intros Hin. apply Hout. now right.
Qed.

Lemma replace_one_upsert_lookup (d : MemoryNode) (docs : list MemoryNode) :
  List.NoDup (map memory_id docs) ->
  List.filter (id_in [memory_id d]) (replace_one_upsert d docs) = [d].
Proof.
  induction docs as [|x docs IH]; cbn; intros Hnd.
  - now rewrite String.eqb_refl.
  - inversion Hnd as [|i l Hx Hrest]; subst.
    destruct (String.eqb (memory_id x) (memory_id d)) eqn:E; cbn.
    + rewrite String.eqb_refl. cbn. f_equal.
      apply filter_id_absent. apply String.eqb_eq in E. now rewrite <- E.
    + rewrite E. cbn. now apply IH.
Qed.

Lemma replace_one_upsert_others (d : MemoryNode) (docs : list MemoryNode) :
  List.filter (id_other (memory_id d)) (replace_one_upsert d docs)
  = List.filter (id_other (memory_id d)) docs.
Proof.
  unfold id_other.
  induction docs as [|x docs IH]; cbn.
  - now rewrite String.eqb_refl.
  - destruct (String.eqb (memory_id x) (memory_id d)) eqn:E; cbn.
    + now rewrite String.eqb_refl.
    + rewrite E. cbn. now rewrite IH.
Qed.

Lemma replace_one_upsert_length (d : MemoryNode) (docs : list MemoryNode) :
  length (replace_one_upsert d docs)
  = if existsb (fun x => String.eqb (memory_id x) (memory_id d)) docs
    then length docs else S (length docs).
Proof.
  induction docs as [|x docs IH]; cbn; [reflexivity|].
  destruct (String.eqb (memory_id x) (memory_id d)); cbn; [reflexivity|].
  rewrite IH. now destruct (existsb _ docs).
Qed.

(** The world a save leaves when its round trips go through. *)
Lemma save_memory_succeeds (memory : MemoryNode) (w : World) :
  no_faults (save_round_trips memory) w ->
  exists w',
    save_memory memory w = (Ok (memory_id memory), w') /\
    memory_collection w' = replace_one_upsert memory (memory_collection w) /\
    chroma_collection w'
      = (if truthy_list (embedding memory)
         then <[memory_id memory := index_entry_of memory (default [] (embedding memory))]>
                (chroma_collection w)
         else chroma_collection w) /\
    identity_collection w' = identity_collection w /\
    pending_faults w' = skipn (save_round_trips memory) (pending_faults w) /\
    clock w' = clock w /\
    uuid_count w' = uuid_count w /\
    log w' = (log w ++ [(INFO, "Memory saved")])%list.
Proof.
  unfold save_round_trips, save_memory, save_memory_body, mongo_replace_memory,
    chroma_upsert. run.
  intros Hplan.
  destruct (pending_faults w) as [|[e|] fs] eqn:E; cbn.
  - destruct (embedding memory) as [[|x v]|]; cbn; rewrite ?E; cbn;
      eexists; (split; [reflexivity|]); cbn; rewrite ?E; auto 10.
  - exfalso. destruct (truthy_list (embedding memory));
      now apply (no_faults_head _ _ _ _ E) in Hplan.
  - destruct (embedding memory) as [[|x v]|]; cbn;
      try (eexists; (split; [reflexivity|]); cbn; now auto 10).
    cbn in Hplan. apply (no_faults_cons 1 _ _ E) in Hplan.
    destruct fs as [|[e|] fs]; cbn.
    + eexists; (split; [reflexivity|]); cbn; auto 10.
    + inversion Hplan. discriminate.
    + eexists; (split; [reflexivity|]); cbn; auto 10.
Qed.

(** X1: when its round trips go through, [save_memory] returns the id of
    the record, and afterwards the document store holds under that id the
    record and nothing else, the documents under other ids are the same as
    before and in the same order, ids stay unique, and the index holds the
    entry of the record when it has an embedding and is untouched when it
    has none. *)
Theorem save_memory_round_trip (memory : MemoryNode) (w : World) :
  List.NoDup (map memory_id (memory_collection w)) ->
  no_faults (save_round_trips memory) w ->
  exists w',
    save_memory memory w = (Ok (memory_id memory), w') /\
    List.filter (id_in [memory_id memory]) (memory_collection w') = [memory] /\
    List.filter (id_other (memory_id memory)) (memory_collection w')
      = List.filter (id_other (memory_id memory)) (memory_collection w) /\
    List.NoDup (map memory_id (memory_collection w')) /\
    (forall x v, embedding memory = Some (x :: v) ->
       chroma_collection w' !! memory_id memory
         = Some (index_entry_of memory (x :: v))) /\
    (truthy_list (embedding memory) = false ->
       chroma_collection w' = chroma_collection w).
Proof.
  intros Hnd Hplan.
  destruct (save_memory_succeeds memory w Hplan)
    as [w' [Hrun [Hdocs [Hindex _]]]].
  exists w'. split; [exact Hrun|]. rewrite Hdocs.
  split; [now apply replace_one_upsert_lookup|].
  split; [apply replace_one_upsert_others|].
  split; [now apply replace_one_upsert_nodup|].
  split.
  - intros x v Hemb. rewrite Hindex, Hemb. cbn. apply lookup_insert_eq.
  - intros Hnone. now rewrite Hindex, Hnone.
Qed.

Lemma save_memory_round_trip_witness :
  exists w',
    save_memory bob_note (snd (save_memory alice_note empty_world))
      = (Ok "m-bob", w') /\
    List.filter (id_in ["m-bob"]) (memory_collection w') = [bob_note] /\
    chroma_collection w' !! "m-bob"
      = Some (index_entry_of bob_note [(9 # 10)%Q; (1 # 10)%Q]).
Proof.
  destruct (save_memory_round_trip bob_note (snd (save_memory alice_note empty_world)))
    as [w' [Hrun [Hlookup [_ [_ [Hindex _]]]]]].
  - vm_compute. repeat constructor. intros [].
  - vm_compute. constructor.
  - exists w'. split; [exact Hrun|]. split; [exact Hlookup|].
    exact (Hindex (9 # 10)%Q [(1 # 10)%Q] eq_refl).
Defined.

(** X2: when the document write fails, [save_memory] raises the error of
    the write and has written nothing: both collections are as before, the
    vector index is not even called, and the failure is logged. *)
Theorem save_memory_write_failure (memory : MemoryNode) (w : World) (e : exn)
    (fs : list (option exn)) :
  pending_faults w = Some e :: fs ->
  exists w',
    save_memory memory w = (Raise e, w') /\
    memory_collection w' = memory_collection w /\
    chroma_collection w' = chroma_collection w /\
    pending_faults w' = fs /\
    log w' = (log w ++ [(ERROR, "Failed to save memory")])%list.
Proof.
  intros Hplan.
  unfold save_memory, save_memory_body, mongo_replace_memory. run.
  rewrite Hplan. cbn. eexists. split; [reflexivity|]. cbn. auto.
Qed.

Lemma save_memory_write_failure_witness :
  exists w',
    save_memory alice_note
      (with_pending_faults [Some (ServiceError "document store unreachable"); None]
         empty_world)
    = (Raise (ServiceError "document store unreachable"), w') /\
    memory_collection w' = [] /\
    chroma_collection w' = ∅ /\
    pending_faults w' = [None] /\
    log w' = [(ERROR, "Failed to save memory")].
Proof.
  exact (save_memory_write_failure alice_note
           (with_pending_faults [Some (ServiceError "document store unreachable"); None]
              empty_world)
           (ServiceError "document store unreachable") [None] eq_refl).
Defined.

(** X3: whatever the outcome of a save, the ids of the document store stay
    unique, no document under another id is touched, and the store has as
    many documents as before, or one more. *)
Theorem save_memory_keeps_ids_unique (memory : MemoryNode) (w : World) :
  List.NoDup (map memory_id (memory_collection w)) ->
  List.NoDup (map memory_id (memory_collection (snd (save_memory memory w)))) /\
  List.filter (id_other (memory_id memory)) (memory_collection (snd (save_memory memory w)))
    = List.filter (id_other (memory_id memory)) (memory_collection w) /\
  (length (memory_collection w)
     <= length (memory_collection (snd (save_memory memory w)))
     <= S (length (memory_collection w)))%nat.
Proof.
  intros Hnd.
  pose proof (save_memory_collections memory w) as Hs. cbv zeta in Hs.
  destruct Hs as [[-> _] | [-> _]].
  - repeat split; auto.
  - split; [now apply replace_one_upsert_nodup|].
    split; [apply replace_one_upsert_others|].
    rewrite replace_one_upsert_length. destruct (existsb _ _); auto.
Qed.

Lemma save_memory_keeps_ids_unique_witness :
  List.NoDup (map memory_id (memory_collection (snd (save_memory alice_note chroma_down_world)))) /\
  length (memory_collection (snd (save_memory alice_note chroma_down_world))) = 1%nat.
Proof.
  split; [|reflexivity].
  refine (proj1 (save_memory_keeps_ids_unique alice_note chroma_down_world _)).
  constructor.
Defined.

(** ** Records without an index entry *)

Lemma no_faults_next (n : nat) (w : World) :
  no_faults (S n) w -> next_call_succeeds w.
Proof.
  unfold no_faults, next_call_succeeds.
  destruct (pending_faults w) as [|[e|] fs]; cbn; auto.
  inversion 1. discriminate.
Qed.

Lemma save_memory_without_embedding (memory : MemoryNode) (w : World) :
  truthy_list (embedding memory) = false ->
  chroma_collection (snd (save_memory memory w)) = chroma_collection w.
Proof.
  intros Hnone.
  unfold save_memory, save_memory_body, mongo_replace_memory. run.
  destruct (pending_faults w) as [|[e|] fs] eqn:E; cbn; auto;
    destruct (embedding memory) as [[|x v]|]; try discriminate; reflexivity.
Qed.

(** The records a search returns have passed its filter, when the index
    describes the documents. *)
Lemma search_memories_match `{VectorIndex} (q : list Q) (uid : option string)
    (hive : bool) (limit : nat) (types : option (list MemoryType)) (w : World)
    (found : list MemoryNode) (r : MemoryNode) :
  index_consistent w ->
  fst (search_memories q uid hive limit types w) = Ok found ->
  In r found ->
  In r (memory_collection w) /\
  is_Some (chroma_collection w !! memory_id r) /\
  where_matches (metadata_of r) (build_where uid hive types) = true.
Proof.
  intros Hcons Hrun Hr. rewrite search_memories_result in Hrun.
  injection Hrun as <-.
  destruct (search_faulted w); [destruct Hr|].
  apply hydrate_In in Hr as [Hdoc Hid].
  apply nearest_candidates, candidates_spec in Hid as [e [Hl Hm]].
  destruct (Hcons _ _ Hl) as [_ Hmeta].
  rewrite (Hmeta r Hdoc eq_refl) in Hm. eauto.
Qed.

(** X4: a record saved without an embedding, under an id not used before,
    gets no index entry: no search returns a record of that id, whatever its
    arguments; the recent query of the record's own scope returns it, when
    the document store answers and the limit does not cut the list. *)
Theorem unindexed_record_recent_only `{VectorIndex} (memory : MemoryNode) (w : World) :
  built_by_saves w ->
  ~ In (memory_id memory) (map memory_id (memory_collection w)) ->
  truthy_list (embedding memory) = false ->
  no_faults 1 w ->
  (forall q uid hive limit types found r,
     fst (search_memories q uid hive limit types (snd (save_memory memory w)))
       = Ok found ->
     In r found -> memory_id r <> memory_id memory) /\
  (forall limit,
     next_call_succeeds (snd (save_memory memory w)) ->
     limit = 0%nat \/
     (length (memory_collection (snd (save_memory memory w))) <= limit)%nat ->
     exists found w',
       get_recent_memories (Some (user_id memory)) (is_hive_mind memory) limit
         (snd (save_memory memory w)) = (Ok found, w') /\
       In memory found).
Proof.
  intros Hbuilt Hfresh Hnone Hplan. split.
  - intros q uid hive limit types found r Hrun Hr Hid.
    assert (Hcons : index_consistent (snd (save_memory memory w))).
    { apply built_index_consistent. now apply built_save. }
    destruct (search_memories_match _ _ _ _ _ _ _ _ Hcons Hrun Hr)
      as [_ [[e He] _]].
    rewrite save_memory_without_embedding, Hid in He by exact Hnone.
    apply Hfresh. exact (proj1 (built_index_consistent w Hbuilt _ _ He)).
  - intros limit Hnext Hlimit.
    apply get_recent_memories_complete; try assumption.
    + assert (Hrt : save_round_trips memory = 1%nat).
      { unfold save_round_trips. now rewrite Hnone. }
      rewrite <- Hrt in Hplan.
      destruct (save_memory_succeeds memory w Hplan) as [w' [Hrun [Hdocs _]]].
      rewrite Hrun. cbn. rewrite Hdocs. apply replace_one_upsert_In.
    + unfold recent_query. rewrite Bool.eqb_reflx.
      destruct (truthy_str (Some (user_id memory)) && negb (is_hive_mind memory));
        cbn; [apply String.eqb_refl | reflexivity].
Qed.

Lemma unindexed_record_recent_only_witness :
  (forall found r,
     fst (search_memories [1%Q; 0%Q] (Some "carol") false 3 None
            (snd (save_memory carol_note two_users_world))) = Ok found ->
     In r found -> memory_id r <> "m-carol") /\
  (exists found w',
     get_recent_memories (Some "carol") false 0
       (snd (save_memory carol_note two_users_world)) = (Ok found, w') /\
     In carol_note found).
Proof.
  assert (Hbuilt : built_by_saves two_users_world).
  { unfold two_users_world.
    apply built_save; [apply built_save; [apply built_save|]|].
    - now apply built_empty.
    - cbn. tauto.
    - vm_compute. intros [E|[]]. discriminate E.
    - vm_compute. intros [E|[E|[]]]; discriminate E. }
  assert (Hfresh : ~ In (memory_id carol_note)
                     (map memory_id (memory_collection two_users_world))).
  { vm_compute. intros [E|[E|[E|[]]]]; discriminate E. }
  assert (Hplan : no_faults 1 two_users_world) by (vm_compute; constructor).
  pose proof (unindexed_record_recent_only carol_note two_users_world
                Hbuilt Hfresh eq_refl Hplan) as [Hsearch Hrecent].
  split.
  - intros found r. apply Hsearch.
  - apply Hrecent; [vm_compute; exact I | now left].
Defined.

(** ** The identity collection *)

Lemma get_user_identity_result (uid : string) (w : World) :
  fst (get_user_identity uid w)
  = Ok (match pending_faults w with
        | Some _ :: _ => None
        | _ => identity_collection w !! uid
        end).
Proof.
  unfold get_user_identity, mongo_find_one_identity. run.
  destruct (pending_faults w) as [|[e|] fs]; reflexivity.
Qed.

Lemma update_user_identity_plan (identity : UserIdentity) (w : World) :
  pending_faults (snd (update_user_identity identity w)) = skipn 1 (pending_faults w).
Proof.
  unfold update_user_identity, mongo_replace_identity. run.
  destruct (pending_faults w) as [|[e|] fs] eqn:E; cbn; rewrite ?E; reflexivity.
Qed.

(** X5: an identity written by [update_user_identity] is what
    [get_user_identity] then returns for its user id: a profile whose
    [updated_at] is the time of the write and whose every other field is as
    written; the answer for every other user id is the profile stored
    before, or [None] when there was none. *)
Theorem identity_round_trip (identity : UserIdentity) (w : World) :
  no_faults 2 w ->
  fst (update_user_identity identity w) = Ok true /\
  (exists stored,
     fst (get_user_identity (identity_user_id identity)
            (snd (update_user_identity identity w))) = Ok (Some stored) /\
     updated_at stored = clock w /\
     same_but_updated_at stored identity) /\
  forall u, u <> identity_user_id identity ->
    fst (get_user_identity u (snd (update_user_identity identity w)))
    = Ok (identity_collection w !! u).
Proof.
  intros Hplan.
  destruct (update_user_identity_run identity w (no_faults_next 1 w Hplan))
    as [Hrun Hstore].
  assert (Hnext : match pending_faults (snd (update_user_identity identity w)) with
                  | Some _ :: _ => False
                  | _ => True
                  end).
  { rewrite update_user_identity_plan. revert Hplan. unfold no_faults.
    destruct (pending_faults w) as [|f [|[e|] fs]]; cbn; auto.
    intros Hplan. inversion Hplan as [|? ? ? Hrest]. inversion Hrest. discriminate. }
  split; [exact Hrun|].
  split.
  - exists (set_updated_at (clock w) identity).
    split; [|apply set_updated_at_fields].
    rewrite get_user_identity_result, Hstore.
    destruct (pending_faults _) as [|[e|] fs]; try contradiction;
      apply f_equal, lookup_insert_eq.
  - intros u Hu. rewrite get_user_identity_result, Hstore.
    destruct (pending_faults _) as [|[e|] fs]; try contradiction;
      apply f_equal, lookup_insert_ne; congruence.
Qed.

Lemma identity_round_trip_witness :
  updated_at alice_identity = 5 /\
  (exists stored,
     fst (get_user_identity "alice"
            (snd (update_user_identity alice_identity empty_world)))
       = Ok (Some stored) /\
     updated_at stored = 1700000000 /\
     name stored = Some "Alice" /\
     origin stored = Some "Pune") /\
  fst (get_user_identity "bob" (snd (update_user_identity alice_identity empty_world)))
    = Ok None.
Proof.
  assert (Hplan : no_faults 2 empty_world) by constructor.
  pose proof (identity_round_trip alice_identity empty_world Hplan)
    as [_ [[stored [Hget [Hat Hsame]]] Hother]].
  split; [reflexivity|]. split.
  - exists stored. split; [exact Hget|]. split; [exact Hat|].
    unfold same_but_updated_at in Hsame.
    split; [exact (proj1 (proj2 Hsame))|].
    exact (proj1 (proj2 (proj2 (proj2 (proj2 Hsame))))).
  - rewrite (Hother "bob") by discriminate. reflexivity.
Defined.

(** X6: neither identity operation ever raises.  When the document store
    fails, [get_user_identity] answers [None], also for a user whose profile
    is stored, and [update_user_identity] answers [False] and leaves the
    stored profiles as they were. *)
Theorem identity_operations_fail_soft (identity : UserIdentity) (uid : string)
    (w : World) (e : exn) (fs : list (option exn)) :
  pending_faults w = Some e :: fs ->
  get_user_identity uid w
    = (Ok None,
       with_log (log w ++ [(ERROR, "Failed to get user identity")])
         (with_pending_faults fs w)) /\
  update_user_identity identity w
    = (Ok false,
       with_log (log w ++ [(ERROR, "Failed to update user identity")])
         (with_pending_faults fs w)) /\
  (forall w0, exists found w', get_user_identity uid w0 = (Ok found, w')) /\
  (forall w0, exists done w', update_user_identity identity w0 = (Ok done, w')).
Proof.
  intros Hplan. split; [|split; [|split]].
  - unfold get_user_identity, mongo_find_one_identity. run. now rewrite Hplan.
  - unfold update_user_identity, mongo_replace_identity. run. now rewrite Hplan.
  - intros w0. apply try_except_total.
  - intros w0. apply try_except_total.
Qed.

Lemma identity_operations_fail_soft_witness :
  identity_collection outage_world !! "alice" = Some alice_identity /\
  fst (get_user_identity "alice" outage_world) = Ok None /\
  fst (update_user_identity (set_updated_at 9 alice_identity) outage_world) = Ok false /\
  identity_collection
    (snd (update_user_identity (set_updated_at 9 alice_identity) outage_world))
    !! "alice" = Some alice_identity.
Proof.
  pose proof (identity_operations_fail_soft (set_updated_at 9 alice_identity) "alice"
                outage_world (ServiceError "document store unreachable") []
                eq_refl) as [Hget [Hput _]].
  split; [reflexivity|]. split; [now rewrite Hget|].
  split; [now rewrite Hput|]. now rewrite Hput.
Defined.

(** ** The order and the size of query results *)

Lemma strongly_sorted_app {A} (R : A -> A -> Prop) (l1 l2 : list A) (a b : A) :
  StronglySorted R (l1 ++ l2) -> In a l1 -> In b l2 -> R a b.
Proof.
  induction l1 as [|x l1 IH]; cbn; intros Hs Ha Hb; [destruct Ha|].
  inversion Hs as [|? ? Hrest Hall]; subst.
  destruct Ha as [->|Ha]; [|now apply IH].
  rewrite List.Forall_forall in Hall. apply Hall, in_or_app. now right.
Qed.

Lemma strongly_sorted_firstn {A} (R : A -> A -> Prop) (n : nat) (l : list A) :
  StronglySorted R l -> StronglySorted R (firstn n l).
Proof.
  revert n. induction l as [|x l IH]; intros [|n] Hs; cbn; try constructor.
  - inversion Hs; subst. now apply IH.
  - inversion Hs as [|? ? _ Hall]; subst.
    rewrite List.Forall_forall in *. intros y Hy. apply Hall.
    rewrite <- (firstn_skipn n l). apply in_or_app. now left.
Qed.

Lemma timestamps_sorted (l : list MemoryNode) :
  StronglySorted (fun a b => timestamp b <= timestamp a)
    (sort_desc Z.leb timestamp l).
Proof.
  apply sort_desc_sorted with (R := Z.le).
  - intros a b. apply Z.leb_le.
  - intros a b E. apply Z.leb_gt in E. now apply Z.lt_le_incl.
  - intros a b c. apply Z.le_trans.
Qed.

(** X7: [get_recent_memories] never raises; what it returns are documents
    of the store selected by its query, newest first, at most [limit] of
    them when [limit] is not 0, and no selected document left out is newer
    than a returned one. *)
Theorem get_recent_memories_newest_first (uid : option string) (hive : bool)
    (limit : nat) (w : World) :
  exists found w',
    get_recent_memories uid hive limit w = (Ok found, w') /\
    StronglySorted (fun a b => timestamp b <= timestamp a) found /\
    (limit <> 0%nat -> (length found <= limit)%nat) /\
    (forall r, In r found ->
       In r (memory_collection w) /\ recent_query uid hive r = true) /\
    (next_call_succeeds w ->
     forall r kept,
       In r (memory_collection w) -> recent_query uid hive r = true ->
       ~ In r found -> In kept found -> timestamp r <= timestamp kept).
Proof.
  destruct (try_except_total
              (memory_docs <- mongo_find (recent_query uid hive) ;;
               ret (mongo_limit limit (sort_desc Z.leb timestamp memory_docs)))
              ERROR "Failed to get recent memories" [] w) as [found [w' Hrun]].
  exists found, w'. split; [exact Hrun|].
  pose proof (get_recent_memories_result uid hive limit w) as Hres.
  unfold get_recent_memories in Hres at 1. rewrite Hrun in Hres. cbn in Hres.
  injection Hres as ->.
  set (sorted := sort_desc Z.leb timestamp
                   (List.filter (recent_query uid hive) (memory_collection w))).
  assert (Hsorted : StronglySorted (fun a b => timestamp b <= timestamp a) sorted)
    by apply timestamps_sorted.
  assert (Hcut : StronglySorted (fun a b => timestamp b <= timestamp a)
                   (mongo_limit limit sorted)).
  { destruct limit; [exact Hsorted | now apply strongly_sorted_firstn]. }
  assert (Hlen : limit <> 0%nat -> (length (mongo_limit limit sorted) <= limit)%nat).
  { destruct limit; [congruence|]. intros _. apply firstn_le_length. }
  assert (Hin : forall r, In r (mongo_limit limit sorted) ->
                  In r (memory_collection w) /\ recent_query uid hive r = true).
  { intros r Hr. apply mongo_limit_In in Hr. subst sorted.
    now apply sort_desc_In, filter_In in Hr. }
  assert (Hleft : forall r kept,
            In r (memory_collection w) -> recent_query uid hive r = true ->
            ~ In r (mongo_limit limit sorted) -> In kept (mongo_limit limit sorted) ->
            timestamp r <= timestamp kept).
  { intros r kept Hdoc Hq Hout Hkept.
    assert (Hr : In r sorted) by (apply sort_desc_In, filter_In; now split).
    destruct limit as [|n]; [contradiction|]. cbn [mongo_limit] in *.
    rewrite <- (firstn_skipn (S n) sorted) in Hr, Hsorted.
    apply in_app_or in Hr as [Hr|Hr]; [contradiction|].
    exact (strongly_sorted_app _ _ _ kept r Hsorted Hkept Hr). }
  unfold next_call_succeeds.
  destruct (pending_faults w) as [|[e|] fs].
  - repeat split; auto; apply Hin; assumption.
  - repeat split; try constructor; try (intros r []); try contradiction.
    intros _. apply Nat.le_0_l.
  - repeat split; auto; apply Hin; assumption.
Qed.

Lemma filter_ids_nodup (p : MemoryNode -> bool) (docs : list MemoryNode) :
  List.NoDup (map memory_id docs) ->
  List.NoDup (map memory_id (List.filter p docs)).
Proof.
  induction docs as [|x docs IH]; cbn; intros Hnd; [constructor|].
  inversion Hnd as [|? ? Hx Hrest]; subst.
  destruct (p x); cbn; [|now apply IH].
  constructor; [|now apply IH].
  intros Hin. apply Hx. apply in_map_iff in Hin as [y [Hy Hin]].
  apply filter_In in Hin as [Hin _]. rewrite <- Hy. now apply in_map.
Qed.

(** X8: in a document store with unique ids, [search_memories] returns at
    most [limit] records, no two of them under the same id; when neither
    round trip fails, they are, up to order, exactly the stored documents
    whose ids the index returned. *)
Theorem search_memories_bounded `{VectorIndex} (q : list Q) (uid : option string)
    (hive : bool) (limit : nat) (types : option (list MemoryType)) (w : World)
    (found : list MemoryNode) :
  List.NoDup (map memory_id (memory_collection w)) ->
  fst (search_memories q uid hive limit types w) = Ok found ->
  (length found <= limit)%nat /\
  List.NoDup (map memory_id found) /\
  (search_faulted w = false ->
   Permutation found
     (List.filter
        (id_in (nearest q limit
                  (chroma_candidates (build_where uid hive types)
                     (chroma_collection w))))
        (memory_collection w))).
Proof.
  intros Hnd Hrun. rewrite search_memories_result in Hrun. injection Hrun as <-.
  destruct (search_faulted w).
  - split; [apply Nat.le_0_l|]. split; [constructor | discriminate].
  - set (ids := nearest _ _ _).
    assert (Hperm : Permutation (hydrate ids (memory_collection w))
                      (List.filter (id_in ids) (memory_collection w)))
      by apply sort_desc_perm.
    assert (Hunique : List.NoDup (map memory_id (hydrate ids (memory_collection w)))).
    { eapply Permutation_NoDup.
      - apply Permutation_map. symmetry. exact Hperm.
      - now apply filter_ids_nodup. }
    split; [|split; [exact Hunique | intros _; exact Hperm]].
    transitivity (length ids); [|apply nearest_bound].
    rewrite <- (length_map memory_id).
    apply NoDup_incl_length; [exact Hunique|].
    intros i Hi. apply in_map_iff in Hi as [r [<- Hr]].
    now apply hydrate_In in Hr.
Qed.

Lemma search_memories_bounded_witness :
  (length [bob_note] <= 1)%nat /\
  List.NoDup (map memory_id [bob_note]) /\
  fst (search_memories [0%Q; 1%Q] None false 1 None two_users_world) = Ok [bob_note].
Proof.
  assert (Hrun : fst (search_memories [0%Q; 1%Q] None false 1 None two_users_world)
                 = Ok [bob_note]) by reflexivity.
  assert (Hnd : List.NoDup (map memory_id (memory_collection two_users_world))).
  { vm_compute. repeat constructor.
    - intros [E|[E|[]]]; discriminate E.
    - intros [E|[]]; discriminate E.
    - intros []. }
  pose proof (search_memories_bounded [0%Q; 1%Q] None false 1 None two_users_world
                [bob_note] Hnd Hrun) as [Hlen [Hunique _]].
  split; [exact Hlen|]. split; [exact Hunique | exact Hrun].
Defined.

Lemma MemoryType_value_inj (a b : MemoryType) :
  MemoryType_value a = MemoryType_value b -> a = b.
Proof.
  destruct a, b; cbn; intros E; try reflexivity; discriminate E.
Qed.

(** X9: in a store built by saves under ids not used before, a search asked
    for a non-empty list of memory types returns only records of one of
    these types. *)
Theorem search_memories_respects_types `{VectorIndex} (q : list Q)
    (uid : option string) (hive : bool) (limit : nat) (t : MemoryType)
    (ts : list MemoryType) (w : World) (found : list MemoryNode) (r : MemoryNode) :
  built_by_saves w ->
  fst (search_memories q uid hive limit (Some (t :: ts)) w) = Ok found ->
  In r found ->
  In (memory_type r) (t :: ts).
Proof.
  intros Hbuilt Hrun Hr.
  destruct (search_memories_match _ _ _ _ _ _ _ _
              (built_index_consistent w Hbuilt) Hrun Hr) as [_ [_ Hm]].
  rewrite build_where_matches in Hm. apply andb_prop in Hm as [_ Hm].
  unfold types_match in Hm. apply existsb_exists in Hm as [t' [Hin E]].
  apply String.eqb_eq in E. cbn in E. apply MemoryType_value_inj in E.
  now rewrite E.
Qed.

Lemma search_memories_respects_types_witness :
  fst (search_memories [1%Q; 0%Q] None false 3 (Some [PREFERENCE])
         chat_world) = Ok [] /\
  fst (search_memories [1%Q; 0%Q] None true 3 (Some [PREFERENCE; FACTUAL])
         chat_world) = Ok (List.filter is_hive_mind (memory_collection chat_world)) /\
  forall r,
    In r (List.filter is_hive_mind (memory_collection chat_world)) ->
    In (memory_type r) [PREFERENCE; FACTUAL].
Proof.
  assert (Hrun : fst (search_memories [1%Q; 0%Q] None true 3
                        (Some [PREFERENCE; FACTUAL]) chat_world)
                 = Ok (List.filter is_hive_mind (memory_collection chat_world)))
    by reflexivity.
  split; [reflexivity|]. split; [exact Hrun|].
  intros r.
  exact (search_memories_respects_types [1%Q; 0%Q] None true 3 PREFERENCE [FACTUAL]
           chat_world _ r (reachable_built _ chat_world_reachable) Hrun).
Defined.

(** ** Computations that stay away from the databases *)

Lemma same_backends_refl (w : World) : same_backends w w.
Proof. unfold same_backends. auto 10. Qed.

Lemma same_backends_trans (w1 w2 w3 : World) :
  same_backends w1 w2 -> same_backends w2 w3 -> same_backends w1 w3.
Proof.
  unfold same_backends.
  intros [Hm [Hc [Hi [Hp [Ht Hu]]]]] [Hm' [Hc' [Hi' [Hp' [Ht' Hu']]]]].
  repeat split; try congruence. now transitivity (uuid_count w2).
Qed.

Section Quiet.
Context {A B : Type}.

Lemma quiet_ret (a : A) : quiet (ret a).
Proof. intros w. apply same_backends_refl. Qed.

Lemma quiet_raise (e : exn) : quiet (@raise A e).
Proof. intros w. apply same_backends_refl. Qed.

Lemma quiet_lift (r : result A) : quiet (lift r).
Proof. intros w. apply same_backends_refl. Qed.

Lemma quiet_bind (m : M A) (k : A -> M B) :
  quiet m -> (forall a, quiet (k a)) -> quiet (bind m k).
Proof.
  intros Hm Hk w. unfold bind. specialize (Hm w).
  destruct (m w) as [[a|e] w1]; cbn in *; [|exact Hm].
  eapply same_backends_trans; [exact Hm | apply Hk].
Qed.

Lemma quiet_try_except (body : M A) (handler : exn -> M A) :
  quiet body -> (forall e, quiet (handler e)) -> quiet (try_except body handler).
Proof.
  intros Hb Hh w. unfold try_except. specialize (Hb w).
  destruct (body w) as [[a|e] w1]; cbn in *; [exact Hb|].
  eapply same_backends_trans; [exact Hb | apply Hh].
Qed.

Lemma quiet_try_except_on (cls : exn -> bool) (body : M A) (handler : exn -> M A) :
  quiet body -> (forall e, quiet (handler e)) ->
  quiet (try_except_on cls body handler).
Proof.
  intros Hb Hh w. unfold try_except_on. specialize (Hb w).
  destruct (body w) as [[a|e] w1]; cbn in *; [exact Hb|].
  destruct (cls e); cbn; [|exact Hb].
  eapply same_backends_trans; [exact Hb | apply Hh].
Qed.
End Quiet.

Lemma quiet_logger (lvl : LogLevel) (event : string) : quiet (logger lvl event).
Proof. intros w. unfold same_backends. cbn. auto 10. Qed.

Lemma quiet_utcnow : quiet utcnow.
Proof. intros w. apply same_backends_refl. Qed.

Lemma quiet_uuid4 : quiet uuid4.
Proof. intros w. unfold same_backends. cbn. auto 10. Qed.

Create HintDb quiet.

#[local] Hint Resolve quiet_ret quiet_raise quiet_lift quiet_logger quiet_utcnow
  quiet_uuid4 : quiet.

Ltac quiet :=
  repeat first
    [ apply quiet_bind; [|intros ?]
    | apply quiet_try_except_on; [|intros ?]
    | apply quiet_try_except; [|intros ?]
    | match goal with
      | |- quiet (match ?x with _ => _ end) => destruct x
      | |- quiet (if ?x then _ else _) => destruct x
      end
    | solve [auto with quiet] ].

Lemma quiet_extract_memory_signals `{JSONDecoder} (self : ShivaAgent)
    (conversation : Conversation) (user_identity : option UserIdentity) :
  quiet (_extract_memory_signals self conversation user_identity).
Proof.
  unfold _extract_memory_signals, parse_signals. quiet.
Qed.

Lemma quiet_create_memory_node (self : ShivaAgent) (uid : string) (signal : Signal)
    (conversation : Conversation) :
  quiet (_create_memory_node self uid signal conversation).
Proof.
  unfold _create_memory_node. quiet.
Qed.

(** What a save that returns has done. *)
Lemma save_memory_returned (memory : MemoryNode) (w w' : World) (id : string) :
  save_memory memory w = (Ok id, w') ->
  id = memory_id memory /\
  memory_collection w' = replace_one_upsert memory (memory_collection w) /\
  identity_collection w' = identity_collection w /\
  clock w' = clock w /\
  uuid_count w' = uuid_count w.
Proof.
  unfold save_memory, save_memory_body, mongo_replace_memory, chroma_upsert. run.
  destruct (pending_faults w) as [|[e|] fs] eqn:E; cbn.
  - destruct (embedding memory) as [[|x v]|]; cbn; rewrite ?E; cbn;
      intros [= <- <-]; cbn; auto.
  - discriminate.
  - destruct (embedding memory) as [[|x v]|]; cbn;
      try (intros [= <- <-]; cbn; now auto).
    destruct fs as [|[e|] fs]; cbn; try discriminate;
      intros [= <- <-]; cbn; auto.
Qed.

(** ** Signal extraction and record creation *)

Lemma str_prefix_length (n : nat) (s : string) :
  (String.length (str_prefix n s) <= n)%nat.
Proof.
  revert s. induction n as [|n IH]; intros [|c s]; cbn; auto using Nat.le_0_l.
  apply le_n_S, IH.
Qed.

Lemma str_prefix_drop (n : nat) (s : string) : s = str_prefix n s ++ str_drop n s.
Proof.
  revert s. induction n as [|n IH]; intros [|c s]; try reflexivity.
  change (String c s = String c (str_prefix n s ++ str_drop n s)).
  f_equal. apply IH.
Qed.

Lemma str_prefix_all (n : nat) (s : string) :
  (String.length s <= n)%nat -> str_prefix n s = s.
Proof.
  revert s. induction n as [|n IH]; intros [|c s]; cbn; intros Hlen;
    try reflexivity.
  - inversion Hlen.
  - f_equal. apply IH. now apply le_S_n.
Qed.

Lemma str_length_app (a b : string) :
  String.length (a ++ b) = (String.length a + String.length b)%nat.
Proof.
  induction a as [|c a IH]; [reflexivity|].
  change (S (String.length (a ++ b)) = S (String.length a + String.length b)).
  now rewrite IH.
Qed.

(** X10: [_extract_memory_signals] never raises and makes no round trip to
    a database.  With extraction disabled it returns the one signal that
    carries the whole exchange; when the call to the model raises it returns
    one signal of type [factual], without tags, whose content is the text
    [Conversation about: ] followed by the first 100 characters of the user
    message. *)
Theorem extract_memory_signals_never_raises `{JSONDecoder} (self : ShivaAgent)
    (conversation : Conversation) (user_identity : option UserIdentity) (w : World) :
  (exists signals w',
     _extract_memory_signals self conversation user_identity w = (Ok signals, w') /\
     same_backends w w') /\
  (extraction_llm self = None ->
   _extract_memory_signals self conversation user_identity w
     = (Ok [raw_trace_signal conversation], w)) /\
  (forall invoke e,
     extraction_llm self = Some invoke ->
     invoke (extraction_prompt (memory_types self) conversation) = Raise e ->
     fst (_extract_memory_signals self conversation user_identity w)
       = Ok [{| sig_content :=
                  PStr ("Conversation about: "
                        ++ str_prefix 100 (user_message conversation));
                sig_memory_type := PStr "factual";
                sig_tags := [] |}] /\
     (String.length ("Conversation about: "
                     ++ str_prefix 100 (user_message conversation)) <= 120)%nat).
Proof.
  split; [|split].
  - pose proof (quiet_extract_memory_signals self conversation user_identity w) as Hq.
    assert (Hok : exists signals w',
              _extract_memory_signals self conversation user_identity w
              = (Ok signals, w')).
    { unfold _extract_memory_signals. destruct (extraction_llm self).
      - apply try_except_total.
      - eexists _, _. reflexivity. }
    destruct Hok as [signals [w' Hrun]]. rewrite Hrun in Hq.
    exists signals, w'. split; [exact Hrun | exact Hq].
  - intros Hnone. unfold _extract_memory_signals. now rewrite Hnone.
  - intros invoke e Hllm Hraise. split.
    + unfold _extract_memory_signals. rewrite Hllm. run. now rewrite Hraise.
    + rewrite str_length_app. change (String.length "Conversation about: ") with 20%nat.
      pose proof (str_prefix_length 100 (user_message conversation)). lia.
Qed.

Lemma validate_str_list_strings (l : list string) :
  validate_str_list (map PStr l) = Ok l.
Proof.
  induction l as [|t l IH]; cbn; [reflexivity | now rewrite IH].
Qed.

(** The record made from a signal whose content is a string and whose tags
    are strings. *)
Lemma create_memory_node_valid (self : ShivaAgent) (uid : string) (signal : Signal)
    (conversation : Conversation) (w : World) (text : string)
    (tag_list : list string) :
  sig_content signal = PStr text ->
  sig_tags signal = map PStr tag_list ->
  exists w',
    _create_memory_node self uid signal conversation w
    = (Ok (Some
             {| memory_id := uuid_text (uuid_count w);
                user_id := uid;
                content := text;
                memory_type :=
                  match MemoryType_of (sig_memory_type signal) with
                  | Ok mt => mt
                  | Raise _ => FACTUAL
                  end;
                timestamp := clock w;
                tags := tag_list;
                recency_value := 1%Q;
                source := "conversation";
                embedding :=
                  match embeddings self with
                  | Some embed_query =>
                      match embed_query (PStr text) with
                      | Ok v => Some v
                      | Raise _ => None
                      end
                  | None => None
                  end;
                conversation_context := Some (exchange_text conversation);
                system_prompt_snippet :=
                  Some (str_prefix 500 (system_prompt conversation));
                is_hive_mind := false |}), w') /\
    same_backends w w' /\
    uuid_count w' = S (uuid_count w).
Proof.
  intros Hcontent Htags.
  assert (Htype : MemoryType_of (sig_memory_type signal) = Raise ValueError \/
                  exists mt, MemoryType_of (sig_memory_type signal) = Ok mt).
  { unfold MemoryType_of. destruct (sig_memory_type signal); auto.
    repeat (destruct (String.eqb _ _); eauto). }
  unfold _create_memory_node. run. rewrite Hcontent, Htags.
  rewrite validate_str_list_strings.
  destruct (embeddings self) as [embed_query|];
    [destruct (embed_query (PStr text))|];
    destruct Htype as [-> | [mt ->]]; cbn;
    eexists; (split; [reflexivity|]); unfold same_backends; cbn; auto 10.
Qed.

(** X11: a signal whose content is not a string, or one of whose tags is
    not a string, gives no record: [_create_memory_node] returns [None]
    without raising and without a round trip to a database. *)
Theorem create_memory_node_rejects_non_text (self : ShivaAgent) (uid : string)
    (signal : Signal) (conversation : Conversation) (w : World) :
  (forall text, sig_content signal <> PStr text) \/
  validate_str_list (sig_tags signal) = Raise ValidationError ->
  exists w',
    _create_memory_node self uid signal conversation w = (Ok None, w') /\
    same_backends w w'.
Proof.
  intros Hbad.
  pose proof (quiet_create_memory_node self uid signal conversation w) as Hq.
  destruct (create_memory_node_total self uid signal conversation w)
    as [[node|] [w' Hrun]]; rewrite Hrun in Hq; [|eauto].
  exfalso.
  destruct (create_memory_node_made _ _ _ _ _ _ _ Hrun) as [Hc [Ht _]].
  destruct Hbad as [Hbad|Hbad].
  - exact (Hbad _ Hc).
  - rewrite Ht, validate_str_list_strings in Hbad. discriminate.
Qed.

Lemma create_memory_node_rejects_non_text_witness :
  exists w',
    _create_memory_node (plain_agent mongo_chroma_storage) "u1"
      {| sig_content := PInt 7; sig_memory_type := PStr "factual"; sig_tags := [] |}
      bangalore_conversation empty_world = (Ok None, w') /\
    same_backends empty_world w'.
Proof.
  apply create_memory_node_rejects_non_text.
  left. intros text. discriminate.
Defined.

(** X12: the audit snippets of a record made from a signal: the system
    prompt is kept up to its first 500 characters, whole when it is no
    longer than that, and the context is the text of the exchange. *)
Theorem create_memory_node_snippets (self : ShivaAgent) (uid : string)
    (signal : Signal) (conversation : Conversation) (w w' : World)
    (node : MemoryNode) :
  _create_memory_node self uid signal conversation w = (Ok (Some node), w') ->
  conversation_context node = Some (exchange_text conversation) /\
  exists snippet,
    system_prompt_snippet node = Some snippet /\
    (String.length snippet <= 500)%nat /\
    system_prompt conversation
      = snippet ++ str_drop 500 (system_prompt conversation) /\
    ((String.length (system_prompt conversation) <= 500)%nat ->
     snippet = system_prompt conversation).
Proof.
  intros Hrun.
  destruct (create_memory_node_made _ _ _ _ _ _ _ Hrun) as [Hc [Ht _]].
  destruct (create_memory_node_valid self uid signal conversation w _ _ Hc Ht)
    as [w1 [Hvalid _]].
  rewrite Hvalid in Hrun. injection Hrun as <- _. cbn.
  split; [reflexivity|].
  exists (str_prefix 500 (system_prompt conversation)).
  split; [reflexivity|]. split; [apply str_prefix_length|].
  split; [apply str_prefix_drop | apply str_prefix_all].
Qed.

Lemma create_memory_node_snippets_witness :
  exists snippet,
    Some (str_prefix 500 (system_prompt bangalore_conversation)) = Some snippet /\
    (String.length snippet <= 500)%nat /\
    snippet = "You are Meera.".
Proof.
  destruct (create_memory_node_valid (plain_agent mongo_chroma_storage) "u1"
              (raw_trace_signal bangalore_conversation) bangalore_conversation
              empty_world _ [] eq_refl eq_refl) as [w1 [Hrun _]].
  destruct (create_memory_node_snippets _ _ _ _ _ _ _ Hrun)
    as [_ [snippet [Hs [Hlen [_ Hall]]]]].
  exists snippet. split; [exact Hs|]. split; [exact Hlen|].
  apply Hall. apply Nat.leb_le. reflexivity.
Defined.

(** ** The update stage when every round trip goes through *)

Lemma no_faults_clear (n : nat) (w : World) : pending_faults w = [] -> no_faults n w.
Proof.
  unfold no_faults. intros ->. destruct n; constructor.
Qed.

Lemma save_signals_clear (self : ShivaAgent) (uid : string)
    (conversation : Conversation) (signals : list Signal) (ids : list string)
    (w : World) :
  memory_storage self = mongo_chroma_storage ->
  pending_faults w = [] ->
  exists ids' w',
    save_signals self uid conversation signals ids w = (Ok ids', w') /\
    pending_faults w' = [] /\
    clock w' = clock w /\
    identity_collection w' = identity_collection w.
Proof.
  intros Hstorage. revert ids w.
  induction signals as [|signal rest IH]; intros ids w Hplan; cbn [save_signals].
  - exists ids, w. auto.
  - unfold bind at 1.
    pose proof (quiet_create_memory_node self uid signal conversation w) as Hq.
    destruct (create_memory_node_total self uid signal conversation w)
      as [made [w1 Hmade]].
    rewrite Hmade in Hq |- *. cbn in Hq.
    destruct Hq as [_ [_ [Hi [Hp [Ht _]]]]].
    destruct made as [node|].
    + rewrite Hstorage. cbn [st_save_memory mongo_chroma_storage].
      unfold bind at 1.
      assert (Hplan1 : no_faults (save_round_trips node) w1).
      { apply no_faults_clear. congruence. }
      destruct (save_memory_succeeds node w1 Hplan1)
        as [w2 [Hsave [_ [_ [Hi2 [Hp2 [Ht2 _]]]]]]].
      rewrite Hsave.
      destruct (IH (ids ++ [memory_id node])%list w2) as [ids' [w' [Hrun [Hp' [Ht' Hi']]]]].
      { rewrite Hp2, Hp, Hplan. now destruct (save_round_trips node) as [|[|n]]. }
      exists ids', w'. split; [exact Hrun|]. repeat split; congruence.
    + destruct (IH ids w1) as [ids' [w' [Hrun [Hp' [Ht' Hi']]]]]; [congruence|].
      exists ids', w'. split; [exact Hrun|]. repeat split; congruence.
Qed.

(** The run of [process] when no round trip fails. *)
Lemma process_clear `{JSONDecoder} (self : ShivaAgent) (uid : string)
    (conversation : Conversation) (user_identity : option UserIdentity) (w : World) :
  memory_storage self = mongo_chroma_storage ->
  pending_faults w = [] ->
  exists signals w0 ids w1 w',
    _extract_memory_signals self conversation user_identity
      (snd (logger INFO "Shiva processing started" w)) = (Ok signals, w0) /\
    save_signals self uid conversation signals [] w0 = (Ok ids, w1) /\
    process self uid conversation user_identity w = (Ok ids, w') /\
    memory_collection w' = memory_collection w1 /\
    chroma_collection w' = chroma_collection w1 /\
    identity_collection w'
      = match user_identity with
        | Some identity =>
            <[identity_user_id identity := set_updated_at (clock w) identity]>
              (identity_collection w)
        | None => identity_collection w
        end.
Proof.
  intros Hstorage Hplan.
  set (wl := snd (logger INFO "Shiva processing started" w)).
  destruct (extract_memory_signals_never_raises self conversation user_identity wl)
    as [[signals [w0 [Hextract Hq]]] _].
  destruct Hq as [_ [_ [Hi0 [Hp0 [Ht0 _]]]]].
  destruct (save_signals_clear self uid conversation signals [] w0 Hstorage)
    as [ids [w1 [Hloop [Hp1 [Ht1 Hi1]]]]]; [now rewrite Hp0|].
  assert (Hproc : exists w',
            process self uid conversation user_identity w = (Ok ids, w') /\
            memory_collection w' = memory_collection w1 /\
            chroma_collection w' = chroma_collection w1 /\
            identity_collection w'
              = match user_identity with
                | Some identity =>
                    <[identity_user_id identity := set_updated_at (clock w) identity]>
                      (identity_collection w)
                | None => identity_collection w
                end).
  { unfold process, process_body. unfold bind, try_except. cbn [logger].
    subst wl. cbn [snd logger] in Hextract. rewrite Hextract.
    cbv beta iota. rewrite Hloop. cbv beta iota.
    destruct user_identity as [identity|].
    - rewrite Hstorage. cbn [st_update_user_identity mongo_chroma_storage].
      assert (Hnext : next_call_succeeds w1).
      { unfold next_call_succeeds. now rewrite Hp1. }
      destruct (update_user_identity_run identity w1 Hnext) as [Hdone Hstore].
      pose proof (keeps_update_user_identity identity w1) as [Hm [Hc _]].
      destruct (update_user_identity identity w1) as [[done|e] w2]; cbn in *;
        [|discriminate].
      eexists. split; [reflexivity|]. cbn.
      repeat split; try assumption.
      rewrite Hstore, Ht1, Ht0, Hi1, Hi0. reflexivity.
    - cbn. eexists. split; [reflexivity|]. cbn. repeat split.
      now rewrite Hi1, Hi0. }
  destruct Hproc as [w' Hproc].
  exists signals, w0, ids, w1, w'. split; [exact Hextract|]. split; [exact Hloop|].
  exact Hproc.
Qed.

(** X13: when no round trip fails, [process] given an identity stores it
    under its user id, in place of whatever profile was stored there: the
    stored profile has [updated_at] at the current time and every other
    field as given; the other profiles are left as they were. *)
Theorem process_persists_identity `{JSONDecoder} (self : ShivaAgent) (uid : string)
    (conversation : Conversation) (identity : UserIdentity) (w : World) :
  memory_storage self = mongo_chroma_storage ->
  pending_faults w = [] ->
  exists ids w' stored,
    process self uid conversation (Some identity) w = (Ok ids, w') /\
    identity_collection w' !! identity_user_id identity = Some stored /\
    updated_at stored = clock w /\
    same_but_updated_at stored identity /\
    forall u, u <> identity_user_id identity ->
      identity_collection w' !! u = identity_collection w !! u.
Proof.
  intros Hstorage Hplan.
  destruct (process_clear self uid conversation (Some identity) w Hstorage Hplan)
    as [signals [w0 [ids [w1 [w' [_ [_ [Hrun [_ [_ Hstore]]]]]]]]]].
  exists ids, w', (set_updated_at (clock w) identity).
  split; [exact Hrun|]. rewrite Hstore.
  split; [apply lookup_insert_eq|].
  split; [reflexivity|]. split; [apply set_updated_at_fields|].
  intros u Hu. apply lookup_insert_ne. congruence.
Qed.

Lemma process_persists_identity_witness :
  updated_at (set_updated_at 3 alice_identity) = 3 /\
  identity_collection profile_world !! "alice" = Some alice_identity /\
  exists ids w' stored,
    process (plain_agent mongo_chroma_storage) "alice" bangalore_conversation
      (Some (set_updated_at 3 alice_identity)) profile_world = (Ok ids, w') /\
    identity_collection w' !! "alice" = Some stored /\
    updated_at stored = 1700000000 /\
    name stored = Some "Alice".
Proof.
  split; [reflexivity|]. split; [reflexivity|].
  destruct (process_persists_identity (plain_agent mongo_chroma_storage) "alice"
              bangalore_conversation (set_updated_at 3 alice_identity) profile_world
              eq_refl eq_refl) as [ids [w' [stored [Hrun [Hstored [Hat [Hsame _]]]]]]].
  exists ids, w', stored. split; [exact Hrun|]. split; [exact Hstored|].
  split; [exact Hat|]. exact (proj1 (proj2 Hsame)).
Defined.



(** ** The ids [process] returns *)

Lemma replace_one_upsert_keeps (d x : MemoryNode) (docs : list MemoryNode) :
  In x docs -> memory_id x <> memory_id d -> In x (replace_one_upsert d docs).
Proof.
  induction docs as [|y docs IH]; cbn; intros Hin Hne; [destruct Hin|].
  destruct (String.eqb (memory_id y) (memory_id d)) eqn:E.
  - destruct Hin as [->|Hin]; [|now right].
    apply String.eqb_eq in E. contradiction.
  - destruct Hin as [->|Hin]; [now left | right; now apply IH].
Qed.

Lemma nodup_snoc (x : string) (l : list string) :
  List.NoDup l -> ~ In x l -> List.NoDup (l ++ [x]).
Proof.
  induction 1 as [|y l Hy Hnd IH]; cbn; intros Hx.
  - constructor; [intros [] | constructor].
  - constructor.
    + intros Hin. apply in_app_or in Hin as [Hin | [->|[]]]; [contradiction|].
      apply Hx. now left.
    + apply IH. intros Hin. apply Hx. now right.
Qed.

Lemma stored_ids_later (uid : string) (ids : list string) (w w' : World) :
  stored_ids uid ids w ->
  memory_collection w' = memory_collection w ->
  (uuid_count w <= uuid_count w')%nat ->
  stored_ids uid ids w'.
Proof.
  intros [Hnd Hall] Hm Hu. split; [exact Hnd|].
  intros id Hid. destruct (Hall id Hid) as [[k [Hk Hidk]] Hdoc]. split.
  - exists k. split; [|exact Hidk]. eapply Nat.lt_le_trans; eauto.
  - now rewrite Hm.
Qed.

Lemma save_signals_stored (self : ShivaAgent) (uid : string)
    (conversation : Conversation) (signals : list Signal) (ids ids' : list string)
    (w w' : World) :
  memory_storage self = mongo_chroma_storage ->
  save_signals self uid conversation signals ids w = (Ok ids', w') ->
  stored_ids uid ids w ->
  stored_ids uid ids' w'.
Proof.
  intros Hstorage. revert ids w.
  induction signals as [|signal rest IH]; intros ids w Hrun Hstored;
    cbn [save_signals] in Hrun.
  - now injection Hrun as <- <-.
  - unfold bind at 1 in Hrun.
    pose proof (keeps_create_memory_node self uid signal conversation w)
      as [Hm1 [_ Hu1]].
    destruct (_create_memory_node self uid signal conversation w)
      as [[[node|]|e] w1] eqn:Hmade; cbn in Hm1, Hu1; [| |discriminate].
    + rewrite Hstorage in Hrun. cbn [st_save_memory mongo_chroma_storage] in Hrun.
      unfold bind at 1 in Hrun.
      destruct (save_memory node w1) as [[id|e] w2] eqn:Hsave; [|discriminate].
      apply IH in Hrun; [exact Hrun|].
      destruct (save_memory_returned _ _ _ _ Hsave) as [-> [Hdocs [_ [_ Hu2]]]].
      destruct (create_memory_node_id _ _ _ _ _ _ _ Hmade) as [Hid Hcount].
      destruct (create_memory_node_made _ _ _ _ _ _ _ Hmade)
        as [_ [_ [_ [Huser Hpersonal]]]].
      destruct Hstored as [Hnd Hall].
      assert (Hnew : ~ In (memory_id node) ids).
      { intros Hin. destruct (Hall _ Hin) as [[k [Hk Hidk]] _].
        rewrite Hid in Hidk. apply uuid_text_inj in Hidk. subst k.
        exact (Nat.lt_irrefl _ Hk). }
      split.
      * now apply nodup_snoc.
      * intros id Hin. apply in_app_or in Hin as [Hin | [<-|[]]].
        -- destruct (Hall id Hin) as [[k [Hk Hidk]] [d [Hd [Hdid Hrest]]]]. split.
           ++ exists k. split; [|exact Hidk]. rewrite Hu2.
              eapply Nat.lt_le_trans; eauto.
           ++ exists d. split; [|now split].
              rewrite Hdocs, Hm1. apply replace_one_upsert_keeps; [exact Hd|].
              rewrite Hdid. intros E. apply Hnew. now rewrite <- E.
        -- split.
           ++ exists (uuid_count w). split; [now rewrite Hu2 | exact Hid].
           ++ exists node. split; [|auto].
              rewrite Hdocs. apply replace_one_upsert_In.
    + apply IH in Hrun; [exact Hrun|]. now apply stored_ids_later with w.
Qed.

(** X15: the ids [process] returns are distinct, and each of them is the id
    of a document in the store afterwards, a personal record of the user
    the call was made for. *)
Theorem process_returns_stored_ids `{JSONDecoder} (self : ShivaAgent) (uid : string)
    (conversation : Conversation) (user_identity : option UserIdentity)
    (w w' : World) (ids : list string) :
  memory_storage self = mongo_chroma_storage ->
  process self uid conversation user_identity w = (Ok ids, w') ->
  List.NoDup ids /\
  forall id, In id ids ->
    exists d, In d (memory_collection w') /\ memory_id d = id /\
              user_id d = uid /\ is_hive_mind d = false.
Proof.
  intros Hstorage Hrun.
  assert (Hstored : stored_ids uid ids w').
  { unfold process in Hrun. unfold bind at 1 in Hrun. cbn [logger] in Hrun.
    unfold try_except in Hrun.
    destruct (process_body self uid conversation user_identity _)
      as [[ids0|e] wb] eqn:Hbody.
    - injection Hrun as <- <-.
      unfold process_body in Hbody. unfold bind at 1 in Hbody.
      match type of Hbody with
      | context [_extract_memory_signals ?s ?c ?u ?w0] =>
          pose proof (keeps_extract_memory_signals s c u w0) as [Hm0 [_ Hu0]];
            destruct (_extract_memory_signals s c u w0) as [[signals|e] w1];
            [|discriminate]
      end.
      cbn in Hm0, Hu0. unfold bind at 1 in Hbody.
      destruct (save_signals self uid conversation signals [] w1)
        as [[ids1|e] w2] eqn:Hloop; [|discriminate].
      assert (Hafter : stored_ids uid ids1 w2).
      { eapply save_signals_stored; eauto.
        split; [constructor | intros id []]. }
      assert (Hlast : exists w3,
                same_stores w2 w3 /\
                (Ok ids0, wb)
                = (Ok ids1, with_log (log w3 ++ [(INFO, "Shiva processing completed")]) w3)).
      { unfold bind at 1 in Hbody.
        destruct user_identity as [identity|].
        - rewrite Hstorage in Hbody.
          cbn [st_update_user_identity mongo_chroma_storage] in Hbody.
          unfold bind at 1 in Hbody.
          pose proof (keeps_update_user_identity identity w2) as Hk.
          destruct (update_user_identity identity w2) as [[done|e] w3];
            [|discriminate].
          exists w3. split; [exact Hk|]. now rewrite <- Hbody.
        - exists w2. split; [apply same_stores_refl|]. now rewrite <- Hbody. }
      destruct Hlast as [w3 [[Hm3 [_ Hu3]] Heq]]. injection Heq as -> ->.
      apply stored_ids_later with w2; [exact Hafter | exact Hm3 | exact Hu3].
    - cbn in Hrun. injection Hrun as <- <-.
      split; [constructor | intros id []]. }
  destruct Hstored as [Hnd Hall]. split; [exact Hnd|].
  intros id Hid. exact (proj2 (Hall id Hid)).
Qed.

Lemma process_returns_stored_ids_witness :
  fst (process (agent_answering two_signals_response) "u1" bangalore_conversation None
         empty_world) = Ok ["uuid-0"; "uuid-1"] /\
  List.NoDup ["uuid-0"; "uuid-1"] /\
  forall id, In id ["uuid-0"; "uuid-1"] ->
    exists d,
      In d (memory_collection
              (snd (process (agent_answering two_signals_response) "u1"
                      bangalore_conversation None empty_world))) /\
      memory_id d = id /\ user_id d = "u1" /\ is_hive_mind d = false.
Proof.
  split; [reflexivity|].
  apply (process_returns_stored_ids (agent_answering two_signals_response) "u1"
           bangalore_conversation None empty_world _ _ eq_refl).
  reflexivity.
Defined.

(** ** Shared memories *)

(** The newest of the selected documents comes first in a recent query. *)
Lemma get_recent_memories_newest (uid : option string) (hive : bool) (limit : nat)
    (w : World) (r : MemoryNode) :
  pending_faults w = [] ->
  limit <> 0%nat ->
  In r (memory_collection w) ->
  recent_query uid hive r = true ->
  (forall d, In d (memory_collection w) -> recent_query uid hive d = true ->
     d = r \/ timestamp d < timestamp r) ->
  exists rest w',
    get_recent_memories uid hive limit w = (Ok (r :: rest), w').
Proof.
  intros Hplan Hlimit Hdoc Hq Hnewest.
  destruct (try_except_total
              (memory_docs <- mongo_find (recent_query uid hive) ;;
               ret (mongo_limit limit (sort_desc Z.leb timestamp memory_docs)))
              ERROR "Failed to get recent memories" [] w) as [found [w' Hrun]].
  pose proof (get_recent_memories_result uid hive limit w) as Hres.
  unfold get_recent_memories in Hres at 1. rewrite Hrun in Hres. cbn in Hres.
  rewrite Hplan in Hres. injection Hres as ->.
  pose proof (timestamps_sorted
                (List.filter (recent_query uid hive) (memory_collection w)))
    as Hsorted.
  assert (Hr : In r (sort_desc Z.leb timestamp
                       (List.filter (recent_query uid hive) (memory_collection w))))
    by (apply sort_desc_In, filter_In; now split).
  assert (Hin : forall d,
            In d (sort_desc Z.leb timestamp
                    (List.filter (recent_query uid hive) (memory_collection w))) ->
            d = r \/ timestamp d < timestamp r).
  { intros d Hd. apply sort_desc_In, filter_In in Hd as [Hd Hdq]. now apply Hnewest. }
  destruct (sort_desc Z.leb timestamp
              (List.filter (recent_query uid hive) (memory_collection w)))
    as [|h tl]; [destruct Hr|].
  assert (Hhead : h = r).
  { destruct (Hin h (or_introl eq_refl)) as [Heq|Hlt]; [exact Heq|].
    destruct Hr as [Heq|Hr]; [exact Heq|].
    inversion Hsorted as [|? ? _ Hall]; subst.
    rewrite List.Forall_forall in Hall. specialize (Hall r Hr). cbn in Hall. lia. }
  subst h. destruct limit as [|n]; [contradiction|].
  exists (firstn n tl), w'. exact Hrun.
Qed.

(** X16: when the embedding service is disabled or answers and no round
    trip fails, [create_hive_mind_memory] saves one shared record of the
    given content, type and tags, dated at the current time, under the next
    id of the supply, and returns that id.  Whichever user asks, the recent
    query of the shared pool then returns the record when its limit is 0 or
    not below the number of stored documents, and returns it first, at
    every limit other than 0, when every shared document stored before is
    older than the current time. *)
Theorem create_hive_mind_memory_shares (self : ShivaAgent) (uid text : string)
    (mt : MemoryType) (tag_list : option (list string)) (w : World) :
  memory_storage self = mongo_chroma_storage ->
  pending_faults w = [] ->
  (embeddings self = None \/
   exists embed_query v,
     embeddings self = Some embed_query /\ embed_query (PStr text) = Ok v) ->
  exists node w',
    create_hive_mind_memory self uid text mt tag_list w
      = (Ok (Some (memory_id node)), w') /\
    memory_collection w' = replace_one_upsert node (memory_collection w) /\
    memory_id node = uuid_text (uuid_count w) /\
    user_id node = uid /\
    content node = text /\
    memory_type node = mt /\
    tags node = default [] tag_list /\
    is_hive_mind node = true /\
    timestamp node = clock w /\
    (forall asking limit,
       limit = 0%nat \/ (length (memory_collection w') <= limit)%nat ->
       exists found w'',
         get_recent_memories asking true limit w' = (Ok found, w'') /\
         In node found) /\
    (forall asking limit,
       limit <> 0%nat ->
       (forall d, In d (memory_collection w) -> is_hive_mind d = true ->
          timestamp d < clock w) ->
       exists rest w'',
         get_recent_memories asking true limit w' = (Ok (node :: rest), w'')).
Proof.
  intros Hstorage Hplan Hemb.
  assert (Hrun : forall emb,
            exists w',
              (saved_id <- save_memory
                             {| memory_id := uuid_text (uuid_count w);
                                user_id := uid;
                                content := text;
                                memory_type := mt;
                                timestamp := clock w;
                                tags := default [] tag_list;
                                recency_value := 1%Q;
                                source := "hive_mind";
                                embedding := emb;
                                conversation_context := None;
                                system_prompt_snippet := None;
                                is_hive_mind := true |} ;;
               logger INFO "Hive mind memory created" ;;;
               ret (Some saved_id)) (with_uuid_count (S (uuid_count w)) w)
              = (Ok (Some (uuid_text (uuid_count w))), w') /\
              memory_collection w'
                = replace_one_upsert
                    {| memory_id := uuid_text (uuid_count w);
                       user_id := uid;
                       content := text;
                       memory_type := mt;
                       timestamp := clock w;
                       tags := default [] tag_list;
                       recency_value := 1%Q;
                       source := "hive_mind";
                       embedding := emb;
                       conversation_context := None;
                       system_prompt_snippet := None;
                       is_hive_mind := true |} (memory_collection w) /\
              pending_faults w' = []).
  { intros emb. unfold bind at 1.
    match goal with
    | |- context [save_memory ?n ?w0] =>
        destruct (save_memory_succeeds n w0) as [w1 [Hsave [Hdocs [_ [_ [Hp _]]]]]];
          [now apply no_faults_clear|]
    end.
    rewrite Hsave. cbn in Hdocs, Hp. rewrite Hplan in Hp.
    eexists. split; [reflexivity|]. cbn. split; [exact Hdocs|].
    rewrite Hp. now destruct (save_round_trips _) as [|[|n]]. }
  assert (Hdone : exists emb w',
            create_hive_mind_memory self uid text mt tag_list w
              = (Ok (Some (uuid_text (uuid_count w))), w') /\
            memory_collection w'
              = replace_one_upsert
                  {| memory_id := uuid_text (uuid_count w);
                     user_id := uid;
                     content := text;
                     memory_type := mt;
                     timestamp := clock w;
                     tags := default [] tag_list;
                     recency_value := 1%Q;
                     source := "hive_mind";
                     embedding := emb;
                     conversation_context := None;
                     system_prompt_snippet := None;
                     is_hive_mind := true |} (memory_collection w) /\
            pending_faults w' = []).
  { unfold create_hive_mind_memory. rewrite Hstorage.
    cbn [st_save_memory mongo_chroma_storage].
    destruct Hemb as [Hnone | [embed_query [v [Hsome Hok]]]].
    - rewrite Hnone. destruct (Hrun None) as [w' [Hbody Hrest]].
      exists None, w'. split; [|exact Hrest].
      unfold try_except. unfold bind at 1. cbn [ret].
      unfold bind at 1. cbn [uuid4]. unfold bind at 1. cbn [utcnow].
      cbn [clock with_uuid_count uuid_count]. now rewrite Hbody.
    - rewrite Hsome. destruct (Hrun (Some v)) as [w' [Hbody Hrest]].
      exists (Some v), w'. split; [|exact Hrest].
      unfold try_except. unfold bind at 1. unfold bind at 1. cbn [lift].
      rewrite Hok. cbn [ret].
      unfold bind at 1. cbn [uuid4]. unfold bind at 1. cbn [utcnow].
      cbn [clock with_uuid_count uuid_count]. now rewrite Hbody. }
  destruct Hdone as [emb [w' [Hcreate [Hdocs Hp]]]].
  match type of Hdocs with
  | _ = replace_one_upsert ?n _ => exists n, w'
  end.
  split; [exact Hcreate|]. split; [exact Hdocs|].
  do 7 (split; [reflexivity|]).
  split.
  - intros asking limit Hlimit. apply get_recent_memories_complete.
    + unfold next_call_succeeds. now rewrite Hp.
    + exact Hlimit.
    + rewrite Hdocs. apply replace_one_upsert_In.
    + unfold recent_query. cbn. now rewrite andb_false_r.
  - intros asking limit Hlimit Holder. apply get_recent_memories_newest.
    + exact Hp.
    + exact Hlimit.
    + rewrite Hdocs. apply replace_one_upsert_In.
    + unfold recent_query. cbn. now rewrite andb_false_r.
    + intros d Hd Hq. rewrite Hdocs in Hd.
      apply replace_one_upsert_inv in Hd as [->|Hd]; [now left|]. right.
      cbn [timestamp]. apply Holder; [exact Hd|].
      unfold recent_query in Hq. apply andb_true_iff in Hq as [Hq _].
      now destruct (is_hive_mind d).
Qed.

Lemma create_hive_mind_memory_shares_witness :
  exists node w',
    create_hive_mind_memory agent_embedding "alice"
      "Insight: reflection improves decision quality." FACTUAL (Some ["wisdom"])
      (with_clock 1700000900 two_users_world) = (Ok (Some (memory_id node)), w') /\
    memory_id node = "uuid-0" /\
    is_hive_mind node = true /\
    (exists found w'',
       get_recent_memories (Some "bob") true 0 w' = (Ok found, w'') /\
       In node found) /\
    exists rest w'',
      get_recent_memories (Some "bob") true 1 w' = (Ok (node :: rest), w'').
Proof.
  destruct (create_hive_mind_memory_shares agent_embedding "alice"
              "Insight: reflection improves decision quality." FACTUAL
              (Some ["wisdom"]) (with_clock 1700000900 two_users_world)
              eq_refl eq_refl)
    as [node [w' [Hrun [_ [Hid [_ [_ [_ [_ [Hshared [_ [Hall Hfirst]]]]]]]]]]]].
  - right. eexists _, _. split; reflexivity.
  - exists node, w'. split; [exact Hrun|]. split; [exact Hid|].
    split; [exact Hshared|]. split.
    + apply Hall. now left.
    + apply Hfirst; [discriminate|].
      intros d Hd Hhive. vm_compute in Hd.
      destruct Hd as [<-|[<-|[<-|[]]]]; first [discriminate Hhive | reflexivity].
Defined.

(** ** The text handed to the JSON decoder *)

Lemma str_app_cons (c : ascii) (a b : string) : String c a ++ b = String c (a ++ b).
Proof. reflexivity. Qed.

Lemma str_app_nil (b : string) : EmptyString ++ b = b.
Proof. reflexivity. Qed.

Lemma str_app_assoc (a b c : string) : (a ++ b) ++ c = a ++ b ++ c.
Proof.
  induction a as [|x a IH]; [reflexivity|].
  rewrite !str_app_cons. now rewrite IH.
Qed.

Lemma str_find_split (c : ascii) (s : string) :
  0 <= str_find c s ->
  exists pre post,
    s = pre ++ String c post /\
    String.length pre = Z.to_nat (str_find c s) /\
    str_has c pre = false.
Proof.
  induction s as [|c' s IH]; cbn [str_find]; [lia|].
  destruct (Ascii.eqb c' c) eqn:E.
  - intros _. apply Ascii.eqb_eq in E. subst c'. now exists EmptyString, s.
  - destruct (Z.ltb_spec (str_find c s) 0) as [Hlt|Hge]; [lia|]. intros _.
    destruct (IH Hge) as [pre [post [Heq [Hlen Hno]]]].
    exists (String c' pre), post. rewrite str_app_cons. split; [now f_equal|]. split.
    + cbn [String.length]. rewrite Hlen. lia.
    + cbn [str_has]. now rewrite E, Hno.
Qed.

Lemma str_rfind_absent (c : ascii) (s : string) :
  str_rfind c s < 0 -> str_has c s = false.
Proof.
  induction s as [|c' s IH]; cbn [str_rfind str_has]; [reflexivity|].
  destruct (Z.leb_spec 0 (str_rfind c s)) as [Hge|Hlt]; [lia|].
  destruct (Ascii.eqb c' c); [lia|]. intros _. now apply IH.
Qed.

Lemma str_rfind_split (c : ascii) (s : string) :
  0 <= str_rfind c s ->
  exists pre post,
    s = pre ++ String c post /\
    String.length pre = Z.to_nat (str_rfind c s) /\
    str_has c post = false.
Proof.
  induction s as [|c' s IH]; cbn [str_rfind]; [lia|].
  destruct (Z.leb_spec 0 (str_rfind c s)) as [Hge|Hlt].
  - intros _. destruct (IH Hge) as [pre [post [Heq [Hlen Hno]]]].
    exists (String c' pre), post. rewrite str_app_cons. split; [now f_equal|]. split.
    + cbn [String.length]. rewrite Hlen. lia.
    + exact Hno.
  - destruct (Ascii.eqb c' c) eqn:E; [|lia]. intros _.
    apply Ascii.eqb_eq in E. subst c'. exists EmptyString, s.
    split; [reflexivity|]. split; [reflexivity|]. now apply str_rfind_absent.
Qed.

Lemma str_app_split (a x b y : string) :
  a ++ x = b ++ y ->
  (String.length a <= String.length b)%nat ->
  exists mid, b = a ++ mid /\ x = mid ++ y.
Proof.
  revert b. induction a as [|c a IH]; intros b Heq Hlen.
  - exists b. now split.
  - destruct b as [|c' b]; [cbn in Hlen; lia|].
    rewrite !str_app_cons in Heq. injection Heq as -> Heq.
    cbn [String.length] in Hlen.
    destruct (IH b Heq) as [mid [-> ->]]; [lia|].
    exists mid. now split.
Qed.

Lemma str_drop_app (a x : string) : str_drop (String.length a) (a ++ x) = x.
Proof. induction a as [|c a IH]; [now destruct x | exact IH]. Qed.

Lemma str_prefix_app_one (a : string) (c : ascii) (x : string) :
  str_prefix (S (String.length a)) (a ++ String c x) = a ++ String c EmptyString.
Proof.
  induction a as [|c' a IH]; [reflexivity|].
  rewrite !str_app_cons. cbn [String.length].
  change (String c' (str_prefix (S (String.length a)) (a ++ String c x))
          = String c' (a ++ String c EmptyString)).
  now rewrite IH.
Qed.

Lemma str_last_app (a : string) (c : ascii) :
  str_last (a ++ String c EmptyString) = Some c.
Proof.
  induction a as [|c' a IH]; [reflexivity|].
  rewrite str_app_cons. destruct a as [|c'' a]; [reflexivity|].
  rewrite str_app_cons in *. exact IH.
Qed.

(** X17: the text [located_array] hands to the decoder is the part of the
    response from its first opening bracket to its last closing bracket: it
    starts with the one and ends with the other, no opening bracket comes
    before it and no closing bracket after it. *)
Theorem located_array_brackets (response_text json_str : string) :
  located_array response_text = Some json_str ->
  exists before body after,
    response_text = before ++ json_str ++ after /\
    json_str = String "[" body /\
    str_last json_str = Some "]"%char /\
    str_has "[" before = false /\
    str_has "]" after = false.
Proof.
  unfold located_array. intros Hloc.
  destruct ((0 <=? str_find "[" response_text)
            && (str_find "[" response_text <? str_rfind "]" response_text + 1))
    eqn:Hcond; [|discriminate].
  injection Hloc as <-.
  apply andb_true_iff in Hcond as [Hstart Hend].
  apply Z.leb_le in Hstart. apply Z.ltb_lt in Hend.
  destruct (str_find_split "[" response_text Hstart)
    as [pre1 [post1 [Heq1 [Hlen1 Hno1]]]].
  destruct (str_rfind_split "]" response_text ltac:(lia))
    as [pre2 [post2 [Heq2 [Hlen2 Hno2]]]].
  destruct (str_app_split pre1 (String "[" post1) pre2 (String "]" post2))
    as [mid [Hpre Hmid]]; [congruence | lia |].
  destruct mid as [|c mid]; [discriminate|].
  rewrite str_app_cons in Hmid. injection Hmid as <- Hpost.
  assert (Hslice : str_slice (str_find "[" response_text)
                     (str_rfind "]" response_text + 1) response_text
                   = String "[" mid ++ String "]" EmptyString).
  { unfold str_slice.
    replace (Z.to_nat (str_find "[" response_text)) with (String.length pre1).
    replace (Z.to_nat (str_rfind "]" response_text + 1 - str_find "[" response_text))
      with (S (String.length (String "[" mid))).
    - rewrite Heq2 at 1. rewrite Hpre, str_app_assoc, str_drop_app.
      apply str_prefix_app_one.
    - rewrite Hpre, str_length_app in Hlen2. lia. }
  rewrite Hslice.
  exists pre1, (mid ++ String "]" EmptyString), post2. repeat split.
  - rewrite Heq2 at 1. rewrite Hpre, !str_app_assoc. reflexivity.
  - apply str_last_app.
  - exact Hno1.
  - exact Hno2.
Qed.

Lemma located_array_brackets_witness :
  located_array two_signals_response
  = Some (str_drop 13 two_signals_response) /\
  exists before body after,
    two_signals_response = before ++ str_drop 13 two_signals_response ++ after /\
    str_drop 13 two_signals_response = String "[" body /\
    str_last (str_drop 13 two_signals_response) = Some "]"%char /\
    str_has "[" before = false /\
    str_has "]" after = false.
Proof.
  split; [reflexivity|].
  apply (located_array_brackets two_signals_response). reflexivity.
Defined.

(** ** The messages Brahma sends *)

Lemma history_messages_app (h1 h2 : list (list (string * string))) :
  history_messages (h1 ++ h2) = (history_messages h1 ++ history_messages h2)%list.
Proof.
  induction h1 as [|msg h1 IH]; [reflexivity|]. cbn [history_messages app].
  destruct (turn_get "role" msg) as [r|]; [|exact IH].
  destruct (String.eqb r "user"); [cbn; now rewrite IH|].
  destruct (String.eqb r "assistant"); [cbn; now rewrite IH | exact IH].
Qed.

Lemma history_messages_no_system (h : list (list (string * string))) :
  forallb (fun m => negb (is_system_message m)) (history_messages h) = true.
Proof.
  induction h as [|msg h IH]; [reflexivity|]. cbn [history_messages].
  destruct (turn_get "role" msg) as [r|]; [|exact IH].
  destruct (String.eqb r "user"); [exact IH|].
  destruct (String.eqb r "assistant"); exact IH.
Qed.

Lemma history_messages_length (h : list (list (string * string))) :
  (length (history_messages h) <= length h)%nat.
Proof.
  induction h as [|msg h IH]; [reflexivity|]. cbn [history_messages length].
  destruct (turn_get "role" msg) as [r|]; [|lia].
  destruct (String.eqb r "user"); [cbn [length]; lia|].
  destruct (String.eqb r "assistant"); [cbn [length]; lia | lia].
Qed.

Lemma history_messages_user (h : list (list (string * string)))
    (msg : list (string * string)) :
  In msg h -> turn_get "role" msg = Some "user" ->
  In (HumanMessage (default EmptyString (turn_get "content" msg))) (history_messages h).
Proof.
  intros Hin Hrole. apply in_split in Hin as [h1 [h2 ->]].
  rewrite history_messages_app. apply in_or_app. right.
  cbn [history_messages]. rewrite Hrole. now left.
Qed.

Lemma history_messages_assistant (h : list (list (string * string)))
    (msg : list (string * string)) :
  In msg h -> turn_get "role" msg = Some "assistant" ->
  In (AIMessage (default EmptyString (turn_get "content" msg))) (history_messages h).
Proof.
  intros Hin Hrole. apply in_split in Hin as [h1 [h2 ->]].
  rewrite history_messages_app. apply in_or_app. right.
  cbn [history_messages]. rewrite Hrole. now left.
Qed.

Lemma history_messages_omap (h : list (list (string * string))) :
  history_messages h = omap turn_message h.
Proof.
  induction h as [|msg h IH]; [reflexivity|].
  cbn [history_messages].
  change (omap turn_message (msg :: h))
    with (match turn_message msg with
          | Some m => m :: omap turn_message h
          | None => omap turn_message h
          end).
  unfold turn_message. destruct (turn_get "role" msg) as [r|].
  - destruct (String.eqb_spec r "user") as [->|Huser].
    + rewrite bool_decide_eq_true_2 by reflexivity. now rewrite IH.
    + rewrite (bool_decide_eq_false_2 (Some r = Some "user")) by congruence.
      destruct (String.eqb_spec r "assistant") as [->|Hassistant].
      * rewrite bool_decide_eq_true_2 by reflexivity. now rewrite IH.
      * rewrite (bool_decide_eq_false_2 (Some r = Some "assistant")) by congruence.
        exact IH.
  - rewrite !bool_decide_eq_false_2 by discriminate. exact IH.
Qed.

(** X18: the message list of a call opens with the system prompt, its only
    system message, and closes with the message of the user; between the
    two come the messages of the prior turns, in the order of the turns: a
    human message for each turn of the user, an assistant message for each
    turn of the assistant, each with the content of its turn, and nothing
    for a turn of any other role. *)
Theorem build_messages_shape (prompt message : string)
    (history : option (list (list (string * string)))) :
  exists turns,
    build_messages prompt message history
      = (SystemMessage prompt :: turns ++ [HumanMessage message])%list /\
    turns = omap turn_message (default [] history) /\
    forallb (fun m => negb (is_system_message m)) turns = true /\
    (length turns <= length (default [] history))%nat /\
    (forall msg, In msg (default [] history) ->
       turn_get "role" msg = Some "user" ->
       In (HumanMessage (default EmptyString (turn_get "content" msg))) turns) /\
    (forall msg, In msg (default [] history) ->
       turn_get "role" msg = Some "assistant" ->
       In (AIMessage (default EmptyString (turn_get "content" msg))) turns).
Proof.
  exists (history_messages (default [] history)). split.
  - unfold build_messages. destruct history as [[|msg h]|]; reflexivity.
  - split; [apply history_messages_omap|].
    split; [apply history_messages_no_system|].
    split; [apply history_messages_length|].
    split; intros msg; [apply history_messages_user | apply history_messages_assistant].
Qed.

(** X19: [generate_response] touches no store; it raises exactly when the
    model call does, with the error of the model, and otherwise returns the
    text of the model with a conversation that holds the prompt and the
    message as given. *)
Theorem generate_response_outcome (self : BrahmaInterface) (prompt message : string)
    (history : option (list (list (string * string)))) (w : World) :
  same_backends w (snd (generate_response self prompt message history w)) /\
  fst (generate_response self prompt message history w)
  = match llm self (build_messages prompt message history) with
    | Ok text =>
        Ok {| response := text;
              full_conversation :=
                {| system_prompt := prompt;
                   user_message := message;
                   assistant_response := text |};
              conversation_history := default [] history |}
    | Raise e => Raise e
    end.
Proof.
  unfold generate_response.
  generalize (build_messages prompt message history). intros messages. run.
  destruct (llm self messages) as [text|e]; cbn;
    (split; [unfold same_backends; cbn; repeat split; auto | reflexivity]).
Qed.

(** ** Intent detection *)

Lemma str_lstrip_head (s : string) :
  match str_lstrip s with
  | String c _ => is_space c = false
  | EmptyString => True
  end.
Proof.
  induction s as [|c s IH]; cbn [str_lstrip]; [exact I|].
  destruct (is_space c) eqn:E; [exact IH | exact E].
Qed.

Lemma str_rstrip_head (c : ascii) (s : string) :
  is_space c = false -> exists r, str_rstrip (String c s) = String c r.
Proof.
  intros Hc. cbn [str_rstrip]. destruct (str_rstrip s) as [|c' r].
  - rewrite Hc. now exists EmptyString.
  - now exists (String c' r).
Qed.

Lemma str_rstrip_last (s : string) :
  match str_last (str_rstrip s) with
  | Some c => is_space c = false
  | None => True
  end.
Proof.
  induction s as [|c s IH]; cbn [str_rstrip]; [exact I|].
  destruct (str_rstrip s) as [|c' r].
  - destruct (is_space c) eqn:E; [exact I | exact E].
  - exact IH.
Qed.

(** X20: [_detect_intent] never raises and touches no store; it gives no
    intent when detection is disabled or the model call fails; an intent
    it gives is the answer of the model, with no white space at either
    end. *)
Theorem detect_intent_fails_soft (self : VishnuAgent) (message : string) (w : World) :
  same_backends w (snd (_detect_intent self message w)) /\
  exists intent,
    fst (_detect_intent self message w) = Ok intent /\
    match intent_llm self with
    | None => intent = None
    | Some invoke =>
        match invoke (intent_prompt message) with
        | Raise _ => intent = None
        | Ok text =>
            intent = Some (str_strip text) /\
            match str_strip text with
            | String c _ => is_space c = false
            | EmptyString => True
            end /\
            match str_last (str_strip text) with
            | Some c => is_space c = false
            | None => True
            end
        end
    end.
Proof.
  unfold _detect_intent. destruct (intent_llm self) as [invoke|].
  - run. destruct (invoke (intent_prompt message)) as [text|e]; cbn.
    + split; [unfold same_backends; cbn; repeat split; auto|].
      eexists. split; [reflexivity|]. split; [reflexivity|]. split.
      * unfold str_strip. pose proof (str_lstrip_head text) as Hhead.
        destruct (str_lstrip text) as [|c s]; [exact I|].
        destruct (str_rstrip_head c s Hhead) as [r ->]. exact Hhead.
      * apply str_rstrip_last.
    + split; [unfold same_backends; cbn; repeat split; auto|]. now eexists.
  - run. split; [unfold same_backends; cbn; repeat split; auto|]. now eexists.
Qed.

(** X21: a failure of the intent model does not fail [VishnuAgent.process]:
    when the retriever and the prompt builder answer, the call returns,
    with no intent and the message of the user as given. *)
Theorem vishnu_process_survives_intent_failure (self : VishnuAgent)
    (uid message : string) (invoke : string -> result string) (e : exn) (w : World) :
  intent_llm self = Some invoke ->
  invoke (intent_prompt message) = Raise e ->
  (forall w0, exists found w1,
     mr_get_user_identity (memory_retriever self) uid w0 = (Ok found, w1)) ->
  (forall w0, exists found w1,
     mr_retrieve_personal_memories (memory_retriever self) uid message w0
     = (Ok found, w1)) ->
  (forall w0, exists found w1,
     mr_retrieve_hive_mind_memories (memory_retriever self) message w0
     = (Ok found, w1)) ->
  (forall identity personal shared w0, exists prompt w1,
     build_system_prompt self identity personal shared message w0 = (Ok prompt, w1)) ->
  exists r w',
    vishnu_process self uid message w = (Ok r, w') /\
    vr_intent r = None /\
    vr_user_message r = message.
Proof.
  intros Hllm Hfail Hget Hpersonal Hshared Hprompt.
  unfold vishnu_process, _detect_intent. rewrite Hllm.
  unfold bind at 1. cbn [logger]. unfold bind at 1.
  unfold try_except at 1. unfold bind at 1. unfold lift at 1. rewrite Hfail.
  unfold bind at 1. cbn [logger ret].
  unfold bind at 1. unfold _get_or_create_identity. unfold bind at 1.
  match goal with
  | |- context [mr_get_user_identity _ uid ?w0] =>
      destruct (Hget w0) as [found [w1 ->]]
  end.
  assert (Hidentity : exists identity w2,
            (match found with
             | Some identity => ret identity
             | None =>
                 identity <- new_identity uid ;;
                 logger INFO "New user identity created" ;;;
                 ret identity
             end) w1 = (Ok identity, w2)).
  { destruct found as [identity|]; run; eauto. }
  destruct Hidentity as [identity [w2 ->]].
  unfold bind at 1.
  assert (Hupdated : exists identity' w3,
            _update_identity self identity message None w2 = (Ok identity', w3)).
  { unfold _update_identity. destruct (negb (identity_update self)); run; eauto. }
  destruct Hupdated as [identity' [w3 ->]].
  unfold bind at 1. destruct (Hpersonal w3) as [personal [w4 ->]].
  unfold bind at 1. destruct (Hshared w4) as [shared [w5 ->]].
  unfold bind at 1. destruct (Hprompt identity' personal shared w5) as [prompt [w6 ->]].
  run. eexists _, _. split; [reflexivity|]. now split.
Qed.

Lemma vishnu_process_survives_intent_failure_witness :
  exists r w',
    vishnu_process vishnu_without_quota "alice" "How are you?" profile_world
    = (Ok r, w') /\
    vr_intent r = None /\
    vr_user_message r = "How are you?".
Proof.
  apply (vishnu_process_survives_intent_failure vishnu_without_quota "alice"
           "How are you?" (fun _ => Raise (ServiceError "quota exceeded"))
           (ServiceError "quota exceeded") profile_world eq_refl eq_refl).
  - intros w0. cbn. pose proof (get_user_identity_result "alice" w0) as Hget.
    destruct (get_user_identity "alice" w0) as [[found|e] w1]; cbn in Hget;
      [eauto | discriminate].
  - intros w0. cbn. pose proof (get_recent_memories_result (Some "alice") false 5 w0)
      as Hrecent.
    destruct (get_recent_memories (Some "alice") false 5 w0) as [[found|e] w1];
      cbn in Hrecent; [eauto | discriminate].
  - intros w0. cbn. pose proof (get_recent_memories_result None true 5 w0) as Hrecent.
    destruct (get_recent_memories None true 5 w0) as [[found|e] w1];
      cbn in Hrecent; [eauto | discriminate].
  - intros identity personal shared w0. cbn. eauto.
Defined.
